(** * SeaSnake: the C++ to Python generator ([seasnake/generator.py])

    A shallow embedding of the program model, the syntax-tree handlers and
    the code writer of [generator.py], and the properties of the
    specification that are stated about them.

    Python objects are mutable and have an identity, so the model keeps
    them in a store ([heap]) and passes references; [None] is the absent
    reference.  Handlers run in a state-and-exception monad in which the
    store survives a raised exception, as it does in Python when the
    exception is caught further up. *)

From stdpp Require Import base list strings pretty.
From Stdlib Require Import Ascii ZArith Lia.

(** ** Python strings *)

Module PyStr.

(** The ASCII characters [str.isspace] accepts. *)
Definition isspace (a : ascii) : bool :=
  let n := nat_of_ascii a in
  ((9 <=? n)%nat && (n <=? 13)%nat) || ((28 <=? n)%nat && (n <=? 32)%nat).

Definition snoc (s : string) (a : ascii) : string := s +:+ String a "".

(** [s.split()]: runs of whitespace separate the words, no empty word. *)
Fixpoint split_ws_go (s cur : string) : list string :=
  match s with
  | "" => if String.eqb cur "" then [] else [cur]
  | String a s' =>
      if isspace a
      then (if String.eqb cur "" then split_ws_go s' ""
            else cur :: split_ws_go s' "")
      else split_ws_go s' (snoc cur a)
  end.
Definition split_ws (s : string) : list string := split_ws_go s "".

(** [s.split(' ')]: every single space separates, empty words are kept. *)
Fixpoint split_sp_go (s cur : string) : list string :=
  match s with
  | "" => [cur]
  | String a s' =>
      if Ascii.eqb a " "%char then cur :: split_sp_go s' ""
      else split_sp_go s' (snoc cur a)
  end.
Definition split_sp (s : string) : list string := split_sp_go s "".

(** [sep.join(l)]. *)
Fixpoint join (sep : string) (l : list string) : string :=
  match l with
  | [] => ""
  | [x] => x
  | x :: l' => x +:+ sep +:+ join sep l'
  end.

(** [s * n]. *)
Fixpoint times (s : string) (n : nat) : string :=
  match n with
  | O => ""
  | S n' => s +:+ times s n'
  end.

(** ['%s' % name] for a name that may be [None]. *)
Definition fmt (name : option string) : string :=
  match name with
  | Some s => s
  | None => "None"
  end.

(** Truth value of a [str] or [None]. *)
Definition truthy (name : option string) : bool :=
  match name with
  | Some s => negb (String.eqb s "")
  | None => false
  end.

(** [sorted] on a list of strings. *)
Fixpoint insert_sorted (x : string) (l : list string) : list string :=
  match l with
  | [] => [x]
  | y :: l' => if String.leb x y then x :: l else y :: insert_sorted x l'
  end.
Definition sorted (l : list string) : list string :=
  foldr insert_sorted [] l.

End PyStr.

(** ** Ordered dictionaries

    [OrderedDict]: an assignment to a key that is present replaces the value
    and keeps the position of the first insertion; a new key goes last. *)

Module OrderedDict.
Section Dict.
Context {K V : Type} `{EqDecision K}.

Definition t := list (K * V).

Fixpoint setitem (k : K) (v : V) (d : list (K * V)) : list (K * V) :=
  match d with
  | [] => [(k, v)]
  | (k', v') :: d' =>
      if decide (k = k') then (k', v) :: d' else (k', v') :: setitem k v d'
  end.

Fixpoint getitem (k : K) (d : list (K * V)) : option V :=
  match d with
  | [] => None
  | (k', v') :: d' => if decide (k = k') then Some v' else getitem k d'
  end.

Definition items (d : list (K * V)) : list (K * V) := d.
Definition values (d : list (K * V)) : list V := d.*2.
Definition truthy (d : list (K * V)) : bool :=
  match d with [] => false | _ => true end.
End Dict.
End OrderedDict.

(** ** The syntax tree supplied by the front end *)

Module TypeKind.
Inductive t := RECORD | LVALUEREFERENCE | POINTER | OTHER.
Definition eqb (a b : t) : bool :=
  match a, b with
  | RECORD, RECORD | LVALUEREFERENCE, LVALUEREFERENCE
  | POINTER, POINTER | OTHER, OTHER => true
  | _, _ => false
  end.
End TypeKind.

Module CursorKind.
(** The kinds that have a [handle_<kind>] method; every other kind of the
    front end is [UNHANDLED] with its name. *)
Inductive t :=
| UNEXPOSED_DECL | STRUCT_DECL | CLASS_DECL | ENUM_DECL | FIELD_DECL
| ENUM_CONSTANT_DECL | FUNCTION_DECL | VAR_DECL | PARM_DECL | TYPEDEF_DECL
| CXX_METHOD | NAMESPACE | CONSTRUCTOR | DESTRUCTOR | CXX_ACCESS_SPEC_DECL
| TYPE_REF | CXX_BASE_SPECIFIER | MEMBER_REF | UNEXPOSED_EXPR
| DECL_REF_EXPR | MEMBER_REF_EXPR | CALL_EXPR | INTEGER_LITERAL
| FLOATING_LITERAL | STRING_LITERAL | CHARACTER_LITERAL | PAREN_EXPR
| UNARY_OPERATOR | BINARY_OPERATOR | CONDITIONAL_OPERATOR
| CXX_FUNCTIONAL_CAST_EXPR | CXX_THIS_EXPR | CXX_NEW_EXPR | COMPOUND_STMT
| RETURN_STMT | DECL_STMT | TRANSLATION_UNIT
| UNHANDLED (name : string).

Definition is_parm_decl (k : t) : bool :=
  match k with PARM_DECL => true | _ => false end.
End CursorKind.

(** A cursor: kind, spelling, the file of its location ([None] when the
    location has no file), the kinds of its type and result type, the two
    per-kind queries the generator uses, the spellings of its tokens and its
    children. *)
#[warnings="-register-all"]
Inductive Node := mkNode {
  kind : CursorKind.t;
  spelling : string;
  location_file : option string;
  type_kind : TypeKind.t;
  result_type_kind : TypeKind.t;
  is_pure_virtual_method : bool;
  enum_value : Z;
  get_tokens : list string;
  get_children : list Node
}.

(** ** Exceptions and the monad of the handlers *)

Inductive exn :=
| StopIteration
| KeyError
| AttributeError
| NameError
| UnboundLocalError
| TypeError
| IndexError
| ValueError
| RecursionError
| SystemError
| Exception (msg : string).

Definition is_StopIteration (e : exn) : bool :=
  match e with StopIteration => true | _ => false end.
Definition is_KeyError (e : exn) : bool :=
  match e with KeyError => true | _ => false end.
Definition any_exn (e : exn) : bool := true.

Inductive Res (A : Type) :=
| Ok (a : A)
| Raise (e : exn).
Arguments Ok {A} a.
Arguments Raise {A} e.

Section Monad.
Context {S : Type}.

Definition M (A : Type) : Type := S -> Res A * S.

Definition ret {A} (a : A) : M A := fun s => (Ok a, s).
Definition raise {A} (e : exn) : M A := fun s => (Raise e, s).
Definition bind {A B} (m : M A) (k : A -> M B) : M B :=
  fun s =>
    match m s with
    | (Ok a, s') => k a s'
    | (Raise e, s') => (Raise e, s')
    end.

(** [try: body except <catches>: handler]. *)
Definition try_except {A} (body : M A) (catches : exn -> bool)
    (handler : exn -> M A) : M A :=
  fun s =>
    match body s with
    | (Ok a, s') => (Ok a, s')
    | (Raise e, s') => if catches e then handler e s' else (Raise e, s')
    end.

Definition gets {A} (f : S -> A) : M A := fun s => (Ok (f s), s).
Definition modify (f : S -> S) : M unit := fun s => (Ok tt, f s).

(** [for x in l: body x]. *)
Definition for_each {A} (l : list A) (body : A -> M unit) : M unit :=
  (fix go (l : list A) : M unit :=
     match l with
     | [] => ret tt
     | x :: l' => bind (body x) (fun _ => go l')
     end) l.

(** A [for] loop that carries a local variable from one round to the
    next. *)
Definition for_each_with {A V} (l : list A) (v0 : V)
    (body : V -> A -> M V) : M V :=
  (fix go (l : list A) (v : V) : M V :=
     match l with
     | [] => ret v
     | x :: l' => bind (body v x) (fun v' => go l' v')
     end) l v0.
End Monad.
Arguments M : clear implicits.

Declare Scope py_scope.
Delimit Scope py_scope with py.
Notation "x <- m ;; k" := (bind m (fun x => k))
  (at level 100, m at next level, right associativity) : py_scope.
Notation "'let*' p ':=' m 'in' k" := (bind m (fun x => match x with p => k end))
  (at level 100, p pattern, m at next level, right associativity) : py_scope.
Notation "m ;;; k" := (bind m (fun _ => k))
  (at level 100, right associativity) : py_scope.
Open Scope py_scope.

(** ** The program model *)

(** A reference is the position of the object in the store; a Python value
    is an object of the model or [None]. *)
Abbreviation ref := nat (only parsing).
Abbreviation Value := (option nat) (only parsing).

(** The fields every [Declaration] has. *)
Record Decl := mkDecl { parent : Value; name : option string }.

Inductive lit :=
| LInt (n : Z)
| LFloat (repr : string)
| LStr (s : string).

Inductive Obj :=
| ModuleObj (d : Decl) (names : list (string * ref))
    (declarations : list (option string * ref)) (imports : list string)
    (submodules : list (option string * ref))
| EnumerationObj (d : Decl) (names : list (string * ref))
    (enumerators : list Value)
| FunctionObj (d : Decl) (names : list (string * ref))
    (parameters : list ref) (statements : list ref)
| ParameterObj (d : Decl) (ctype default : Value)
| VariableObj (d : Decl) (value : Value)
| StructObj (d : Decl) (names : list (string * ref))
    (attributes : list (option string * ref))
| ClassObj (d : Decl) (names : list (string * ref))
    (superclass : option string) (constructor destructor : Value)
    (attributes methods : list (option string * ref))
| ConstructorObj (d : Decl) (names : list (string * ref))
    (parameters : list ref) (statements : option (list ref))
| DestructorObj (d : Decl) (names : list (string * ref))
    (parameters : list ref) (statements : option (list ref))
| MethodObj (d : Decl) (names : list (string * ref))
    (parameters : list ref) (statements : option (list ref))
    (pure_virtual : bool)
| AttributeObj (d : Decl) (value : Value)
| ReturnObj (value : Value)
| ReferenceObj (ref_ : string)
| SelfReferenceObj
| AttributeReferenceObj (instance : Value) (attr : string)
| LiteralObj (value : lit)
| UnaryOperationObj (op value : option Value)
| BinaryOperationObj (lvalue : option Value) (op : option string)
    (rvalue : option Value)
| ConditionalOperationObj (true_value true_result condition false_result
    : option Value)
| FunctionCallObj (fn : Value) (arguments : list Value)
| NewObj (klass : Value) (arguments : list Value)
| EnumValueObj (key : string) (value : Z).

(** An attribute that an object gets by assignment, not in [__init__], is an
    [option]: [None] until it is assigned, and reading it then is an
    [AttributeError].  [ConditionalOperation] has the three attributes its
    handler assigns and [true_result], the one its [output] reads first. *)

(** The store, and the two side channels the handlers print to. *)
Record State := mkState {
  heap : list Obj;
  stderr : list string;
  stdout : list exn
}.

Definition Py := M State.

Definition set_heap (h : list Obj) (s : State) : State :=
  mkState h (stderr s) (stdout s).

(** A new object; its reference is the next free one. *)
Definition alloc (o : Obj) : Py ref :=
  fun s => (Ok (length (heap s)), set_heap (heap s ++ [o]) s).

(** The object behind a reference.  A reference the store does not have
    cannot arise in Python; the model reports it as a [SystemError]. *)
Definition deref (r : ref) : Py Obj :=
  fun s => match heap s !! r with
           | Some o => (Ok o, s)
           | None => (Raise SystemError, s)
           end.

Definition store (r : ref) (o : Obj) : Py unit :=
  modify (fun s => set_heap (<[r := o]> (heap s)) s).

Definition print_stderr (msg : string) : Py unit :=
  modify (fun s => mkState (heap s) (stderr s ++ [msg]) (stdout s)).
Definition print_stdout (e : exn) : Py unit :=
  modify (fun s => mkState (heap s) (stderr s) (stdout s ++ [e])).

(** *** Attributes of the objects *)

Definition decl_of (o : Obj) : option Decl :=
  match o with
  | ModuleObj d _ _ _ _ | EnumerationObj d _ _ | FunctionObj d _ _ _
  | ParameterObj d _ _ | VariableObj d _ | StructObj d _ _
  | ClassObj d _ _ _ _ _ _ | ConstructorObj d _ _ _ | DestructorObj d _ _ _
  | MethodObj d _ _ _ _ | AttributeObj d _ => Some d
  | _ => None
  end.

(** The symbol table of a [Context]. *)
Definition names_of (o : Obj) : option (list (string * ref)) :=
  match o with
  | ModuleObj _ ns _ _ _ | EnumerationObj _ ns _ | FunctionObj _ ns _ _
  | StructObj _ ns _ | ClassObj _ ns _ _ _ _ _ | ConstructorObj _ ns _ _
  | DestructorObj _ ns _ _ | MethodObj _ ns _ _ _ => Some ns
  | _ => None
  end.

Definition set_names (ns : list (string * ref)) (o : Obj) : Obj :=
  match o with
  | ModuleObj d _ ds im sm => ModuleObj d ns ds im sm
  | EnumerationObj d _ es => EnumerationObj d ns es
  | FunctionObj d _ ps ss => FunctionObj d ns ps ss
  | StructObj d _ at_ => StructObj d ns at_
  | ClassObj d _ sup c de at_ me => ClassObj d ns sup c de at_ me
  | ConstructorObj d _ ps ss => ConstructorObj d ns ps ss
  | DestructorObj d _ ps ss => DestructorObj d ns ps ss
  | MethodObj d _ ps ss pv => MethodObj d ns ps ss pv
  | _ => o
  end.

(** [obj.name]. *)
Definition getattr_name (r : ref) : Py (option string) :=
  o <- deref r ;;
  match decl_of o with
  | Some d => ret (name d)
  | None => raise AttributeError
  end.

(** [obj.statements]; a [Function] always has a list. *)
Definition getattr_statements (r : ref) : Py (option (list ref)) :=
  o <- deref r ;;
  match o with
  | FunctionObj _ _ _ ss => ret (Some ss)
  | ConstructorObj _ _ _ ss | DestructorObj _ _ _ ss
  | MethodObj _ _ _ ss _ => ret ss
  | _ => raise AttributeError
  end.

(** [isinstance(context, Class)]. *)
Definition isinstance_Class (context : Value) : Py bool :=
  match context with
  | None => ret false
  | Some r =>
      o <- deref r ;;
      ret (match o with ClassObj _ _ _ _ _ _ _ => true | _ => false end)
  end.

(** *** [Declaration], [Context] and the constructors of the classes

    [Declaration.__init__]: the two fields are part of the new object; what
    remains is the registration in the parent. *)
Definition Declaration_init (self : ref) (parent : Value)
    (name : option string) : Py unit :=
  match name, parent with
  | Some n, Some p =>
      if PyStr.truthy name then
        o <- deref p ;;
        match names_of o with
        | Some ns => store p (set_names (OrderedDict.setitem n self ns) o)
        | None => raise AttributeError
        end
      else ret tt
  | _, _ => ret tt
  end.

(** [Context.__getitem__]; the recursion follows the parents, and a chain
    that never ends is Python's [RecursionError]. *)
Fixpoint Context_getitem_rec (fuel : nat) (self : ref) (name : string)
    : Py ref :=
  match fuel with
  | O => raise RecursionError
  | S fuel' =>
      o <- deref self ;;
      match names_of o, decl_of o with
      | Some ns, Some d =>
          match OrderedDict.getitem name ns with
          | Some r => ret r
          | None =>
              match parent d with
              | Some p =>
                  po <- deref p ;;
                  match po with
                  | EnumValueObj _ _ => raise TypeError
                  | _ =>
                      match names_of po with
                      | Some _ => Context_getitem_rec fuel' p name
                      | None => raise AttributeError
                      end
                  end
              | None => raise KeyError
              end
          end
      | _, _ => raise AttributeError
      end
  end.

Definition Context_getitem (self : ref) (name : string) : Py ref :=
  fun s => Context_getitem_rec (S (length (heap s))) self name s.

(** [context[name]] for any value. *)
Definition getitem (context : Value) (name : string) : Py ref :=
  match context with
  | None => raise TypeError
  | Some r =>
      o <- deref r ;;
      match names_of o with
      | Some _ => Context_getitem r name
      | None => raise TypeError
      end
  end.

(** [Module(name, parent)]: the name is kept from [Declaration.__init__]
    and assigned afterwards. *)
Definition Module_new (name : string) (parent : Value) : Py ref :=
  self <- alloc (ModuleObj (mkDecl parent None) [] [] [] []) ;;
  Declaration_init self parent None ;;;
  store self (ModuleObj (mkDecl parent (Some name)) [] [] [] []) ;;;
  ret self.

Definition Enumeration_new (parent : Value) (name : string) : Py ref :=
  self <- alloc (EnumerationObj (mkDecl parent (Some name)) [] []) ;;
  Declaration_init self parent (Some name) ;;;
  ret self.

Definition Function_new (parent : Value) (name : string) : Py ref :=
  self <- alloc (FunctionObj (mkDecl parent (Some name)) [] [] []) ;;
  Declaration_init self parent (Some name) ;;;
  ret self.

Definition Parameter_new (function : Value) (name : string)
    (ctype default : Value) : Py ref :=
  self <- alloc (ParameterObj (mkDecl function (Some name)) ctype default) ;;
  Declaration_init self function (Some name) ;;;
  ret self.

Definition Variable_new (parent : Value) (name : string) (value : Value)
    : Py ref :=
  self <- alloc (VariableObj (mkDecl parent (Some name)) value) ;;
  Declaration_init self parent (Some name) ;;;
  ret self.

Definition Struct_new (parent : Value) (name : string) : Py ref :=
  self <- alloc (StructObj (mkDecl parent (Some name)) [] []) ;;
  Declaration_init self parent (Some name) ;;;
  ret self.

(** The [classes] dictionary of a [Class] is never written or read (its only
    use fails, see [add_declaration]) and is left out. *)
Definition Class_new (parent : Value) (name : string) : Py ref :=
  self <- alloc (ClassObj (mkDecl parent (Some name)) [] None None None
                   [] []) ;;
  Declaration_init self parent (Some name) ;;;
  ret self.

Definition Constructor_new (klass : Value) : Py ref :=
  self <- alloc (ConstructorObj (mkDecl klass None) [] [] None) ;;
  Declaration_init self klass None ;;;
  ret self.

Definition Destructor_new (klass : Value) : Py ref :=
  self <- alloc (DestructorObj (mkDecl klass None) [] [] None) ;;
  Declaration_init self klass None ;;;
  ret self.

Definition Method_new (klass : Value) (name : string) (pure_virtual : bool)
    : Py ref :=
  self <- alloc (MethodObj (mkDecl klass (Some name)) [] [] None
                   pure_virtual) ;;
  Declaration_init self klass (Some name) ;;;
  ret self.

Definition Attribute_new (klass : Value) (name : string) (value : Value)
    : Py ref :=
  self <- alloc (AttributeObj (mkDecl klass (Some name)) value) ;;
  Declaration_init self klass (Some name) ;;;
  ret self.

(** *** Methods of the model classes

    A method that only some classes define is one function: the classes
    that have it are its cases, and every other receiver, [None] included,
    is an [AttributeError]. *)

Definition receiver (context : Value) : Py (ref * Obj) :=
  match context with
  | None => raise AttributeError
  | Some r => o <- deref r ;; ret (r, o)
  end.

(** [Module.add_import]; [imports] is a set. *)
Definition add_import (module : Value) (statement : string) : Py unit :=
  let* (r, o) := receiver module in
  match o with
  | ModuleObj d ns ds im sm =>
      store r (ModuleObj d ns ds
                 (if bool_decide (statement ∈ im) then im
                  else im ++ [statement]) sm)
  | _ => raise AttributeError
  end.

(** [self.add_imports(module)]. *)
Definition add_imports (self : ref) (module : Value) : Py unit :=
  o <- deref self ;;
  match o with
  | EnumerationObj _ _ _ => add_import module "from enum import Enum"
  | ParameterObj _ _ _ | EnumValueObj _ _ => raise AttributeError
  | _ => ret tt
  end.

(** [Module.add_declaration]; [Class.add_declaration] appends to an
    [OrderedDict], which has no [append]. *)
Definition add_declaration (context : Value) (decl : ref) : Py unit :=
  let* (r, o) := receiver context in
  match o with
  | ModuleObj d ns ds im sm =>
      n <- getattr_name decl ;;
      store r (ModuleObj d ns (OrderedDict.setitem n decl ds) im sm) ;;;
      add_imports decl context
  | _ => raise AttributeError
  end.

(** [Module.add_submodule] looks up the pair [(module.name, module)] in
    [submodules] instead of storing it. *)
Definition add_submodule (context : Value) (module : ref) : Py unit :=
  let* (r, o) := receiver context in
  match o with
  | ModuleObj _ _ _ _ _ =>
      getattr_name module ;;;
      raise KeyError
  | _ => raise AttributeError
  end.

Definition add_enumerator (context : Value) (entry : Value) : Py unit :=
  let* (r, o) := receiver context in
  match o with
  | EnumerationObj d ns es => store r (EnumerationObj d ns (es ++ [entry]))
  | _ => raise AttributeError
  end.

Definition add_parameter (context : Value) (parameter : ref) : Py unit :=
  let* (r, o) := receiver context in
  match o with
  | FunctionObj d ns ps ss => store r (FunctionObj d ns (ps ++ [parameter]) ss)
  | ConstructorObj d ns ps ss =>
      store r (ConstructorObj d ns (ps ++ [parameter]) ss)
  | MethodObj d ns ps ss pv =>
      store r (MethodObj d ns (ps ++ [parameter]) ss pv)
  | _ => raise AttributeError
  end.

(** [Function.add_statement] appends; the other three start the list when
    [statements] is [None] (or empty). *)
Definition append_statement (ss : option (list ref)) (statement : ref)
    : option (list ref) :=
  match ss with
  | Some (x :: l) => Some ((x :: l) ++ [statement])
  | _ => Some [statement]
  end.

Definition add_statement (context : Value) (statement : ref) : Py unit :=
  let* (r, o) := receiver context in
  match o with
  | FunctionObj d ns ps ss =>
      store r (FunctionObj d ns ps (ss ++ [statement])) ;;;
      add_imports statement context
  | ConstructorObj d ns ps ss =>
      store r (ConstructorObj d ns ps (append_statement ss statement)) ;;;
      add_imports statement context
  | DestructorObj d ns ps ss =>
      store r (DestructorObj d ns ps (append_statement ss statement)) ;;;
      add_imports statement context
  | MethodObj d ns ps ss pv =>
      store r (MethodObj d ns ps (append_statement ss statement) pv) ;;;
      add_imports statement context
  | _ => raise AttributeError
  end.

Definition Class_add_constructor (context : Value) (method : ref) : Py unit :=
  let* (r, o) := receiver context in
  match o with
  | ClassObj d ns sup ctor dtor at_ me =>
      match ctor with
      | Some c =>
          ss <- getattr_statements c ;;
          match ss with
          | None => store r (ClassObj d ns sup (Some method) dtor at_ me)
          | Some _ => raise (Exception "Cannot handle multiple constructors")
          end
      | None => store r (ClassObj d ns sup (Some method) dtor at_ me)
      end
  | _ => raise AttributeError
  end.

Definition Class_add_destructor (context : Value) (method : ref) : Py unit :=
  let* (r, o) := receiver context in
  match o with
  | ClassObj d ns sup ctor dtor at_ me =>
      match dtor with
      | Some c =>
          ss <- getattr_statements c ;;
          match ss with
          | None => store r (ClassObj d ns sup ctor (Some method) at_ me)
          | Some _ => raise (Exception "Cannot handle multiple destructors")
          end
      | None => store r (ClassObj d ns sup ctor (Some method) at_ me)
      end
  | _ => raise AttributeError
  end.

Definition Class_add_method (context : Value) (method : ref) : Py unit :=
  let* (r, o) := receiver context in
  match o with
  | ClassObj d ns sup ctor dtor at_ me =>
      n <- getattr_name method ;;
      store r (ClassObj d ns sup ctor dtor at_ (OrderedDict.setitem n method me))
  | _ => raise AttributeError
  end.

(** [add_attribute] of [Struct] and [Class]; [Constructor.add_attribute]
    hands the attribute to its parent. *)
Fixpoint add_attribute_rec (fuel : nat) (context : Value) (attr : ref)
    : Py unit :=
  match fuel with
  | O => raise RecursionError
  | S fuel' =>
      let* (r, o) := receiver context in
      match o with
      | StructObj d ns at_ =>
          n <- getattr_name attr ;;
          store r (StructObj d ns (OrderedDict.setitem n attr at_))
      | ClassObj d ns sup ctor dtor at_ me =>
          n <- getattr_name attr ;;
          store r (ClassObj d ns sup ctor dtor
                     (OrderedDict.setitem n attr at_) me)
      | ConstructorObj d _ _ _ => add_attribute_rec fuel' (parent d) attr
      | _ => raise AttributeError
      end
  end.

Definition add_attribute (context : Value) (attr : ref) : Py unit :=
  fun s => add_attribute_rec (S (length (heap s))) context attr s.

(** [self.add_to_context(context)]. *)
Definition add_to_context (self : ref) (context : Value) : Py unit :=
  o <- deref self ;;
  match o with
  | ModuleObj _ _ _ _ _ => add_submodule context self
  | EnumerationObj _ _ _ | FunctionObj _ _ _ _ | VariableObj _ _
  | StructObj _ _ _ | ClassObj _ _ _ _ _ _ _ => add_declaration context self
  | ParameterObj _ _ _ => add_parameter context self
  | ConstructorObj d _ _ _ => Class_add_constructor (parent d) self
  | DestructorObj d _ _ _ => Class_add_destructor (parent d) self
  | MethodObj d _ _ _ _ => Class_add_method (parent d) self
  | AttributeObj _ _ => add_attribute context self
  | _ => raise AttributeError
  end.

(** *** Attribute access used by the handlers *)

Definition update (r : ref) (f : Obj -> Obj) : Py unit :=
  o <- deref r ;; store r (f o).

(** [decl.ref]: only a [Reference] has it. *)
Definition getattr_ref (decl : Value) : Py string :=
  let* (_, o) := receiver decl in
  match o with
  | ReferenceObj name => ret name
  | _ => raise AttributeError
  end.

(** [klass.constructor], [klass.destructor] and [klass.methods[name]]. *)
Definition getattr_constructor (klass : ref) : Py Value :=
  o <- deref klass ;;
  match o with
  | ClassObj _ _ _ ctor _ _ _ => ret ctor
  | _ => raise AttributeError
  end.

Definition getattr_destructor (klass : ref) : Py Value :=
  o <- deref klass ;;
  match o with
  | ClassObj _ _ _ _ dtor _ _ => ret dtor
  | _ => raise AttributeError
  end.

Definition getitem_methods (klass : ref) (name : string) : Py ref :=
  o <- deref klass ;;
  match o with
  | ClassObj _ _ _ _ _ _ me =>
      match OrderedDict.getitem (Some name) me with
      | Some m => ret m
      | None => raise KeyError
      end
  | _ => raise AttributeError
  end.

(** [function_call.arguments]. *)
Definition getattr_arguments (call : Value) : Py (list Value) :=
  let* (_, o) := receiver call in
  match o with
  | FunctionCallObj _ args | NewObj _ args => ret args
  | _ => raise AttributeError
  end.

Definition FunctionCall_add_argument (fn : ref) (argument : Value) : Py unit :=
  update fn (fun o =>
    match o with
    | FunctionCallObj f args => FunctionCallObj f (args ++ [argument])
    | _ => o
    end).

(** [context.superclass = name]: a field of a [Class]; on any other object
    of the model an attribute nothing reads; [None] and a named tuple
    refuse it. *)
Definition setattr_superclass (context : Value) (sup : string) : Py unit :=
  let* (r, o) := receiver context in
  match o with
  | ClassObj d ns _ ctor dtor at_ me =>
      store r (ClassObj d ns (Some sup) ctor dtor at_ me)
  | EnumValueObj _ _ => raise AttributeError
  | _ => ret tt
  end.

(** ** The generator *)

(** What the handlers take from Python and its library: [os.path.abspath],
    [int] on a token, and [str(float(token))], the only thing ever done with
    the float of a literal ([None] is a [ValueError]). *)
Record Builtins := mkBuiltins {
  abspath : string -> string;
  int_of_str : string -> option Z;
  float_repr : string -> option string
}.

Record Generator := mkGenerator {
  module : ref;
  filenames : list string
}.

Section Handlers.
Context (py : Builtins) (self : Generator).
(** [self.handle], the one point of recursion. *)
Variable handle : Node -> Value -> Py Value.

Definition handle_unexposed_decl (node : Node) (context : Value)
    : Py Value :=
  ret None.

Definition handle_struct_decl (node : Node) (context : Value) : Py Value :=
  struct <- Struct_new context (spelling node) ;;
  for_each (get_children node) (fun child =>
    decl <- handle child (Some struct) ;;
    match decl with
    | Some d => add_to_context d (Some struct)
    | None => ret tt
    end) ;;;
  ret (Some struct).

Definition handle_class_decl (node : Node) (context : Value) : Py Value :=
  klass <- Class_new context (spelling node) ;;
  for_each (get_children node) (fun child =>
    decl <- handle child (Some klass) ;;
    match decl with
    | Some d => add_to_context d (Some klass)
    | None => ret tt
    end) ;;;
  ret (Some klass).

Definition handle_enum_decl (node : Node) (context : Value) : Py Value :=
  enum <- Enumeration_new context (spelling node) ;;
  for_each (get_children node) (fun child =>
    entry <- handle child (Some enum) ;;
    add_enumerator (Some enum) entry) ;;;
  ret (Some enum).

Definition handle_field_decl (node : Node) (context : Value) : Py Value :=
  try_except
    (match get_children node with
     | [] => raise StopIteration
     | child :: _ =>
         value <- handle child context ;;
         attr <- Attribute_new context (spelling node) value ;;
         ret (Some attr)
     end)
    is_StopIteration (fun _ => ret None).

Definition handle_enum_constant_decl (node : Node) (enum : Value)
    : Py Value :=
  r <- alloc (EnumValueObj (spelling node) (enum_value node)) ;;
  ret (Some r).

Definition handle_function_decl (node : Node) (context : Value)
    : Py Value :=
  function <- Function_new context (spelling node) ;;
  let loop := fun children =>
    for_each children (fun child =>
      decl <- handle child (Some function) ;;
      match decl with
      | Some d => add_to_context d (Some function)
      | None => ret tt
      end) ;;;
    ret (Some function) in
  match result_type_kind node with
  | TypeKind.RECORD | TypeKind.LVALUEREFERENCE | TypeKind.POINTER =>
      match get_children node with
      | [] => raise StopIteration
      | _ :: children => loop children
      end
  | _ => loop (get_children node)
  end.

Definition handle_var_decl (node : Node) (context : Value) : Py Value :=
  try_except
    (let build := fun children =>
       match children with
       | [] => raise StopIteration
       | child :: _ =>
           value <- handle child context ;;
           var <- Variable_new context (spelling node) value ;;
           ret (Some var)
       end in
     match type_kind node with
     | TypeKind.RECORD =>
         match get_children node with
         | [] => raise StopIteration
         | _ :: children => build children
         end
     | _ => build (get_children node)
     end)
    any_exn (fun _ => ret None).

Definition handle_parm_decl (node : Node) (function : Value) : Py Value :=
  p <- Parameter_new function (spelling node) None None ;;
  ret (Some p).

Definition handle_typedef_decl (node : Node) (context : Value)
    : Py Value :=
  ret None.

Definition handle_cxx_method (node : Node) (context : Value) : Py Value :=
  is_prototype <- isinstance_Class context ;;
  method0 <- (if is_prototype
              then m <- Method_new context (spelling node)
                          (is_pure_virtual_method node) ;;
                   ret (Some m)
              else ret None) ;;
  let loop := fun children =>
    method <- for_each_with children method0 (fun method child =>
      decl <- handle child method ;;
      match method with
      | None =>
          name <- getattr_ref decl ;;
          klass <- getitem context name ;;
          m <- getitem_methods klass (spelling node) ;;
          ret (Some m)
      | Some _ =>
          match decl with
          | Some d =>
              if is_prototype
                 || negb (CursorKind.is_parm_decl (kind child))
              then add_to_context d method ;;; ret method
              else ret method
          | None => ret method
          end
      end) ;;
    if is_prototype then ret method else ret None in
  match result_type_kind node with
  | TypeKind.RECORD =>
      match get_children node with
      | [] => raise StopIteration
      | _ :: children => loop children
      end
  | _ => loop (get_children node)
  end.

Definition handle_namespace (node : Node) (module : Value) : Py Value :=
  for_each (get_children node) (fun child =>
    decl <- handle child module ;;
    match decl with
    | Some d => add_to_context d module
    | None => ret tt
    end) ;;;
  ret None.

Definition handle_constructor (node : Node) (context : Value) : Py Value :=
  is_prototype <- isinstance_Class context ;;
  constructor0 <- (if is_prototype
                   then c <- Constructor_new context ;; ret (Some c)
                   else ret None) ;;
  constructor <- for_each_with (get_children node) constructor0
    (fun constructor child =>
      decl <- handle child constructor ;;
      match constructor with
      | None =>
          name <- getattr_ref decl ;;
          klass <- getitem context name ;;
          getattr_constructor klass
      | Some _ =>
          match decl with
          | Some d =>
              if is_prototype
                 || negb (CursorKind.is_parm_decl (kind child))
              then add_to_context d constructor ;;; ret constructor
              else ret constructor
          | None => ret constructor
          end
      end) ;;
  if is_prototype then ret constructor else ret None.

Definition handle_destructor (node : Node) (context : Value) : Py Value :=
  is_prototype <- isinstance_Class context ;;
  destructor0 <- (if is_prototype
                  then c <- Destructor_new context ;; ret (Some c)
                  else ret None) ;;
  destructor <- for_each_with (get_children node) destructor0
    (fun destructor child =>
      decl <- handle child destructor ;;
      match destructor with
      | None =>
          name <- getattr_ref decl ;;
          klass <- getitem context name ;;
          getattr_destructor klass
      | Some _ =>
          match decl with
          | Some d =>
              if is_prototype
                 || negb (CursorKind.is_parm_decl (kind child))
              then add_to_context d destructor ;;; ret destructor
              else ret destructor
          | None => ret destructor
          end
      end) ;;
  if is_prototype then ret destructor else ret None.

Definition handle_cxx_access_spec_decl (node : Node) (context : Value)
    : Py Value :=
  ret None.

Definition handle_type_ref (node : Node) (context : Value) : Py Value :=
  match PyStr.split_ws (spelling node) !! 1%nat with
  | Some name => r <- alloc (ReferenceObj name) ;; ret (Some r)
  | None => raise IndexError
  end.

Definition handle_cxx_base_specifier (node : Node) (context : Value)
    : Py Value :=
  match PyStr.split_sp (spelling node) !! 1%nat with
  | Some name => setattr_superclass context name ;;; ret None
  | None => raise IndexError
  end.

(** After the first child the source asks [next(children)], and
    [children] is not a name of this method. *)
Definition handle_member_ref (node : Node) (context : Value) : Py Value :=
  ref <- try_except
    (match get_children node with
     | [] => raise StopIteration
     | child :: _ =>
         instance <- handle child context ;;
         ref <- alloc (AttributeReferenceObj instance (spelling node)) ;;
         try_except
           ((raise NameError : Py unit) ;;;
            raise (Exception "Member reference has multiple children."))
           is_StopIteration (fun _ => ret tt) ;;;
         ret ref
     end)
    is_StopIteration
    (fun _ =>
       this <- alloc SelfReferenceObj ;;
       alloc (AttributeReferenceObj (Some this) (spelling node))) ;;
  ret (Some ref).

Definition handle_unexposed_expr (node : Node) (statement : Value)
    : Py Value :=
  match get_children node with
  | [] => raise StopIteration
  | first_child :: children =>
      try_except
        (match children with
         | [] => raise StopIteration
         | _ :: _ =>
             raise (Exception "Unexposed expression has multiple children.")
         end)
        is_StopIteration (fun _ => ret tt) ;;;
      handle first_child statement
  end.

Definition handle_decl_ref_expr (node : Node) (statement : Value)
    : Py Value :=
  r <- alloc (ReferenceObj (spelling node)) ;;
  ret (Some r).

Definition handle_member_ref_expr (node : Node) (context : Value)
    : Py Value :=
  ref <- try_except
    (match get_children node with
     | [] => raise StopIteration
     | first_child :: children =>
         instance <- handle first_child context ;;
         ref <- alloc (AttributeReferenceObj instance (spelling node)) ;;
         try_except
           (match children with
            | [] => raise StopIteration
            | _ :: _ =>
                raise (Exception
                  "Member reference expression has multiple children.")
            end)
           is_StopIteration (fun _ => ret tt) ;;;
         ret ref
     end)
    is_StopIteration
    (fun _ =>
       this <- alloc SelfReferenceObj ;;
       alloc (AttributeReferenceObj (Some this) (spelling node))) ;;
  ret (Some ref).

Definition handle_call_expr (node : Node) (context : Value) : Py Value :=
  match get_children node with
  | [] => raise StopIteration
  | first :: children =>
      match type_kind node with
      | TypeKind.RECORD => handle first context
      | _ =>
          callee <- handle first context ;;
          fn <- alloc (FunctionCallObj callee []) ;;
          for_each children (fun child =>
            argument <- handle child context ;;
            FunctionCall_add_argument fn argument) ;;;
          ret (Some fn)
      end
  end.

Definition handle_integer_literal (node : Node) (context : Value)
    : Py Value :=
  match get_tokens node with
  | [] => raise StopIteration
  | token :: _ =>
      match int_of_str py token with
      | Some n => r <- alloc (LiteralObj (LInt n)) ;; ret (Some r)
      | None => raise ValueError
      end
  end.

Definition handle_floating_literal (node : Node) (context : Value)
    : Py Value :=
  match get_tokens node with
  | [] => raise StopIteration
  | token :: _ =>
      match float_repr py token with
      | Some x => r <- alloc (LiteralObj (LFloat x)) ;; ret (Some r)
      | None => raise ValueError
      end
  end.

Definition handle_string_literal (node : Node) (context : Value)
    : Py Value :=
  match get_tokens node with
  | [] => raise StopIteration
  | token :: _ => r <- alloc (LiteralObj (LStr token)) ;; ret (Some r)
  end.

Definition handle_character_literal (node : Node) (context : Value)
    : Py Value :=
  match get_tokens node with
  | [] => raise StopIteration
  | token :: _ => r <- alloc (LiteralObj (LStr token)) ;; ret (Some r)
  end.

(** [Parentheses] is not a name of the module: evaluating the call fails
    before its argument is built, and nothing after it runs. *)
Definition handle_paren_expr (node : Node) (context : Value) : Py Value :=
  try_except (raise NameError) is_StopIteration
    (fun _ => raise (Exception "Parentheses must contain an expression.")).

Definition handle_unary_operator (node : Node) (context : Value)
    : Py Value :=
  let* (unaryop, children) := try_except
    (unaryop <- alloc (UnaryOperationObj None None) ;;
     match get_children node with
     | [] => raise StopIteration
     | first :: children =>
         op <- handle first (Some unaryop) ;;
         update unaryop (fun o =>
           match o with
           | UnaryOperationObj _ v => UnaryOperationObj (Some op) v
           | _ => o
           end) ;;;
         match children with
         | [] => raise StopIteration
         | second :: children =>
             value <- handle second (Some unaryop) ;;
             update unaryop (fun o =>
               match o with
               | UnaryOperationObj op _ => UnaryOperationObj op (Some value)
               | _ => o
               end) ;;;
             ret (unaryop, children)
         end
     end)
    is_StopIteration
    (fun _ => raise (Exception "Unary expression requires 2 child nodes."))
  in
  try_except
    (match children with
     | [] => raise StopIteration
     | _ :: _ => raise (Exception "Unary expression has > 2 child nodes.")
     end)
    is_StopIteration (fun _ => ret tt) ;;;
  ret (Some unaryop).

Definition handle_binary_operator (node : Node) (context : Value)
    : Py Value :=
  let* (binop, children) := try_except
    (binop <- alloc (BinaryOperationObj None None None) ;;
     match get_children node with
     | [] => raise StopIteration
     | lnode :: children =>
         lvalue <- handle lnode (Some binop) ;;
         update binop (fun o =>
           match o with
           | BinaryOperationObj _ op r => BinaryOperationObj (Some lvalue) op r
           | _ => o
           end) ;;;
         match last (get_tokens lnode) with
         | None => raise IndexError
         | Some token =>
             update binop (fun o =>
               match o with
               | BinaryOperationObj l _ r => BinaryOperationObj l (Some token) r
               | _ => o
               end)
         end ;;;
         match children with
         | [] => raise StopIteration
         | rnode' :: children =>
             rvalue <- handle rnode' (Some binop) ;;
             update binop (fun o =>
               match o with
               | BinaryOperationObj l op _ =>
                   BinaryOperationObj l op (Some rvalue)
               | _ => o
               end) ;;;
             ret (binop, children)
         end
     end)
    is_StopIteration
    (fun _ => raise (Exception "Binary expression requires 2 child nodes."))
  in
  try_except
    (match children with
     | [] => raise StopIteration
     | _ :: _ => raise (Exception "Binary expression has > 2 child nodes.")
     end)
    is_StopIteration (fun _ => ret tt) ;;;
  ret (Some binop).

Definition handle_conditional_operator (node : Node) (context : Value)
    : Py Value :=
  condop <- alloc (ConditionalOperationObj None None None None) ;;
  match get_children node with
  | [] => raise StopIteration
  | first :: children =>
      v <- handle first (Some condop) ;;
      update condop (fun o =>
        match o with
        | ConditionalOperationObj _ t c f =>
            ConditionalOperationObj (Some v) t c f
        | _ => o
        end) ;;;
      match children with
      | [] => raise StopIteration
      | second :: children =>
          v <- handle second (Some condop) ;;
          update condop (fun o =>
            match o with
            | ConditionalOperationObj tv t _ f =>
                ConditionalOperationObj tv t (Some v) f
            | _ => o
            end) ;;;
          match children with
          | [] => raise StopIteration
          | third :: _ =>
              v <- handle third (Some condop) ;;
              update condop (fun o =>
                match o with
                | ConditionalOperationObj tv t c _ =>
                    ConditionalOperationObj tv t c (Some v)
                | _ => o
                end) ;;;
              ret (Some condop)
          end
      end
  end.

(** The first [try] has two handlers; after the second one ([print (e)])
    the method goes on with [value] unbound and the iterator where the
    exception left it. *)
Definition handle_cxx_functional_cast_expr (node : Node) (context : Value)
    : Py Value :=
  let requires_2 :=
    Exception "Functional cast requires 2 child nodes." in
  let finish := fun (value : option Value) (children : list Node) =>
    try_except
      (match children with
       | [] => raise StopIteration
       | _ :: _ => raise (Exception "Functional cast has > 2 child nodes.")
       end)
      is_StopIteration (fun _ => ret tt) ;;;
    match value with
    | Some v => ret v
    | None => raise UnboundLocalError
    end in
  let printed := fun (e : exn) =>
    if is_StopIteration e then raise requires_2
    else print_stdout e ;;; ret None in
  match get_children node with
  | [] => raise requires_2
  | first :: children =>
      to_type <- try_except
        (t <- handle first context ;; ret (Some t)) any_exn printed ;;
      match to_type with
      | None => finish None children
      | Some _ =>
          match children with
          | [] => raise requires_2
          | second :: children =>
              value <- try_except
                (v <- handle second context ;; ret (Some v))
                any_exn printed ;;
              finish value children
          end
      end
  end.

Definition handle_cxx_this_expr (node : Node) (context : Value)
    : Py Value :=
  r <- alloc SelfReferenceObj ;;
  ret (Some r).

(** The second [try] raises unconditionally. *)
Definition handle_cxx_new_expr (node : Node) (context : Value) : Py Value :=
  value <- try_except
    (match get_children node with
     | [] => raise StopIteration
     | first :: children =>
         klass <- handle first context ;;
         match children with
         | [] => raise StopIteration
         | second :: _ =>
             call <- handle second context ;;
             arguments <- getattr_arguments call ;;
             alloc (NewObj klass arguments)
         end
     end)
    is_StopIteration
    (fun _ => raise (Exception "new requires 2 child nodes.")) ;;
  try_except (raise (Exception "new has > 2 child nodes."))
    is_StopIteration (fun _ => ret tt) ;;;
  ret (Some value).

Definition handle_compound_stmt (node : Node) (context : Value)
    : Py Value :=
  for_each (get_children node) (fun child =>
    statement <- handle child context ;;
    match statement with
    | Some st => add_statement context st
    | None => ret tt
    end) ;;;
  ret None.

Definition handle_return_stmt (node : Node) (context : Value) : Py Value :=
  retval <- alloc (ReturnObj None) ;;
  try_except
    (match get_children node with
     | [] => raise StopIteration
     | child :: _ =>
         value <- handle child context ;;
         update retval (fun o =>
           match o with
           | ReturnObj _ => ReturnObj value
           | _ => o
           end)
     end)
    any_exn (fun _ => ret tt) ;;;
  ret (Some retval).

Definition handle_decl_stmt (node : Node) (context : Value) : Py Value :=
  try_except
    (match get_children node with
     | [] => raise StopIteration
     | child :: _ => handle child context
     end)
    any_exn
    (fun e =>
       if is_StopIteration e then ret None
       else raise (Exception "Don't know how to handle multiple statements")).

Definition handle_translation_unit (node : Node) (tu : Value) : Py Value :=
  for_each (get_children node) (fun child =>
    decl <- handle child tu ;;
    match decl with
    | Some d => add_to_context d tu
    | None => ret tt
    end) ;;;
  ret None.

(** The test on the file of the node. *)
Definition in_files (node : Node) : Py bool :=
  if bool_decide (abspath py (spelling node) ∈ filenames self) then ret true
  else
    match location_file node with
    | None => raise AttributeError
    | Some file =>
        ret (negb (String.eqb file "")
             && bool_decide (abspath py file ∈ filenames self))
    end.

(** The handler of the kind of the node, called on it:
    [getattr(self, 'handle_%s' % node.kind.name.lower())], a kind without a
    method being reported and ignored. *)
Definition call_handler (node : Node) (context : Value) : Py Value :=
  match kind node with
  | CursorKind.UNEXPOSED_DECL => handle_unexposed_decl node context
  | CursorKind.STRUCT_DECL => handle_struct_decl node context
  | CursorKind.CLASS_DECL => handle_class_decl node context
  | CursorKind.ENUM_DECL => handle_enum_decl node context
  | CursorKind.FIELD_DECL => handle_field_decl node context
  | CursorKind.ENUM_CONSTANT_DECL => handle_enum_constant_decl node context
  | CursorKind.FUNCTION_DECL => handle_function_decl node context
  | CursorKind.VAR_DECL => handle_var_decl node context
  | CursorKind.PARM_DECL => handle_parm_decl node context
  | CursorKind.TYPEDEF_DECL => handle_typedef_decl node context
  | CursorKind.CXX_METHOD => handle_cxx_method node context
  | CursorKind.NAMESPACE => handle_namespace node context
  | CursorKind.CONSTRUCTOR => handle_constructor node context
  | CursorKind.DESTRUCTOR => handle_destructor node context
  | CursorKind.CXX_ACCESS_SPEC_DECL =>
      handle_cxx_access_spec_decl node context
  | CursorKind.TYPE_REF => handle_type_ref node context
  | CursorKind.CXX_BASE_SPECIFIER => handle_cxx_base_specifier node context
  | CursorKind.MEMBER_REF => handle_member_ref node context
  | CursorKind.UNEXPOSED_EXPR => handle_unexposed_expr node context
  | CursorKind.DECL_REF_EXPR => handle_decl_ref_expr node context
  | CursorKind.MEMBER_REF_EXPR => handle_member_ref_expr node context
  | CursorKind.CALL_EXPR => handle_call_expr node context
  | CursorKind.INTEGER_LITERAL => handle_integer_literal node context
  | CursorKind.FLOATING_LITERAL => handle_floating_literal node context
  | CursorKind.STRING_LITERAL => handle_string_literal node context
  | CursorKind.CHARACTER_LITERAL => handle_character_literal node context
  | CursorKind.PAREN_EXPR => handle_paren_expr node context
  | CursorKind.UNARY_OPERATOR => handle_unary_operator node context
  | CursorKind.BINARY_OPERATOR => handle_binary_operator node context
  | CursorKind.CONDITIONAL_OPERATOR =>
      handle_conditional_operator node context
  | CursorKind.CXX_FUNCTIONAL_CAST_EXPR =>
      handle_cxx_functional_cast_expr node context
  | CursorKind.CXX_THIS_EXPR => handle_cxx_this_expr node context
  | CursorKind.CXX_NEW_EXPR => handle_cxx_new_expr node context
  | CursorKind.COMPOUND_STMT => handle_compound_stmt node context
  | CursorKind.RETURN_STMT => handle_return_stmt node context
  | CursorKind.DECL_STMT => handle_decl_stmt node context
  | CursorKind.TRANSLATION_UNIT => handle_translation_unit node context
  | CursorKind.UNHANDLED name =>
      print_stderr ("Ignoring node of type CursorKind." +:+ name) ;;;
      ret None
  end.

(** [Generator.handle]. *)
Definition dispatch (node : Node) (context : Value) : Py Value :=
  known <- in_files node ;;
  if known then call_handler node context
  else
    print_stderr ("Ignoring node in file "
                  +:+ PyStr.fmt (location_file node)) ;;;
    ret None.
End Handlers.

Fixpoint handle (py : Builtins) (self : Generator) (node : Node)
    (context : Value) (s : State) {struct node} : Res Value * State :=
  dispatch py self (handle py self) node context s.

(** [Generator(name)] and [Generator.parse]; [cursor] is the root the front
    end returns for the file. *)
Definition Generator_new (name : string) : Py Generator :=
  m <- Module_new name None ;;
  ret (mkGenerator m []).

Definition Generator_parse (py : Builtins) (self : Generator)
    (filename : string) (cursor : Node) : Py Generator :=
  let self' :=
    mkGenerator (module self)
      (if bool_decide (abspath py filename ∈ filenames self)
       then filenames self
       else filenames self ++ [abspath py filename]) in
  handle py self' cursor (Some (module self')) ;;;
  ret self'.

(** ** The code writer *)

Definition nl : string := String "010"%char "".

Record CodeWriter := mkCodeWriter {
  out : string;
  line_cleared : bool;
  block_cleared : Z
}.

(** [CodeWriter(out)] on a stream that holds [content] already. *)
Definition CodeWriter_new (content : string) : CodeWriter :=
  mkCodeWriter content true 2.

Definition CodeWriter_write (content : string) (w : CodeWriter) : CodeWriter :=
  mkCodeWriter (out w +:+ content) false 0.

Definition CodeWriter_clear_line (w : CodeWriter) : CodeWriter :=
  if line_cleared w then w
  else mkCodeWriter (out w +:+ nl) true (block_cleared w).

(** The [while] loop of [clear_block]; each round brings [block_cleared]
    one closer to [blank_lines], so [blank_lines - block_cleared] rounds are
    all it can make. *)
Fixpoint clear_block_loop (rounds : nat) (blank_lines : Z) (w : CodeWriter)
    : CodeWriter :=
  match rounds with
  | O => w
  | S rounds' =>
      if (block_cleared w <? blank_lines)%Z
      then clear_block_loop rounds' blank_lines
             (mkCodeWriter (out w +:+ nl) (line_cleared w)
                (block_cleared w + 1))
      else w
  end.

Definition CodeWriter_clear_block (blank_lines : Z) (w : CodeWriter)
    : CodeWriter :=
  let w := CodeWriter_clear_line w in
  clear_block_loop (Z.to_nat (blank_lines - block_cleared w)) blank_lines w.

(** ** Emission

    The [output] methods read the finished model and write through the code
    writer; they run in the same monad, over the writer. *)

Definition Emit := M CodeWriter.

Definition write (content : string) : Emit unit :=
  modify (CodeWriter_write content).
Definition clear_line : Emit unit := modify CodeWriter_clear_line.
Definition clear_block (blank_lines : Z) : Emit unit :=
  modify (CodeWriter_clear_block blank_lines).

Definition indent (depth : nat) : string := PyStr.times "    " depth.

Definition map_m {S A B} (f : A -> M S B) : list A -> M S (list B) :=
  fix go (l : list A) : M S (list B) :=
    match l with
    | [] => ret []
    | x :: l' => y <- f x ;; ys <- go l' ;; ret (y :: ys)
    end.

Section Output.
(** The model, as the builder left it. *)
Variable h : list Obj.

Definition obj_at (r : ref) : Emit Obj :=
  match h !! r with
  | Some o => ret o
  | None => raise SystemError
  end.

(** [p.name]. *)
Definition name_at (r : ref) : Emit (option string) :=
  o <- obj_at r ;;
  match decl_of o with
  | Some d => ret (name d)
  | None => raise AttributeError
  end.

(** [', '.join(p.name for p in parameters)]: every name has to be a
    [str]. *)
Definition join_names (parameters : list ref) : Emit string :=
  names <- map_m name_at parameters ;;
  names <- map_m (fun n : option string =>
                    match n with
                    | Some s => ret s
                    | None => raise TypeError
                    end) names ;;
  ret (PyStr.join ", " names).

(** The parameter list of [Constructor.output]: the name, or [arg<i+1>]
    for a parameter without one. *)
Definition join_constructor_names (parameters : list ref) : Emit string :=
  names <- map_m name_at parameters ;;
  ret (PyStr.join ", "
         (imap (fun i n =>
                  if PyStr.truthy n then PyStr.fmt n
                  else "arg" +:+ pretty (i + 1)%nat) names)).

Definition str_of_lit (v : lit) : string :=
  match v with
  | LInt n => pretty n
  | LFloat x => x
  | LStr s => s
  end.

(** A method that takes no [depth] and is given one. *)
Definition no_depth (depth : option nat) : Emit unit :=
  match depth with
  | Some _ => raise TypeError
  | None => ret tt
  end.

(** [x.output(out)] ([depth] is [None]) and [x.output(out, depth)], by the
    class of [x].  Every call goes one level down in [fuel]; where Python
    would recurse without end the result is [RecursionError]. *)
Fixpoint output (fuel : nat) (x : Value) (depth : option nat) {struct fuel}
    : Emit unit :=
  match fuel with
  | O => raise RecursionError
  | S fuel' =>
      o <- match x with
           | None => raise AttributeError
           | Some r => obj_at r
           end ;;
      let depth_ := default 0%nat depth in
      let statement_lines := fun (statements : list ref) =>
        for_each statements (fun statement =>
          write (indent (depth_ + 1)) ;;;
          output fuel' (Some statement) None ;;;
          clear_line) in
      match o with
      | ModuleObj d _ declarations imports submodules =>
          no_depth depth ;;;
          match imports with
          | [] => ret tt
          | _ =>
              for_each (PyStr.sorted imports) (fun statement =>
                write statement ;;; clear_line) ;;;
              clear_block 2
          end ;;;
          for_each declarations (fun nd => output fuel' (Some nd.2) None) ;;;
          for_each submodules (fun nm => output fuel' (Some nm.2) None)
      | EnumerationObj d _ enumerators =>
          write (indent depth_ +:+ "class " +:+ PyStr.fmt (name d)
                 +:+ "(Enum):" +:+ nl) ;;;
          match enumerators with
          | [] => write "    pass" ;;; clear_line
          | _ =>
              for_each enumerators (fun enumerator =>
                e <- match enumerator with
                     | None => raise AttributeError
                     | Some r => obj_at r
                     end ;;
                match e with
                | EnumValueObj key value =>
                    write (indent (depth_ + 1) +:+ key +:+ " = "
                           +:+ pretty value) ;;;
                    clear_line
                | _ => raise AttributeError
                end)
          end ;;;
          clear_block 2
      | FunctionObj d _ parameters statements =>
          parameters <- join_names parameters ;;
          write (indent depth_ +:+ "def " +:+ PyStr.fmt (name d) +:+ "("
                 +:+ parameters +:+ "):" +:+ nl) ;;;
          match statements with
          | [] => write "    pass"
          | _ => statement_lines statements
          end ;;;
          clear_block 2
      | ParameterObj _ _ _ => raise AttributeError
      | VariableObj d value =>
          write (PyStr.fmt (name d) +:+ " = ") ;;;
          match value with
          | Some _ => output fuel' value None
          | None => write "None"
          end ;;;
          clear_line
      | StructObj d _ attributes =>
          write (indent depth_ +:+ "class " +:+ PyStr.fmt (name d) +:+ ":"
                 +:+ nl) ;;;
          match attributes with
          | [] => write (indent (depth_ + 1) +:+ "pass")
          | _ =>
              write (indent (depth_ + 1) +:+ "def __init__(self):") ;;;
              for_each attributes (fun nv =>
                write (indent (depth_ + 2) +:+ PyStr.fmt nv.1 +:+ " = ") ;;;
                output fuel' (Some nv.2) None)
          end ;;;
          clear_block 2
      | ClassObj d _ superclass constructor destructor _ methods =>
          (if PyStr.truthy superclass
           then write (indent depth_ +:+ "class " +:+ PyStr.fmt (name d)
                       +:+ "(" +:+ PyStr.fmt superclass +:+ "):" +:+ nl)
           else write (indent depth_ +:+ "class " +:+ PyStr.fmt (name d)
                       +:+ ":" +:+ nl)) ;;;
          match constructor, destructor, methods with
          | None, None, [] => write (indent (depth_ + 1) +:+ "pass")
          | _, _, _ =>
              match constructor with
              | Some _ => output fuel' constructor (Some (depth_ + 1)%nat)
              | None => ret tt
              end ;;;
              match destructor with
              | Some _ => output fuel' destructor (Some (depth_ + 1)%nat)
              | None => ret tt
              end ;;;
              for_each methods (fun nm =>
                output fuel' (Some nm.2) (Some (depth_ + 1)%nat))
          end ;;;
          clear_block 2
      | ConstructorObj d _ parameters statements =>
          match parameters with
          | [] => write (indent depth_ +:+ "def __init__(self):" +:+ nl)
          | _ =>
              parameters <- join_constructor_names parameters ;;
              write (indent depth_ +:+ "def __init__(self, " +:+ parameters
                     +:+ "):" +:+ nl)
          end ;;;
          (* self.parent.attributes *)
          attributes <-
            (match parent d with
             | None => raise AttributeError
             | Some p =>
                 po <- obj_at p ;;
                 match po with
                 | StructObj _ _ at_ | ClassObj _ _ _ _ _ at_ _ => ret at_
                 | _ => raise AttributeError
                 end
             end) ;;
          match attributes, statements with
          | [], (None | Some []) => write (indent (depth_ + 1) +:+ "pass")
          | _, _ =>
              for_each attributes (fun na =>
                write (indent (depth_ + 1)) ;;;
                output fuel' (Some na.2) None ;;;
                clear_line) ;;;
              match statements with
              | Some statements => statement_lines statements
              | None => raise TypeError
              end
          end ;;;
          clear_block 1
      | DestructorObj d _ _ statements =>
          write (indent depth_ +:+ "def __del__(self):" +:+ nl) ;;;
          match statements with
          | Some (st :: sts) => statement_lines (st :: sts)
          | _ => write (indent (depth_ + 1) +:+ "pass")
          end ;;;
          clear_block 1
      | MethodObj d _ parameters statements pure_virtual =>
          match parameters with
          | [] => write (indent depth_ +:+ "def " +:+ PyStr.fmt (name d)
                         +:+ "(self):" +:+ nl)
          | _ =>
              parameters <- join_names parameters ;;
              write (indent depth_ +:+ "def " +:+ PyStr.fmt (name d)
                     +:+ "(self, " +:+ parameters +:+ "):" +:+ nl)
          end ;;;
          match statements with
          | Some (st :: sts) => statement_lines (st :: sts)
          | _ =>
              if pure_virtual
              then write (indent (depth_ + 1)
                          +:+ "raise NotImplementedError()")
              else write (indent (depth_ + 1) +:+ "pass")
          end ;;;
          clear_block 1
      | AttributeObj d value =>
          no_depth depth ;;;
          write ("self." +:+ PyStr.fmt (name d) +:+ " = ") ;;;
          match value with
          | Some _ => output fuel' value None
          | None => write "None"
          end ;;;
          clear_line
      | ReturnObj value =>
          write "return" ;;;
          match value with
          | Some _ => write " " ;;; output fuel' value None ;;; clear_line
          | None => ret tt
          end
      | ReferenceObj name =>
          no_depth depth ;;; write name
      | SelfReferenceObj =>
          no_depth depth ;;; write "self"
      | AttributeReferenceObj instance attr =>
          no_depth depth ;;;
          output fuel' instance None ;;;
          write ("." +:+ attr)
      | LiteralObj value =>
          no_depth depth ;;; write (str_of_lit value)
      | UnaryOperationObj _ _ =>
          (* self.lvalue: the builder sets op and value only *)
          no_depth depth ;;; raise AttributeError
      | BinaryOperationObj lvalue op rvalue =>
          no_depth depth ;;;
          match lvalue with
          | Some l => output fuel' l None
          | None => raise AttributeError
          end ;;;
          match op with
          | Some op => write (" " +:+ op +:+ " ")
          | None => raise AttributeError
          end ;;;
          match rvalue with
          | Some r => output fuel' r None
          | None => raise AttributeError
          end
      | ConditionalOperationObj _ true_result condition false_result =>
          no_depth depth ;;;
          write "(" ;;;
          match true_result with
          | Some v => output fuel' v None
          | None => raise AttributeError
          end ;;;
          write " if " ;;;
          match condition with
          | Some v => output fuel' v None
          | None => raise AttributeError
          end ;;;
          write " else " ;;;
          match false_result with
          | Some v => output fuel' v None
          | None => raise AttributeError
          end ;;;
          write ")"
      | FunctionCallObj fn arguments =>
          no_depth depth ;;;
          output fuel' fn None ;;;
          write "(" ;;;
          match arguments with
          | [] => ret tt
          | first :: rest =>
              output fuel' first None ;;;
              for_each rest (fun arg =>
                write ", " ;;; output fuel' arg None)
          end ;;;
          write ")"
      | NewObj _ _ =>
          (* self.name: New keeps klass and arguments *)
          no_depth depth ;;; raise AttributeError
      | EnumValueObj _ _ => raise AttributeError
      end
  end.
End Output.

(** [Generator.output(out)] on the model in store [h]: no chain of calls
    through distinct objects is longer than the store. *)
Definition Generator_output (self : Generator) (h : list Obj)
    (content : string) : Res unit * CodeWriter :=
  output h (S (length h)) (Some (module self)) None (CodeWriter_new content).

(** ** What the handlers leave in place

    The class of an object never changes, and a handler changes the fields
    of two kinds of object only: a [Context] (its symbol table, members and
    statements), and an object the handler has made itself.  [grows n0]
    relates the store before and after on these terms, [n0] being the size
    of the store when the handler started. *)

Inductive cls :=
| CModule | CEnumeration | CFunction | CParameter | CVariable | CStruct
| CClass | CConstructor | CDestructor | CMethod | CAttribute | CReturn
| CReference | CSelfReference | CAttributeReference | CLiteral
| CUnaryOperation | CBinaryOperation | CConditionalOperation | CFunctionCall
| CNew | CEnumValue.

Definition class_of (o : Obj) : cls :=
  match o with
  | ModuleObj _ _ _ _ _ => CModule
  | EnumerationObj _ _ _ => CEnumeration
  | FunctionObj _ _ _ _ => CFunction
  | ParameterObj _ _ _ => CParameter
  | VariableObj _ _ => CVariable
  | StructObj _ _ _ => CStruct
  | ClassObj _ _ _ _ _ _ _ => CClass
  | ConstructorObj _ _ _ _ => CConstructor
  | DestructorObj _ _ _ _ => CDestructor
  | MethodObj _ _ _ _ _ => CMethod
  | AttributeObj _ _ => CAttribute
  | ReturnObj _ => CReturn
  | ReferenceObj _ => CReference
  | SelfReferenceObj => CSelfReference
  | AttributeReferenceObj _ _ => CAttributeReference
  | LiteralObj _ => CLiteral
  | UnaryOperationObj _ _ => CUnaryOperation
  | BinaryOperationObj _ _ _ => CBinaryOperation
  | ConditionalOperationObj _ _ _ _ => CConditionalOperation
  | FunctionCallObj _ _ => CFunctionCall
  | NewObj _ _ => CNew
  | EnumValueObj _ _ => CEnumValue
  end.

(** The classes derived from [Context]. *)
Definition is_context (o : Obj) : bool :=
  match names_of o with
  | Some _ => true
  | None => false
  end.

(** No symbol table names a module: every entry of every table refers to
    an object of the store that is not a [Module]. *)
Definition names_ok (h : list Obj) : Prop :=
  ∀ r o ns k v,
    h !! r = Some o → names_of o = Some ns → (k, v) ∈ ns →
    ∃ o', h !! v = Some o' ∧ class_of o' ≠ CModule.

Record grows (n0 : nat) (s s' : State) : Prop := mkGrows {
  grows_length : length (heap s) ≤ length (heap s');
  grows_class : ∀ r o,
    heap s !! r = Some o →
    ∃ o', heap s' !! r = Some o' ∧ class_of o' = class_of o;
  grows_frame : ∀ r o,
    r < n0 → heap s !! r = Some o → is_context o = false →
    heap s' !! r = Some o;
  grows_names : names_ok (heap s) → names_ok (heap s')
}.

Definition keeps (n0 : nat) {A} (m : Py A) : Prop :=
  ∀ s r s', n0 ≤ length (heap s) → m s = (r, s') → grows n0 s s'.

(** [keeps] for a computation that runs while the object at [r] is known to
    be [o]. *)
Definition keeps_at (n0 : nat) (r : ref) (o : Obj) {A} (m : Py A) : Prop :=
  ∀ s res s',
    n0 ≤ length (heap s) → heap s !! r = Some o → m s = (res, s') →
    grows n0 s s'.

(** A computation that reads the state and leaves all of it as it is. *)
Definition reads {A} (m : Py A) : Prop := ∀ s, (m s).2 = s.

(** The state [s] with the object at [r] replaced by [o]. *)
Definition with_obj (r : ref) (o : Obj) (s : State) : State :=
  set_heap (<[r := o]> (heap s)) s.

(** ** Sample inputs

    A front end and a source file for the examples: paths are absolute
    already, [int] reads decimal digits, and no example has a float. *)

Module Sample.
Fixpoint digits (s : string) (acc : Z) : option Z :=
  match s with
  | "" => Some acc
  | String a s' =>
      let n := nat_of_ascii a in
      if ((48 <=? n)%nat && (n <=? 57)%nat)%bool
      then digits s' (10 * acc + Z.of_nat (n - 48))%Z
      else None
  end.

Definition py : Builtins :=
  mkBuiltins (λ path, path)
    (λ s, match s with "" => None | _ => digits s 0 end)
    (λ _, None).

Definition file : string := "/src/foo.cpp".

(** A node of the file, of the given kind, spelling, tokens and
    children. *)
Definition node (kind : CursorKind.t) (spelling : string)
    (tokens : list string) (children : list Node) : Node :=
  mkNode kind spelling (Some file) TypeKind.OTHER TypeKind.OTHER false 0
    tokens children.

(** The generator after [Generator("foo")] and with the file registered:
    its module is object 0 of the store. *)
Definition self : Generator := mkGenerator 0 [file].
Definition s0 : State :=
  mkState [ModuleObj (mkDecl None (Some "foo")) [] [] [] []] [] [].

(** [a + b]; the tokens of the left operand run up to the operator. *)
Definition a_plus_b : Node :=
  node CursorKind.BINARY_OPERATOR "" ["a"; "+"; "b"]
    [node CursorKind.DECL_REF_EXPR "a" ["a"; "+"] [];
     node CursorKind.DECL_REF_EXPR "b" ["b"] []].

(** A binary operator that lost its right operand. *)
Definition a_plus : Node :=
  node CursorKind.BINARY_OPERATOR "" ["a"; "+"]
    [node CursorKind.DECL_REF_EXPR "a" ["a"; "+"] []].
End Sample.

(** ** Scope chains

    The enclosing contexts of the context [r], innermost first, each with
    its symbol table, up to the root (the context without a parent). *)
Inductive scope_chain (h : list Obj)
    : ref → list (ref * list (string * ref)) → Prop :=
| scope_root r o d ns :
    h !! r = Some o → names_of o = Some ns → decl_of o = Some d →
    parent d = None →
    scope_chain h r [(r, ns)]
| scope_inner r o d ns p chain :
    h !! r = Some o → names_of o = Some ns → decl_of o = Some d →
    parent d = Some p →
    scope_chain h p chain →
    scope_chain h r ((r, ns) :: chain).

(** Lookup as the specification words it: the local table first, then
    outward through the enclosing tables; [None] when the root is passed
    without a match. *)
Fixpoint lookup_chain (name : string) (tables : list (list (string * ref)))
    : option ref :=
  match tables with
  | [] => None
  | ns :: outer =>
      match OrderedDict.getitem name ns with
      | Some v => Some v
      | None => lookup_chain name outer
      end
  end.

Module Sample2.
(** A module (0) that names the class [Foo] (1), whose constructor (2)
    has the parameter [x] (3). *)
Definition h : list Obj :=
  [ModuleObj (mkDecl None (Some "foo")) [("Foo", 1)] [(Some "Foo", 1)] [] [];
   ClassObj (mkDecl (Some 0) (Some "Foo")) [] None (Some 2) None [] [];
   ConstructorObj (mkDecl (Some 1) None) [("x", 3)] [3] None;
   ParameterObj (mkDecl (Some 2) (Some "x")) None None].
Definition s : State := mkState h [] [].
Definition chain : list (ref * list (string * ref)) :=
  [(2, [("x", 3)]); (1, []); (0, [("Foo", 1)])].
End Sample2.

Module Sample3.
(** [int x;]: a variable declaration without an initializer. *)
Definition var_x : Node := Sample.node CursorKind.VAR_DECL "x" ["int"; "x"] [].

(** A store whose object 1 is a variable [x] of module 0 without a
    value. *)
Definition h : list Obj :=
  [ModuleObj (mkDecl None (Some "foo")) [("x", 1)] [(Some "x", 1)] [] [];
   VariableObj (mkDecl (Some 0) (Some "x")) None].
End Sample3.

Module Sample4.
(** [c ? a : b], with the children in the order the handler reads them. *)
Definition ternary : Node :=
  Sample.node CursorKind.CONDITIONAL_OPERATOR "" ["a"; "if"; "c"]
    [Sample.node CursorKind.DECL_REF_EXPR "a" ["a"] [];
     Sample.node CursorKind.DECL_REF_EXPR "c" ["c"] [];
     Sample.node CursorKind.DECL_REF_EXPR "b" ["b"] []].

(** [this->size] as a member reference and as a member reference
    expression: one child, the instance. *)
Definition this_size (kind : CursorKind.t) : Node :=
  Sample.node kind "size" ["this"; "->"; "size"]
    [Sample.node CursorKind.CXX_THIS_EXPR "" ["this"] []].
End Sample4.

(** ** What emission writes

    [appends m]: whatever [m] does, the text of the writer afterwards is the
    text before and something after it.  [writes m text]: [m] is one or
    more plain writes of [text] in all. *)
Definition appends {A} (m : Emit A) : Prop :=
  ∀ w r w', m w = (r, w') → ∃ text, out w' = out w +:+ text.

Definition writes (m : Emit unit) (text : string) : Prop :=
  ∀ w, m w = (Ok tt, CodeWriter_write text w).

(** The text of the lines, each at the given depth and with its line
    end. *)
Definition lines_text (depth : nat) (lines : list string) : string :=
  foldr (λ line rest, indent depth +:+ line +:+ nl +:+ rest) "" lines.

(** [line] is the line of the attribute object [a]: [self.<name> = ] and
    then [None] for an absent value or the text the value writes. *)
Definition attribute_line (h : list Obj) (fuel : nat) (a : ref)
    (line : string) : Prop :=
  ∃ d value text,
    h !! a = Some (AttributeObj d value) ∧
    match value with
    | None => text = "None"
    | Some _ => writes (output h fuel value None) text
    end ∧
    line = "self." +:+ PyStr.fmt (name d) +:+ " = " +:+ text.

(** [names] are the names of the parameter objects. *)
Definition parameter_names (h : list Obj) (parameters : list ref)
    (names : list (option string)) : Prop :=
  Forall2 (λ p n, ∃ o d, h !! p = Some o ∧ decl_of o = Some d ∧ name d = n)
    parameters names.

(** The first line of [Constructor.output]. *)
Definition init_header (depth : nat) (names : list (option string)) : string :=
  match names with
  | [] => indent depth +:+ "def __init__(self):" +:+ nl
  | _ =>
      indent depth +:+ "def __init__(self, "
      +:+ PyStr.join ", "
            (imap (λ i n, if PyStr.truthy n then PyStr.fmt n
                          else "arg" +:+ pretty (i + 1)%nat) names)
      +:+ "):" +:+ nl
  end.

Module Sample9.
(** A class [Foo] (1) with the attributes [a = 1] and [b = None], and a
    constructor (6) with the parameter [x] and the body
    [self.a = x; return]. *)
Definition h : list Obj :=
  [ModuleObj (mkDecl None (Some "foo")) [("Foo", 1)] [(Some "Foo", 1)] [] [];
   ClassObj (mkDecl (Some 0) (Some "Foo")) [("a", 3); ("b", 5)] None (Some 6)
     None [(Some "a", 3); (Some "b", 5)] [];
   LiteralObj (LInt 1);
   AttributeObj (mkDecl (Some 1) (Some "a")) (Some 2);
   ReferenceObj "unused";
   AttributeObj (mkDecl (Some 1) (Some "b")) None;
   ConstructorObj (mkDecl (Some 1) None) [("x", 7)] [7] (Some [8; 12]);
   ParameterObj (mkDecl (Some 6) (Some "x")) None None;
   BinaryOperationObj (Some (Some 10)) (Some "=") (Some (Some 11));
   SelfReferenceObj;
   AttributeReferenceObj (Some 9) "a";
   ReferenceObj "x";
   ReturnObj None].
End Sample9.

(** ** The two phases of a translation *)

(** Modelled from the spec: the driver that calls the generator is not in
    [generator.py].  A translation builds the model of the translation unit
    ([Generator(name)], then [parse]) and, when that has returned, emits it
    ([output]) to a stream that starts empty; an exception of the first
    phase ends the translation before anything is written. *)
Definition translate (py : Builtins) (name filename : string) (cursor : Node)
    : Res unit * string :=
  match (self <- Generator_new name ;;
         Generator_parse py self filename cursor) (mkState [] [] []) with
  | (Ok self, s) =>
      let (r, w) := Generator_output self (heap s) "" in (r, out w)
  | (Raise e, _) => (Raise e, "")
  end.

Module Sample2b.
(** A node of the file [file]. *)
Definition node (file : string) (kind : CursorKind.t) (spelling : string)
    (children : list Node) : Node :=
  mkNode kind spelling (Some file) TypeKind.OTHER TypeKind.OTHER false 0 []
    children.

(** The translation unit of
    [class <cname> { <cname>() { return; } <cname>(); };]:
    a constructor with a body, and a second constructor. *)
Definition two_constructors (file cname : string) : Node :=
  mkNode CursorKind.TRANSLATION_UNIT file None TypeKind.OTHER TypeKind.OTHER
    false 0 []
    [node file CursorKind.CLASS_DECL cname
       [node file CursorKind.CONSTRUCTOR cname
          [node file CursorKind.COMPOUND_STMT ""
             [node file CursorKind.RETURN_STMT "" []]];
        node file CursorKind.CONSTRUCTOR cname []]].

(** A class (1) whose constructor (2) has a body, a class (4) whose
    constructor (5) has none, and a new constructor (6) for either. *)
Definition h : list Obj :=
  [ModuleObj (mkDecl None (Some "foo")) [("A", 1); ("B", 4)] [] [] [];
   ClassObj (mkDecl (Some 0) (Some "A")) [] None (Some 2) None [] [];
   ConstructorObj (mkDecl (Some 1) None) [] [] (Some [3]);
   ReturnObj None;
   ClassObj (mkDecl (Some 0) (Some "B")) [] None (Some 5) None [] [];
   ConstructorObj (mkDecl (Some 4) None) [] [] None;
   ConstructorObj (mkDecl (Some 4) None) [] [] None].
Definition s : State := mkState h [] [].
End Sample2b.

(** ** Registration in the symbol table of the parent *)

(** In state [s], the symbol table of the context [p] has [r] under
    [name]. *)
Definition registered (s : State) (p : ref) (name : string) (r : ref)
    : Prop :=
  ∃ po ns,
    heap s !! p = Some po ∧ names_of po = Some ns ∧
    OrderedDict.getitem name ns = Some r.

(** [m] returns a new object and registers it under [name] in [p]. *)
Definition registers (m : Py nat) (s : State) (p : ref) (name : string)
    : Prop :=
  ∃ s', m s = (Ok (length (heap s)), s') ∧
        registered s' p name (length (heap s)).

Module Sample10.
(** The translation unit of [class Foo {};]. *)
Definition tu : Node :=
  mkNode CursorKind.TRANSLATION_UNIT Sample.file None TypeKind.OTHER
    TypeKind.OTHER false 0 []
    [Sample.node CursorKind.CLASS_DECL "Foo" ["class"; "Foo"] []].
End Sample10.

(** ** Expressions and return statements

    The nodes whose handlers make expression and statement objects and
    touch nothing else: they never read their context.  A kind without a
    handler, and a kind whose handler does nothing or fails at once, counts;
    behind such a node the children are never visited. *)
Fixpoint plain (node : Node) : bool :=
  match node with
  | mkNode kind _ _ _ _ _ _ _ children =>
      match kind with
      | CursorKind.DECL_REF_EXPR | CursorKind.CXX_THIS_EXPR
      | CursorKind.INTEGER_LITERAL | CursorKind.FLOATING_LITERAL
      | CursorKind.STRING_LITERAL | CursorKind.CHARACTER_LITERAL
      | CursorKind.TYPE_REF | CursorKind.PAREN_EXPR
      | CursorKind.UNEXPOSED_DECL | CursorKind.TYPEDEF_DECL
      | CursorKind.CXX_ACCESS_SPEC_DECL | CursorKind.UNHANDLED _ => true
      | CursorKind.MEMBER_REF_EXPR | CursorKind.MEMBER_REF
      | CursorKind.UNEXPOSED_EXPR | CursorKind.CALL_EXPR
      | CursorKind.UNARY_OPERATOR | CursorKind.BINARY_OPERATOR
      | CursorKind.CONDITIONAL_OPERATOR
      | CursorKind.CXX_FUNCTIONAL_CAST_EXPR | CursorKind.CXX_NEW_EXPR
      | CursorKind.RETURN_STMT => forallb plain children
      | _ => false
      end
  end.

(** From [s] to [s'] objects were made and nothing else happened to the
    objects below [n0]: the store has grown, it is the same below [n0],
    between [n0] and the old size the classes are the same, and the objects
    past the old size are no declarations. *)
Record allocated (n0 : nat) (s s' : State) : Prop := mkAllocated {
  allocated_length : length (heap s) ≤ length (heap s');
  allocated_below : ∀ i, i < n0 → heap s' !! i = heap s !! i;
  allocated_class : ∀ i o,
    heap s !! i = Some o →
    ∃ o', heap s' !! i = Some o' ∧ class_of o' = class_of o;
  allocated_new : ∀ i o,
    length (heap s) ≤ i → heap s' !! i = Some o → decl_of o = None
}.

Definition allocates (n0 : nat) {A} (m : Py A) : Prop :=
  ∀ s r s', n0 ≤ length (heap s) → m s = (r, s') → allocated n0 s s'.

(** ** A constructor declared in its class and defined outside it *)

(** A node of the file [file]. *)
Definition located (file : string) (kind : CursorKind.t) (spelling : string)
    (children : list Node) : Node :=
  mkNode kind spelling (Some file) TypeKind.OTHER TypeKind.OTHER false 0 []
    children.

Definition parameters (file : string) (params : list string) : list Node :=
  map (λ p, located file CursorKind.PARM_DECL p []) params.

(** [class <cname> { <cname>(<params>); };] *)
Definition class_with_prototype (file cname : string) (params : list string)
    : Node :=
  located file CursorKind.CLASS_DECL cname
    [located file CursorKind.CONSTRUCTOR cname (parameters file params)].

(** [<cname>::<cname>(<params>) { <body> }]: the reference to the class comes
    first, then the parameters, then the body. *)
Definition constructor_definition (file cname : string)
    (params : list string) (body : list Node) : Node :=
  located file CursorKind.CONSTRUCTOR cname
    (located file CursorKind.TYPE_REF ("class " +:+ cname) []
     :: parameters file params
     ++ [located file CursorKind.COMPOUND_STMT "" body]).

(** A name: not empty, and no white space in it. *)
Fixpoint no_space (s : string) : bool :=
  match s with
  | "" => true
  | String a s' => negb (PyStr.isspace a) && no_space s'
  end.
Definition identifier (name : string) : bool :=
  negb (String.eqb name "") && no_space name.

(** What [Declaration.__init__] does to the symbol table of the parent, for
    one declaration and for declarations at consecutive references. *)
Definition declare (name : string) (r : ref) (ns : list (string * ref))
    : list (string * ref) :=
  if PyStr.truthy (Some name) then OrderedDict.setitem name r ns else ns.
Fixpoint declare_all (names : list string) (r : ref)
    (ns : list (string * ref)) : list (string * ref) :=
  match names with
  | [] => ns
  | name :: names' => declare_all names' (S r) (declare name r ns)
  end.

(** The objects of the parameters [params] of [function]. *)
Definition Parameter_objects (function : ref) (params : list string)
    : list Obj :=
  map (λ p, ParameterObj (mkDecl (Some function) (Some p)) None None) params.

(** One round of the loop of [handle_constructor]. *)
Definition constructor_round (py : Builtins) (self : Generator)
    (context : Value) (is_prototype : bool) (constructor : Value)
    (child : Node) : Py Value :=
  (decl <- handle py self child constructor ;;
   match constructor with
   | None =>
       name <- getattr_ref decl ;;
       klass <- getitem context name ;;
       getattr_constructor klass
   | Some _ =>
       match decl with
       | Some d =>
           if is_prototype
              || negb (CursorKind.is_parm_decl (kind child))
           then add_to_context d constructor ;;; ret constructor
           else ret constructor
       | None => ret constructor
       end
   end)%py.

(** Every constructor of [s'] is a constructor of [s]: none was made. *)
Definition no_new_constructor (s s' : State) : Prop :=
  ∀ i o, heap s' !! i = Some o → class_of o = CConstructor →
    ∃ o0, heap s !! i = Some o0 ∧ class_of o0 = CConstructor.

(** ** Nodes that are passed over *)

(** The test of [Generator.handle] on a node that has a file: the spelling
    or the file of the location is a file of the generator. *)
Definition known (py : Builtins) (self : Generator) (node : Node) : bool :=
  bool_decide (abspath py (spelling node) ∈ filenames self)
  || match location_file node with
     | Some file =>
         negb (String.eqb file "")
         && bool_decide (abspath py file ∈ filenames self)
     | None => false
     end.

(** A node of another file: it has a file, and the test fails. *)
Definition foreign (py : Builtins) (self : Generator) (node : Node) : bool :=
  negb (known py self node)
  && match location_file node with Some _ => true | None => false end.

(** A node of a file of the generator whose kind has no handler. *)
Definition unhandled (py : Builtins) (self : Generator) (node : Node)
    : bool :=
  known py self node
  && match kind node with CursorKind.UNHANDLED _ => true | _ => false end.

(** A node without a file whose spelling is no file of the generator. *)
Definition unlocated (py : Builtins) (self : Generator) (node : Node)
    : bool :=
  negb (bool_decide (abspath py (spelling node) ∈ filenames self))
  && match location_file node with Some _ => false | None => true end.

(** The root the front end returns for [filename]. *)
Definition translation_unit (filename : string) (children : list Node)
    : Node :=
  mkNode CursorKind.TRANSLATION_UNIT filename None TypeKind.OTHER
    TypeKind.OTHER false 0 [] children.

(** The state with [n] more messages on the error stream, and all else the
    same. *)
Definition reported (n : nat) (s s' : State) : Prop :=
  heap s' = heap s ∧ stdout s' = stdout s ∧
  length (stderr s') = length (stderr s) + n.

(** A word of [split(' ')]: no space in it (it may be empty). *)
Fixpoint no_blank (s : string) : bool :=
  match s with
  | "" => true
  | String a s' => negb (Ascii.eqb a " "%char) && no_blank s'
  end.

(** ** Enumerations *)

(** The node of the enumerator [key] with the value [value], and of
    [enum <name> { <constants> };], in the file [file]. *)
Definition enum_constant (file : string) (kv : string * Z) : Node :=
  mkNode CursorKind.ENUM_CONSTANT_DECL kv.1 (Some file) TypeKind.OTHER
    TypeKind.OTHER false kv.2 [] [].

Definition enum_decl (file name : string) (constants : list (string * Z))
    : Node :=
  located file CursorKind.ENUM_DECL name (map (enum_constant file) constants).

Definition EnumValue_objects (constants : list (string * Z)) : list Obj :=
  map (λ kv, EnumValueObj kv.1 kv.2) constants.

(** The lines of the enumerators, one level deep. *)
Definition enumerator_lines (depth : nat) (constants : list (string * Z))
    : string :=
  lines_text depth (map (λ kv, kv.1 +:+ " = " +:+ pretty kv.2) constants).

(** The objects at [rs] are the enumerators [constants]. *)
Definition enumerators_at (h : list Obj) (rs : list ref)
    (constants : list (string * Z)) : Prop :=
  Forall2 (λ r kv, h !! r = Some (EnumValueObj kv.1 kv.2)) rs constants.

(** What [Enumeration.output] writes for the name [name] at depth [depth]:
    the head, the lines of the enumerators (or [pass], at a fixed depth),
    and two blank lines. *)
Definition enumeration_text (depth : nat) (name : option string)
    (constants : list (string * Z)) : string :=
  indent depth +:+ "class " +:+ PyStr.fmt name +:+ "(Enum):" +:+ nl
  +:+ match constants with
      | [] => "    pass" +:+ nl
      | _ => enumerator_lines (depth + 1) constants
      end
  +:+ nl +:+ nl.

(** The expression [e] of the file [file] under [n] unexposed
    expressions, as the front end wraps an expression in casts it does not
    expose. *)
Definition unexposed (file : string) (n : nat) (e : Node) : Node :=
  Nat.iter n (λ x, located file CursorKind.UNEXPOSED_EXPR "" [x]) e.

(** ** Members that give no object *)

(** A member of a class that is handled to nothing: a field without an
    initializer, an access specifier, a type definition, an unexposed
    declaration. *)
Definition silent (node : Node) : bool :=
  match kind node with
  | CursorKind.FIELD_DECL =>
      match get_children node with [] => true | _ => false end
  | CursorKind.CXX_ACCESS_SPEC_DECL | CursorKind.TYPEDEF_DECL
  | CursorKind.UNEXPOSED_DECL => true
  | _ => false
  end.

(** ** Functions *)

(** [<name>(<params>)], with an empty body or without one. *)
Definition function_decl (file name : string) (params : list string)
    (body : bool) : Node :=
  located file CursorKind.FUNCTION_DECL name
    (parameters file params
     ++ if body then [located file CursorKind.COMPOUND_STMT "" []] else []).

(** What [Function.output] writes for a function without statements. *)
Definition empty_function_text (name : string) (params : list string)
    : string :=
  "def " +:+ name +:+ "(" +:+ PyStr.join ", " params +:+ "):" +:+ nl
  +:+ "    pass" +:+ nl +:+ nl +:+ nl.

(** ** Calls *)

(** A reference to the name [name], and the call [<f>(<args>)] of a name
    on names, in the file [file]. *)
Definition name_ref (file name : string) : Node :=
  located file CursorKind.DECL_REF_EXPR name [].

Definition call_expr (file f : string) (args : list string) : Node :=
  located file CursorKind.CALL_EXPR ""
    (name_ref file f :: map (name_ref file) args).

(** ** Methods *)

(** [class <cname> { <mname>(<params>); };], the method pure virtual or
    not. *)
Definition method_decl (file name : string) (params : list string)
    (pure_virtual : bool) : Node :=
  mkNode CursorKind.CXX_METHOD name (Some file) TypeKind.OTHER TypeKind.OTHER
    pure_virtual 0 [] (parameters file params).

Definition class_with_method (file cname mname : string)
    (params : list string) (pure_virtual : bool) : Node :=
  located file CursorKind.CLASS_DECL cname
    [method_decl file mname params pure_virtual].

(** What [Class.output] writes for a class with one method that has no
    statement. *)
Definition class_with_method_text (cname mname : string)
    (params : list string) (pure_virtual : bool) : string :=
  "class " +:+ cname +:+ ":" +:+ nl
  +:+ "    def " +:+ mname
  +:+ match params with
      | [] => "(self):"
      | _ => "(self, " +:+ PyStr.join ", " params +:+ "):"
      end +:+ nl
  +:+ "        "
  +:+ (if pure_virtual then "raise NotImplementedError()" else "pass")
  +:+ nl +:+ nl +:+ nl.

(** * Properties *)

(** ** Strings *)

Lemma append_cons (a : ascii) (s t : string) :
  String a s +:+ t = String a (s +:+ t).
Proof. reflexivity. Qed.

Lemma append_nil_l (s : string) : "" +:+ s = s.
Proof. reflexivity. Qed.

Lemma append_nil_r (s : string) : s +:+ "" = s.
Proof.
  induction s as [|a s IH]; [reflexivity|]. by rewrite append_cons, IH.
Qed.

Lemma append_assoc (s t u : string) : (s +:+ t) +:+ u = s +:+ t +:+ u.
Proof.
  induction s as [|a s IH]; [reflexivity|]. by rewrite !append_cons, IH.
Qed.

(** ** The code writer *)

Section CodeWriterFacts.
Implicit Types (w : CodeWriter) (n : Z).

(** What the loop of [clear_block] does with enough rounds: it writes the
    missing line ends and leaves the counter at the target, or leaves the
    writer alone when the counter is there already. *)
Lemma clear_block_loop_spec rounds n w :
  (n - block_cleared w <= Z.of_nat rounds)%Z →
  clear_block_loop rounds n w =
    mkCodeWriter
      (out w +:+ PyStr.times nl (Z.to_nat (n - block_cleared w)))
      (line_cleared w)
      (Z.max (block_cleared w) n).
Proof.
  revert w. induction rounds as [|rounds IH]; intros [o l b] Hle; cbn in *.
  - replace (Z.to_nat (n - b)) with 0%nat by lia.
    cbn. rewrite append_nil_r. f_equal. lia.
  - destruct (Z.ltb_spec b n) as [Hlt|Hge].
    + rewrite IH by (cbn; lia). cbn. f_equal; [|lia].
      replace (Z.to_nat (n - b)) with (S (Z.to_nat (n - (b + 1)))) by lia.
      cbn [PyStr.times]. by rewrite append_assoc.
    + replace (Z.to_nat (n - b)) with 0%nat by lia.
      cbn. rewrite append_nil_r. f_equal. lia.
Qed.

Lemma clear_block_spec n w :
  CodeWriter_clear_block n w =
    let w' := CodeWriter_clear_line w in
    mkCodeWriter
      (out w' +:+ PyStr.times nl (Z.to_nat (n - block_cleared w')))
      true
      (Z.max (block_cleared w') n).
Proof.
  unfold CodeWriter_clear_block. rewrite clear_block_loop_spec by lia.
  cbn. f_equal. by destruct w as [o [] b].
Qed.

(** When the loop stops, its condition is false: the rounds it is given
    are enough. *)
Lemma clear_block_done n w :
  (block_cleared (CodeWriter_clear_block n w) <? n)%Z = false.
Proof. rewrite clear_block_spec. cbn. lia. Qed.

Lemma clear_block_idempotent n w :
  CodeWriter_clear_block n (CodeWriter_clear_block n w) =
  CodeWriter_clear_block n w.
Proof.
  rewrite (clear_block_spec n (CodeWriter_clear_block n w)).
  rewrite clear_block_spec. cbn.
  set (w' := CodeWriter_clear_line w).
  replace (Z.to_nat (n - Z.max (block_cleared w') n)) with 0%nat by lia.
  cbn. rewrite append_nil_r. f_equal. lia.
Qed.

Lemma clear_block_iter k n w :
  (1 <= k)%nat →
  Nat.iter k (CodeWriter_clear_block n) w = CodeWriter_clear_block n w.
Proof.
  intros Hk. destruct k as [|k]; [lia|]. clear Hk.
  induction k as [|k IH]; [reflexivity|].
  change (Nat.iter (S (S k)) (CodeWriter_clear_block n) w)
    with (CodeWriter_clear_block n
            (Nat.iter (S k) (CodeWriter_clear_block n) w)).
  by rewrite IH, clear_block_idempotent.
Qed.
End CodeWriterFacts.

(** C6.  After a write of any content, any number [k >= 1] of consecutive
    [clear_block(n)] calls leaves the writer as a single call does: the
    text written so far, the end of the current line, and then exactly [n]
    more line ends (none for a negative [n]) - the blank lines; the counter
    stands at the target.  The call is idempotent on every writer state, so
    repeating it adds nothing. *)
Theorem C6_clear_block_idempotent :
  (∀ (n : Z) (w : CodeWriter),
     CodeWriter_clear_block n (CodeWriter_clear_block n w) =
     CodeWriter_clear_block n w) ∧
  (∀ (content : string) (w : CodeWriter) (n : Z) (k : nat),
     (1 <= k)%nat →
     Nat.iter k (CodeWriter_clear_block n) (CodeWriter_write content w) =
       mkCodeWriter
         ((out w +:+ content) +:+ nl +:+ PyStr.times nl (Z.to_nat n))
         true (Z.max 0 n)).
Proof.
  split; [apply clear_block_idempotent|].
  intros content w n k Hk. rewrite clear_block_iter by done.
  rewrite clear_block_spec. cbn.
  rewrite Z.sub_0_r. by rewrite append_assoc.
Qed.

Lemma C6_clear_block_idempotent_witness :
  Nat.iter 3 (CodeWriter_clear_block 2)
    (CodeWriter_write "x = 1" (CodeWriter_new "")) =
  mkCodeWriter ("x = 1" +:+ nl +:+ nl +:+ nl) true 2.
Proof.
  exact (proj2 C6_clear_block_idempotent "x = 1" (CodeWriter_new "") 2%Z 3%nat
           (le_S _ _ (le_S _ _ (le_n 1)))).
Defined.

(** ** The store under the handlers *)

Lemma setitem_elem {K V} `{EqDecision K} (k k' : K) (v v' : V) d :
  (k', v') ∈ OrderedDict.setitem k v d → (k', v') ∈ d ∨ v' = v.
Proof.
  induction d as [|[k0 v0] d IH]; cbn.
  - intros Hin. apply list_elem_of_singleton in Hin. simplify_eq. by right.
  - destruct (decide (k = k0)) as [->|Hne]; intros Hin;
      apply elem_of_cons in Hin as [Heq|Hin].
    + simplify_eq. by right.
    + left. apply elem_of_cons. by right.
    + left. simplify_eq. apply elem_of_cons. by left.
    + destruct (IH Hin) as [?|?]; [left|by right].
      apply elem_of_cons. by right.
Qed.

Lemma is_context_class o o' :
  class_of o' = class_of o → is_context o' = is_context o.
Proof. by destruct o, o'. Qed.

Lemma names_of_set_names ns o :
  is_context o = true → names_of (set_names ns o) = Some ns.
Proof. by destruct o. Qed.

Lemma class_of_set_names ns o : class_of (set_names ns o) = class_of o.
Proof. by destruct o. Qed.

Section Grows.
Context (n0 : nat).
Implicit Types (s : State) (h : list Obj).

Lemma grows_same_heap s s' : heap s' = heap s → grows n0 s s'.
Proof.
  intros E. split; rewrite E; [done|by eauto|done|done].
Qed.

Lemma grows_refl s : grows n0 s s.
Proof. by apply grows_same_heap. Qed.

Lemma grows_trans s1 s2 s3 : grows n0 s1 s2 → grows n0 s2 s3 → grows n0 s1 s3.
Proof.
  intros [L1 C1 F1 N1] [L2 C2 F2 N2]. split.
  - lia.
  - intros r o Hr. destruct (C1 r o Hr) as (o1 & Hr1 & E1).
    destruct (C2 r o1 Hr1) as (o2 & Hr2 & E2). exists o2. split; [done|congruence].
  - intros r o Hlt Hr Hc. apply F2; [done| |done]. by apply F1.
  - auto.
Qed.

(** A new object: it has no symbol table or an empty one. *)
Lemma grows_alloc s o :
  names_of o = None ∨ names_of o = Some [] →
  grows n0 s (set_heap (heap s ++ [o]) s).
Proof.
  intros Hns. split; cbn.
  - rewrite length_app. lia.
  - intros r o1 Hr. exists o1. split; [|done].
    rewrite lookup_app_l; [done|by eapply lookup_lt_Some].
  - intros r o1 _ Hr _. rewrite lookup_app_l; [done|by eapply lookup_lt_Some].
  - intros Hok r o1 ns k v Hr Hn Hin.
    assert (∀ v o', heap s !! v = Some o' → (heap s ++ [o]) !! v = Some o') as Hext.
    { intros v0 o' Hv. rewrite lookup_app_l; [done|by eapply lookup_lt_Some]. }
    destruct (decide (r < length (heap s))) as [Hlt|Hge].
    + rewrite lookup_app_l in Hr by done.
      destruct (Hok r o1 ns k v Hr Hn Hin) as (o' & Hv & Hc). eauto.
    + rewrite lookup_app_r in Hr by lia.
      apply list_lookup_singleton_Some in Hr as [_ <-].
      destruct Hns as [Hns|Hns]; rewrite Hns in Hn; simplify_eq.
      by apply elem_of_nil in Hin.
Qed.

(** A store at [r] that keeps the class, where the old object is a
    [Context] or was made after [n0], and every entry of the new symbol
    table is an old one or names an object that is not a module. *)
Lemma grows_store s r o o' :
  heap s !! r = Some o →
  class_of o' = class_of o →
  is_context o = true ∨ n0 ≤ r →
  (∀ ns' k v, names_of o' = Some ns' → (k, v) ∈ ns' →
     (∃ ns, names_of o = Some ns ∧ (k, v) ∈ ns) ∨
     (∃ ov, heap s !! v = Some ov ∧ class_of ov ≠ CModule)) →
  grows n0 s (set_heap (<[r := o']> (heap s)) s).
Proof.
  intros Hr Hc Hctx Hns.
  assert (r < length (heap s)) as Hlt by by eapply lookup_lt_Some.
  assert (∀ v ov, heap s !! v = Some ov → class_of ov ≠ CModule →
            ∃ ov', <[r := o']> (heap s) !! v = Some ov' ∧ class_of ov' ≠ CModule)
    as Hkeep.
  { intros v ov Hv Hm. destruct (decide (v = r)) as [->|Hne].
    - exists o'. rewrite list_lookup_insert_eq by done. split; [done|].
      simplify_eq. congruence.
    - exists ov. by rewrite list_lookup_insert_ne. }
  split; cbn.
  - by rewrite length_insert.
  - intros r1 o1 Hr1. destruct (decide (r1 = r)) as [->|Hne].
    + exists o'. rewrite list_lookup_insert_eq by done. split; [done|congruence].
    + exists o1. by rewrite list_lookup_insert_ne.
  - intros r1 o1 Hlt1 Hr1 Hnc. destruct (decide (r1 = r)) as [->|Hne].
    + simplify_eq. destruct Hctx as [Hctx|Hge]; [congruence|lia].
    + by rewrite list_lookup_insert_ne.
  - intros Hok r1 o1 ns k v Hr1 Hn Hin.
    destruct (decide (r1 = r)) as [->|Hne].
    + rewrite list_lookup_insert_eq in Hr1 by done. simplify_eq.
      destruct (Hns ns k v Hn Hin) as [(ns0 & Hn0 & Hin0)|(ov & Hv & Hm)].
      * destruct (Hok r o ns0 k v Hr Hn0 Hin0) as (ov & Hv & Hm). eauto.
      * eauto.
    + rewrite list_lookup_insert_ne in Hr1 by done.
      destruct (Hok r1 o1 ns k v Hr1 Hn Hin) as (ov & Hv & Hm). eauto.
Qed.

Lemma grows_store_same_names s r o o' :
  heap s !! r = Some o →
  class_of o' = class_of o →
  is_context o = true ∨ n0 ≤ r →
  names_of o' = names_of o →
  grows n0 s (set_heap (<[r := o']> (heap s)) s).
Proof.
  intros Hr Hc Hctx Hns. eapply grows_store; [done..|].
  intros ns' k v Hn Hin. left. exists ns'. split; [congruence|done].
Qed.

(** *** Rules for [keeps] *)

Lemma keeps_ret {A} (a : A) : keeps n0 (ret a).
Proof. intros s r s' _ [= <- <-]. apply grows_refl. Qed.

Lemma keeps_raise {A} e : keeps n0 (raise (A := A) e).
Proof. intros s r s' _ [= <- <-]. apply grows_refl. Qed.

Lemma keeps_bind {A B} (m : Py A) (k : A → Py B) :
  keeps n0 m → (∀ a, keeps n0 (k a)) → keeps n0 (bind m k).
Proof.
  intros Hm Hk s r s' Hn. unfold bind.
  destruct (m s) as [[a|e] s1] eqn:E; intros H.
  - eapply grows_trans; [by eapply Hm|].
    eapply Hk; [|done]. apply Hm in E; [|done]. destruct E. lia.
  - simplify_eq. by eapply Hm.
Qed.

Lemma keeps_try_except {A} (body : Py A) catches handler :
  keeps n0 body → (∀ e, keeps n0 (handler e)) →
  keeps n0 (try_except body catches handler).
Proof.
  intros Hm Hk s r s' Hn. unfold try_except.
  destruct (body s) as [[a|e] s1] eqn:E; intros H.
  - simplify_eq. by eapply Hm.
  - destruct (catches e); [|simplify_eq; by eapply Hm].
    eapply grows_trans; [by eapply Hm|].
    eapply Hk; [|done]. apply Hm in E; [|done]. destruct E. lia.
Qed.

Lemma keeps_for_each {A} (l : list A) (body : A → Py unit) :
  Forall (λ x, keeps n0 (body x)) l → keeps n0 (for_each l body).
Proof.
  induction 1 as [|x l Hx Hl IH]; [apply keeps_ret|].
  apply (keeps_bind (body x)); [done|]. intros _. apply IH.
Qed.

Lemma keeps_for_each_with {A V} (l : list A) (v0 : V) (body : V → A → Py V) :
  Forall (λ x, ∀ v, keeps n0 (body v x)) l →
  keeps n0 (for_each_with l v0 body).
Proof.
  intros Hl. revert v0. induction Hl as [|x l Hx Hl IH]; intros v0.
  - apply keeps_ret.
  - apply (keeps_bind (body v0 x)); [done|]. intros v'. apply IH.
Qed.

(** A computation that leaves the store alone. *)
Lemma keeps_same_heap {A} (m : Py A) :
  (∀ s, heap (m s).2 = heap s) → keeps n0 m.
Proof.
  intros Hm s r s' _ E. apply grows_same_heap.
  specialize (Hm s). by rewrite E in Hm.
Qed.

Lemma keeps_deref r : keeps n0 (deref r).
Proof.
  apply keeps_same_heap. intros s. unfold deref. by destruct (heap s !! r).
Qed.

Lemma keeps_print_stderr msg : keeps n0 (print_stderr msg).
Proof. by apply keeps_same_heap. Qed.

Lemma keeps_print_stdout e : keeps n0 (print_stdout e).
Proof. by apply keeps_same_heap. Qed.

Lemma keeps_alloc_bind {B} o (k : ref → Py B) :
  names_of o = None ∨ names_of o = Some [] →
  (∀ r, n0 ≤ r → keeps n0 (k r)) →
  keeps n0 (bind (alloc o) k).
Proof.
  intros Hns Hk s r s' Hn. unfold bind, alloc. intros H.
  eapply grows_trans; [by apply grows_alloc|].
  eapply Hk; [|cbn; rewrite length_app; lia|done]. done.
Qed.

Lemma keeps_alloc o :
  names_of o = None ∨ names_of o = Some [] → keeps n0 (alloc o).
Proof. intros Hns s r s' Hn [= <- <-]. by apply grows_alloc. Qed.

(** *** Rules for [keeps_at] *)

Lemma keeps_at_weaken {A} r o (m : Py A) : keeps n0 m → keeps_at n0 r o m.
Proof. intros Hm s res s' Hn _. by apply Hm. Qed.

Lemma keeps_deref_bind {B} r (k : Obj → Py B) :
  (∀ o, keeps_at n0 r o (k o)) → keeps n0 (bind (deref r) k).
Proof.
  intros Hk s res s' Hn. unfold bind, deref.
  destruct (heap s !! r) as [o|] eqn:E; intros H.
  - by eapply Hk.
  - simplify_eq. apply grows_refl.
Qed.

Lemma keeps_receiver_bind {B} context (k : ref * Obj → Py B) :
  (∀ r o, keeps_at n0 r o (k (r, o))) → keeps n0 (bind (receiver context) k).
Proof.
  intros Hk s res s' Hn. unfold bind, receiver.
  destruct context as [r|]; [|cbn; intros H; simplify_eq; apply grows_refl].
  unfold bind, deref, ret.
  destruct (heap s !! r) as [o|] eqn:E; intros H.
  - by eapply Hk.
  - simplify_eq. apply grows_refl.
Qed.

Lemma keeps_at_store r o o' :
  class_of o' = class_of o →
  is_context o = true ∨ n0 ≤ r →
  names_of o' = names_of o →
  keeps_at n0 r o (store r o').
Proof.
  intros Hc Hctx Hns s res s' Hn Hr [= <- <-]. by eapply grows_store_same_names.
Qed.

Lemma keeps_at_store_bind {B} r o o' (k : unit → Py B) :
  class_of o' = class_of o →
  is_context o = true ∨ n0 ≤ r →
  names_of o' = names_of o →
  keeps n0 (k tt) →
  keeps_at n0 r o (bind (store r o') k).
Proof.
  intros Hc Hctx Hns Hk s res s' Hn Hr. unfold bind, store, modify. intros H.
  eapply grows_trans; [by eapply grows_store_same_names|].
  eapply Hk; [|done]. cbn. by rewrite length_insert.
Qed.

Lemma keeps_at_bind_pure {A B} r o (m : Py A) (k : A → Py B) :
  reads m →
  (∀ a, keeps_at n0 r o (k a)) →
  keeps_at n0 r o (bind m k).
Proof.
  intros Hm Hk s res s' Hn Hr. unfold bind. specialize (Hm s).
  destruct (m s) as [[a|e] s1]; cbn in Hm; subst s1; intros H.
  - by eapply Hk.
  - simplify_eq. apply grows_refl.
Qed.

(** An object of the handler's own making is updated in place. *)
Lemma keeps_update_own r f :
  n0 ≤ r →
  (∀ o, class_of (f o) = class_of o ∧ names_of (f o) = names_of o) →
  keeps n0 (update r f).
Proof.
  intros Hr Hf. apply keeps_deref_bind. intros o.
  destruct (Hf o). apply keeps_at_store; auto.
Qed.
End Grows.

Lemma grows_mono n0 n1 s s' : n1 ≤ n0 → grows n0 s s' → grows n1 s s'.
Proof.
  intros Hle [L C F N]. split; [done..| |done].
  intros r o Hlt. apply F. lia.
Qed.

(** *** Computations that only read *)

Lemma reads_ret {A} (a : A) : reads (ret a : Py A).
Proof. done. Qed.

Lemma reads_raise {A} e : reads (raise e : Py A).
Proof. done. Qed.

Lemma reads_bind {A B} (m : Py A) (k : A → Py B) :
  reads m → (∀ a, reads (k a)) → reads (bind m k).
Proof.
  intros Hm Hk s. unfold bind. specialize (Hm s).
  destruct (m s) as [[a|e] s1]; cbn in Hm; subst; [apply Hk|done].
Qed.

Lemma reads_deref r : reads (deref r).
Proof. intros s. unfold deref. by destruct (heap s !! r). Qed.

Lemma reads_receiver context : reads (receiver context).
Proof.
  destruct context; [|done]. apply reads_bind; [apply reads_deref|done].
Qed.

Create HintDb reads discriminated.
#[global] Hint Resolve reads_ret reads_raise reads_deref reads_receiver : reads.

Ltac reads_auto :=
  repeat first
    [ progress intros
    | solve [auto with reads]
    | apply reads_bind
    | match goal with
      | |- reads (match ?x with _ => _ end) => destruct x
      | |- reads (if ?x then _ else _) => destruct x
      end ].

Lemma reads_getattr_name r : reads (getattr_name r).
Proof. unfold getattr_name. reads_auto. Qed.

Lemma reads_getattr_statements r : reads (getattr_statements r).
Proof. unfold getattr_statements. reads_auto. Qed.

Lemma reads_isinstance_Class context : reads (isinstance_Class context).
Proof. unfold isinstance_Class. reads_auto. Qed.

Lemma reads_getattr_ref decl : reads (getattr_ref decl).
Proof. unfold getattr_ref. reads_auto. Qed.

Lemma reads_getattr_constructor klass : reads (getattr_constructor klass).
Proof. unfold getattr_constructor. reads_auto. Qed.

Lemma reads_getattr_destructor klass : reads (getattr_destructor klass).
Proof. unfold getattr_destructor. reads_auto. Qed.

Lemma reads_getitem_methods klass name : reads (getitem_methods klass name).
Proof. unfold getitem_methods. reads_auto. Qed.

Lemma reads_getattr_arguments call : reads (getattr_arguments call).
Proof. unfold getattr_arguments. reads_auto. Qed.

Lemma reads_Context_getitem_rec fuel self name :
  reads (Context_getitem_rec fuel self name).
Proof.
  revert self. induction fuel as [|fuel IH]; intros self; cbn; reads_auto.
Qed.

Lemma reads_Context_getitem self name : reads (Context_getitem self name).
Proof. intros s. apply reads_Context_getitem_rec. Qed.

#[global] Hint Resolve reads_getattr_name reads_getattr_statements
  reads_isinstance_Class reads_getattr_ref reads_getattr_constructor
  reads_getattr_destructor reads_getitem_methods reads_getattr_arguments
  reads_Context_getitem : reads.

Lemma reads_getitem context name : reads (getitem context name).
Proof. unfold getitem. reads_auto. Qed.

#[global] Hint Resolve reads_getitem : reads.

Lemma keeps_reads {A} n0 (m : Py A) : reads m → keeps n0 m.
Proof.
  intros Hm. apply keeps_same_heap. intros s. by rewrite Hm.
Qed.

(** *** The methods of the model *)

Create HintDb keeps discriminated.
#[global] Hint Resolve keeps_ret keeps_raise keeps_deref keeps_print_stderr
  keeps_print_stdout : keeps.

Ltac keeps_auto :=
  repeat first
    [ progress intros
    | progress cbv beta zeta
    | solve [auto with keeps]
    | solve [apply keeps_reads; auto with reads]
    | solve [apply keeps_at_weaken; auto with keeps]
    | apply keeps_at_store_bind; [reflexivity | by left | reflexivity | ]
    | apply keeps_at_store; [reflexivity | by left | reflexivity ]
    | apply keeps_at_bind_pure; [solve [auto with reads] | ]
    | match goal with
      | |- keeps_at _ _ _ (match ?x with _ => _ end) => destruct x
      | |- keeps_at _ _ _ (if ?x then _ else _) => destruct x
      end
    | apply keeps_at_weaken
    | apply keeps_receiver_bind
    | apply keeps_alloc_bind; [by (left + right) | ]
    | apply keeps_alloc; by (left + right)
    | apply keeps_update_own; [done | by intros [] ]
    | apply keeps_try_except
    | match goal with
      | |- keeps _ (match ?x with _ => _ end) => destruct x
      | |- keeps _ (if ?x then _ else _) => destruct x
      | |- keeps _ (bind (deref _) _) => apply keeps_deref_bind
      end
    | apply keeps_bind ].

Section Methods.
Context (n0 : nat).

Lemma keeps_add_import module statement :
  keeps n0 (add_import module statement).
Proof. unfold add_import. keeps_auto. Qed.
Hint Resolve keeps_add_import : keeps.

Lemma keeps_add_imports self module : keeps n0 (add_imports self module).
Proof. unfold add_imports. keeps_auto. Qed.
Hint Resolve keeps_add_imports : keeps.

Lemma keeps_add_declaration context decl :
  keeps n0 (add_declaration context decl).
Proof. unfold add_declaration. keeps_auto. Qed.

Lemma keeps_add_submodule context module :
  keeps n0 (add_submodule context module).
Proof. unfold add_submodule. keeps_auto. Qed.

Lemma keeps_add_enumerator context entry :
  keeps n0 (add_enumerator context entry).
Proof. unfold add_enumerator. keeps_auto. Qed.

Lemma keeps_add_parameter context parameter :
  keeps n0 (add_parameter context parameter).
Proof. unfold add_parameter. keeps_auto. Qed.

Lemma keeps_add_statement context statement :
  keeps n0 (add_statement context statement).
Proof. unfold add_statement. keeps_auto. Qed.

Lemma keeps_Class_add_constructor context method :
  keeps n0 (Class_add_constructor context method).
Proof. unfold Class_add_constructor. keeps_auto. Qed.

Lemma keeps_Class_add_destructor context method :
  keeps n0 (Class_add_destructor context method).
Proof. unfold Class_add_destructor. keeps_auto. Qed.

Lemma keeps_Class_add_method context method :
  keeps n0 (Class_add_method context method).
Proof. unfold Class_add_method. keeps_auto. Qed.

Lemma keeps_add_attribute_rec fuel context attr :
  keeps n0 (add_attribute_rec fuel context attr).
Proof.
  revert context. induction fuel as [|fuel IH]; intros context; cbn;
    keeps_auto.
Qed.

Lemma keeps_add_attribute context attr :
  keeps n0 (add_attribute context attr).
Proof. intros s r s'. apply keeps_add_attribute_rec. Qed.

Hint Resolve keeps_add_declaration keeps_add_submodule keeps_add_enumerator
  keeps_add_parameter keeps_add_statement keeps_Class_add_constructor
  keeps_Class_add_destructor keeps_Class_add_method keeps_add_attribute
  : keeps.

Lemma keeps_add_to_context self context :
  keeps n0 (add_to_context self context).
Proof. unfold add_to_context. keeps_auto. Qed.

Lemma keeps_setattr_superclass context sup :
  keeps n0 (setattr_superclass context sup).
Proof. unfold setattr_superclass. keeps_auto. Qed.

Lemma keeps_FunctionCall_add_argument fn argument :
  n0 ≤ fn → keeps n0 (FunctionCall_add_argument fn argument).
Proof. intros Hfn. unfold FunctionCall_add_argument. keeps_auto. Qed.
End Methods.

#[global] Hint Resolve keeps_add_import keeps_add_imports
  keeps_add_declaration keeps_add_submodule keeps_add_enumerator
  keeps_add_parameter keeps_add_statement keeps_Class_add_constructor
  keeps_Class_add_destructor keeps_Class_add_method keeps_add_attribute
  keeps_add_to_context keeps_setattr_superclass
  keeps_FunctionCall_add_argument : keeps.

(** *** The constructors of the classes *)

Section Constructors.
Context (n0 : nat).

Lemma keeps_alloc_bind_at {B} o (k : ref → Py B) :
  names_of o = None ∨ names_of o = Some [] →
  (∀ r, n0 ≤ r → keeps_at n0 r o (k r)) →
  keeps n0 (bind (alloc o) k).
Proof.
  intros Hns Hk s r s' Hn. unfold bind, alloc. intros H.
  eapply grows_trans; [by apply grows_alloc|].
  eapply Hk; [|cbn; rewrite length_app; lia| |done]; [done|].
  cbn. by rewrite lookup_app_r, Nat.sub_diag.
Qed.

Lemma keeps_at_bind {A B} r o (m : Py A) (k : A → Py B) :
  keeps_at n0 r o m → (∀ a, keeps n0 (k a)) → keeps_at n0 r o (bind m k).
Proof.
  intros Hm Hk s res s' Hn Hr. unfold bind.
  destruct (m s) as [[a|e] s1] eqn:E; intros H.
  - eapply grows_trans; [by eapply Hm|].
    eapply Hk; [|done]. eapply Hm in E; [|done..]. destruct E. lia.
  - simplify_eq. by eapply Hm.
Qed.

(** The registration names the new object, which is not a module. *)
Lemma keeps_at_Declaration_init self o parent name :
  class_of o ≠ CModule →
  keeps_at n0 self o (Declaration_init self parent name).
Proof.
  intros Hc s res s' Hn Hself. unfold Declaration_init.
  destruct name as [n|], parent as [p|];
    try (intros [= <- <-]; apply grows_refl).
  destruct (PyStr.truthy (Some n)); [|intros [= <- <-]; apply grows_refl].
  unfold bind, deref. destruct (heap s !! p) as [po|] eqn:Hp;
    [|intros [= <- <-]; apply grows_refl].
  destruct (names_of po) as [ns|] eqn:Hns;
    [|intros [= <- <-]; apply grows_refl].
  intros [= <- <-].
  assert (is_context po = true) as Hctx by (unfold is_context; by rewrite Hns).
  eapply grows_store; [done|apply class_of_set_names|by left|].
  intros ns' k v. rewrite names_of_set_names by done. intros [= <-] Hin.
  apply setitem_elem in Hin as [Hin| ->]; [left|right]; eauto.
Qed.

Lemma keeps_new o parent name :
  class_of o ≠ CModule →
  names_of o = None ∨ names_of o = Some [] →
  keeps n0 (self <- alloc o ;; Declaration_init self parent name ;;; ret self).
Proof.
  intros Hc Hns. apply keeps_alloc_bind_at; [done|]. intros r Hr.
  apply keeps_at_bind; [by apply keeps_at_Declaration_init|].
  intros _. apply keeps_ret.
Qed.

Lemma keeps_Enumeration_new parent name :
  keeps n0 (Enumeration_new parent name).
Proof. apply keeps_new; [done|by right]. Qed.

Lemma keeps_Function_new parent name : keeps n0 (Function_new parent name).
Proof. apply keeps_new; [done|by right]. Qed.

Lemma keeps_Parameter_new function name ctype default :
  keeps n0 (Parameter_new function name ctype default).
Proof. apply keeps_new; [done|by left]. Qed.

Lemma keeps_Variable_new parent name value :
  keeps n0 (Variable_new parent name value).
Proof. apply keeps_new; [done|by left]. Qed.

Lemma keeps_Struct_new parent name : keeps n0 (Struct_new parent name).
Proof. apply keeps_new; [done|by right]. Qed.

Lemma keeps_Class_new parent name : keeps n0 (Class_new parent name).
Proof. apply keeps_new; [done|by right]. Qed.

Lemma keeps_Constructor_new klass : keeps n0 (Constructor_new klass).
Proof. apply keeps_new; [done|by right]. Qed.

Lemma keeps_Destructor_new klass : keeps n0 (Destructor_new klass).
Proof. apply keeps_new; [done|by right]. Qed.

Lemma keeps_Method_new klass name pure_virtual :
  keeps n0 (Method_new klass name pure_virtual).
Proof. apply keeps_new; [done|by right]. Qed.

Lemma keeps_Attribute_new klass name value :
  keeps n0 (Attribute_new klass name value).
Proof. apply keeps_new; [done|by left]. Qed.
End Constructors.

#[global] Hint Resolve keeps_Enumeration_new keeps_Function_new
  keeps_Parameter_new keeps_Variable_new keeps_Struct_new keeps_Class_new
  keeps_Constructor_new keeps_Destructor_new keeps_Method_new
  keeps_Attribute_new : keeps.

(** *** The handlers *)

Ltac handler_keeps :=
  repeat first
    [ match goal with
      | H : Forall _ (_ :: _) |- _ => apply Forall_cons in H as [? ?]
      | H : ∀ ctx, keeps _ (?h ?c ctx) |- keeps _ (?h ?c _) => apply H
      | |- keeps _ (for_each _ _) =>
          apply keeps_for_each; eapply Forall_impl; [eassumption|]
      | |- keeps _ (for_each_with _ _ _) =>
          apply keeps_for_each_with; eapply Forall_impl; [eassumption|]
      end
    | progress keeps_auto ].

Section HandlersKeep.
Context (py : Builtins) (self : Generator).
Context (handle : Node → Value → Py Value) (n0 : nat).

Lemma reads_in_files node : reads (in_files py self node).
Proof. unfold in_files. reads_auto. Qed.

Lemma keeps_dispatch node context :
  Forall (λ c, ∀ ctx, keeps n0 (handle c ctx)) (get_children node) →
  keeps n0 (dispatch py self handle node context).
Proof.
  intros Hch. unfold dispatch.
  apply keeps_bind; [apply keeps_reads, reads_in_files|].
  intros [|]; [|keeps_auto].
  unfold call_handler. destruct (kind node).
  all: try (unfold handle_unexposed_decl, handle_struct_decl,
    handle_class_decl, handle_enum_decl, handle_field_decl,
    handle_enum_constant_decl, handle_function_decl, handle_var_decl,
    handle_parm_decl, handle_typedef_decl, handle_cxx_method,
    handle_namespace, handle_constructor, handle_destructor,
    handle_cxx_access_spec_decl, handle_type_ref,
    handle_cxx_base_specifier, handle_member_ref, handle_unexposed_expr,
    handle_decl_ref_expr, handle_member_ref_expr, handle_call_expr,
    handle_integer_literal, handle_floating_literal, handle_string_literal,
    handle_character_literal, handle_paren_expr, handle_unary_operator,
    handle_binary_operator, handle_conditional_operator,
    handle_cxx_functional_cast_expr, handle_cxx_this_expr,
    handle_cxx_new_expr, handle_compound_stmt, handle_return_stmt,
    handle_decl_stmt, handle_translation_unit).
  all: revert Hch; generalize (get_children node) as children.
  all: intros children Hch.
  all: solve [handler_keeps].
Qed.
End HandlersKeep.

(** Induction on the syntax tree. *)
Lemma Node_tree_ind (P : Node → Prop) :
  (∀ node, Forall P (get_children node) → P node) → ∀ node, P node.
Proof.
  intros H. fix IH 1. intros [k sp lf tk rk pv ev toks children].
  apply H. cbn. induction children as [|c children IHc]; constructor; auto.
Qed.

Lemma handle_unfold py self node context s :
  handle py self node context s =
  dispatch py self (handle py self) node context s.
Proof. by destruct node. Qed.

(** A node of a registered file goes to the handler of its kind. *)
Lemma handle_known py self node context s :
  in_files py self node s = (Ok true, s) →
  handle py self node context s =
  call_handler py (handle py self) node context s.
Proof.
  intros Hin. rewrite handle_unfold. unfold dispatch, bind.
  by rewrite Hin.
Qed.

Lemma keeps_handle py self node :
  ∀ n0 context, keeps n0 (handle py self node context).
Proof.
  induction node as [node IH] using Node_tree_ind. intros n0 context s r s' Hn.
  rewrite handle_unfold. apply keeps_dispatch; [|done].
  eapply Forall_impl; [exact IH|]. cbn. auto.
Qed.

(** Whatever a handler is given and whether or not it raises: the store
    has grown, every object has kept its class, the objects that were there
    and are no [Context] are as they were, and no symbol table has come to
    name a module. *)
Lemma handle_grows py self node context s r s' :
  handle py self node context s = (r, s') → grows (length (heap s)) s s'.
Proof. by apply keeps_handle. Qed.

(** ** Running a computation *)

Section Run.
Context {S A B : Type}.
Implicit Types (m : M S A) (k : A → M S B).

Lemma bind_run m k s a s1 r :
  m s = (Ok a, s1) → k a s1 = r → bind m k s = r.
Proof. intros Hm <-. unfold bind. by rewrite Hm. Qed.

Lemma bind_raise_run m k s e s1 :
  m s = (Raise e, s1) → bind m k s = (Raise e, s1).
Proof. intros Hm. unfold bind. by rewrite Hm. Qed.

Lemma bind_ok_inv m k s b s' :
  bind m k s = (Ok b, s') →
  ∃ a s1, m s = (Ok a, s1) ∧ k a s1 = (Ok b, s').
Proof.
  unfold bind. destruct (m s) as [[a|e] s1]; [eauto|done].
Qed.

Lemma try_ok_run (body : M S A) catches handler s a s1 :
  body s = (Ok a, s1) → try_except body catches handler s = (Ok a, s1).
Proof. intros Hm. unfold try_except. by rewrite Hm. Qed.

Lemma try_catch_run (body : M S A) catches handler s e s1 r :
  body s = (Raise e, s1) → catches e = true → handler e s1 = r →
  try_except body catches handler s = r.
Proof. intros Hm Hc <-. unfold try_except. by rewrite Hm, Hc. Qed.

Lemma try_pass_run (body : M S A) catches handler s e s1 :
  body s = (Raise e, s1) → catches e = false →
  try_except body catches handler s = (Raise e, s1).
Proof. intros Hm Hc. unfold try_except. by rewrite Hm, Hc. Qed.

Lemma try_except_ok_inv (body : M S A) catches handler s a s' :
  try_except body catches handler s = (Ok a, s') →
  body s = (Ok a, s') ∨
  ∃ e s1, body s = (Raise e, s1) ∧ catches e = true
          ∧ handler e s1 = (Ok a, s').
Proof.
  unfold try_except. destruct (body s) as [[a1|e] s1]; [by left|].
  destruct (catches e) eqn:Hc; [|done]. right. eauto.
Qed.
End Run.

Lemma deref_run r o s : heap s !! r = Some o → deref r s = (Ok o, s).
Proof. intros Hr. unfold deref. by rewrite Hr. Qed.

Lemma update_run r f o s :
  heap s !! r = Some o → update r f s = (Ok tt, with_obj r (f o) s).
Proof. intros Hr. unfold update, bind, deref. by rewrite Hr. Qed.

Lemma update_ok_inv r f u s s' :
  update r f s = (Ok u, s') →
  ∃ o, heap s !! r = Some o ∧ s' = with_obj r (f o) s.
Proof.
  unfold update, bind, deref. destruct (heap s !! r) as [o|]; [|done].
  intros [= <- <-]. eauto.
Qed.

Lemma with_obj_with_obj r o o' s :
  with_obj r o' (with_obj r o s) = with_obj r o' s.
Proof.
  unfold with_obj, set_heap. cbn. by rewrite list_insert_insert_eq.
Qed.

Lemma heap_with_obj_eq r o s :
  r < length (heap s) → heap (with_obj r o s) !! r = Some o.
Proof. intros Hr. cbn. by rewrite list_lookup_insert_eq. Qed.

Lemma length_heap_with_obj r o s :
  length (heap (with_obj r o s)) = length (heap s).
Proof. cbn. by rewrite length_insert. Qed.

(** An object that is no [Context] and is in the store when a handler
    starts is the same object when the handler is done. *)
Lemma handle_frame py self node context s res s' r o :
  handle py self node context s = (res, s') →
  heap s !! r = Some o → is_context o = false →
  heap s' !! r = Some o.
Proof.
  intros Hh Hr Hc. eapply grows_frame; [by eapply handle_grows| |done..].
  by eapply lookup_lt_Some.
Qed.

Lemma handle_length py self node context s res s' :
  handle py self node context s = (res, s') →
  length (heap s) ≤ length (heap s').
Proof. intros Hh. eapply grows_length. by eapply handle_grows. Qed.

(** ** Binary operators *)



(** ** Name lookup *)

Section ScopeChain.
Context (h : list Obj).
Implicit Types (chain : list (ref * list (string * ref))).

Lemma scope_chain_det r chain1 chain2 :
  scope_chain h r chain1 → scope_chain h r chain2 → chain1 = chain2.
Proof.
  intros H1. revert chain2.
  induction H1 as [r o d ns Hr Hn Hd Hp|r o d ns p chain Hr Hn Hd Hp _ IH];
    intros chain2 H2; inversion H2; simplify_eq; [done|].
  f_equal. by apply IH.
Qed.

Lemma scope_chain_suffix r chain x nsx :
  scope_chain h r chain → (x, nsx) ∈ chain →
  ∃ chain', scope_chain h x chain' ∧ chain' `suffix_of` chain.
Proof.
  induction 1 as [r o d ns Hr Hn Hd Hp|r o d ns p chain Hr Hn Hd Hp Hc IH];
    intros Hin.
  - apply list_elem_of_singleton in Hin. simplify_eq.
    exists [(r, ns)]. split; [by eapply scope_root|done].
  - apply elem_of_cons in Hin as [Heq|Hin].
    + simplify_eq. exists ((r, ns) :: chain).
      split; [by eapply scope_inner|done].
    + destruct (IH Hin) as (chain' & Hc' & Hs). exists chain'.
      split; [done|]. by apply suffix_cons_r.
Qed.

(** A chain that reaches the root visits no context twice. *)
Lemma scope_chain_NoDup r chain : scope_chain h r chain → NoDup chain.*1.
Proof.
  induction 1 as [r o d ns Hr Hn Hd Hp|r o d ns p chain Hr Hn Hd Hp Hc IH];
    cbn.
  - apply NoDup_singleton.
  - apply NoDup_cons. split; [|done].
    intros Hin. apply list_elem_of_fmap in Hin as ([x nsx] & -> & Hin).
    cbn in Hin.
    destruct (scope_chain_suffix _ _ _ _ Hc Hin) as (chain' & Hc' & Hs).
    assert (chain' = (x, ns) :: chain) as ->.
    { eapply scope_chain_det; [done|]. by eapply scope_inner. }
    apply suffix_length in Hs. cbn in Hs. lia.
Qed.

Lemma scope_chain_valid r chain x :
  scope_chain h r chain → x ∈ chain.*1 → x < length h.
Proof.
  induction 1 as [r o d ns Hr Hn Hd Hp|r o d ns p chain Hr Hn Hd Hp Hc IH];
    cbn; intros Hin.
  - apply list_elem_of_singleton in Hin as ->. by eapply lookup_lt_Some.
  - apply elem_of_cons in Hin as [->|Hin]; [by eapply lookup_lt_Some|auto].
Qed.

Lemma scope_chain_length r chain :
  scope_chain h r chain → length chain ≤ length h.
Proof.
  intros Hc.
  assert (chain.*1 ⊆+ seq 0 (length h)) as Hsub.
  { apply NoDup_submseteq; [by eapply scope_chain_NoDup|].
    intros x Hx. apply elem_of_seq. split; [lia|].
    cbn. by eapply scope_chain_valid. }
  apply submseteq_length in Hsub.
  by rewrite length_fmap, length_seq in Hsub.
Qed.

Lemma Context_getitem_rec_chain fuel r chain name s :
  heap s = h → scope_chain h r chain → length chain ≤ fuel →
  Context_getitem_rec fuel r name s =
    (match lookup_chain name chain.*2 with
     | Some v => Ok v
     | None => Raise KeyError
     end, s).
Proof.
  intros Hs Hc. revert fuel.
  induction Hc as [r o d ns Hr Hn Hd Hp|r o d ns p chain Hr Hn Hd Hp Hc IH];
    intros [|fuel] Hlen; cbn in Hlen; try lia; cbn.
  - eapply bind_run; [apply deref_run; by rewrite Hs|].
    rewrite Hn, Hd. destruct (OrderedDict.getitem name ns); [done|].
    by rewrite Hp.
  - eapply bind_run; [apply deref_run; by rewrite Hs|].
    rewrite Hn, Hd. destruct (OrderedDict.getitem name ns); [done|].
    rewrite Hp.
    assert (∃ po nsp, h !! p = Some po ∧ names_of po = Some nsp)
      as (po & nsp & Hpo & Hnp) by (inversion Hc; eauto).
    eapply bind_run; [apply deref_run; by rewrite Hs|].
    destruct po; try discriminate Hnp; cbn; apply IH; lia.
Qed.
End ScopeChain.

Lemma lookup_chain_None name tables :
  lookup_chain name tables = None ↔
  Forall (λ ns, OrderedDict.getitem name ns = None) tables.
Proof.
  induction tables as [|ns tables IH]; cbn; [by split; [constructor|]|].
  rewrite Forall_cons, <- IH.
  destruct (OrderedDict.getitem name ns); split; try done.
  - by intros [? _].
  - by intros [_ ?].
Qed.

(** C7.  Along the chain of the enclosing contexts of [context], lookup is
    lookup in the tables of the chain, the context's own table first and
    then outward: it returns the first entry for the name and leaves the
    state as it is; for a name that no table of the chain has, up to the
    root, it raises [KeyError], and nothing else. *)
Theorem C7_lookup_chain s context chain name :
  scope_chain (heap s) context chain →
  Context_getitem context name s =
    (match lookup_chain name chain.*2 with
     | Some v => Ok v
     | None => Raise KeyError
     end, s) ∧
  (Forall (λ ns, OrderedDict.getitem name ns = None) chain.*2 →
   Context_getitem context name s = (Raise KeyError, s)).
Proof.
  intros Hc.
  assert (Context_getitem context name s =
    (match lookup_chain name chain.*2 with
     | Some v => Ok v
     | None => Raise KeyError
     end, s)) as Heq.
  { unfold Context_getitem.
    eapply Context_getitem_rec_chain; [done..|].
    apply scope_chain_length in Hc. lia. }
  split; [done|].
  intros Hnone%lookup_chain_None. by rewrite Heq, Hnone.
Qed.

Lemma Sample2_chain : scope_chain Sample2.h 2 Sample2.chain.
Proof.
  eapply scope_inner; [reflexivity..|].
  eapply scope_inner; [reflexivity..|].
  eapply scope_root; reflexivity.
Qed.

Lemma C7_lookup_chain_witness :
  Context_getitem 2 "x" Sample2.s = (Ok 3, Sample2.s) ∧
  Context_getitem 2 "Foo" Sample2.s = (Ok 1, Sample2.s) ∧
  Context_getitem 2 "Bar" Sample2.s = (Raise KeyError, Sample2.s).
Proof.
  split; [|split].
  - exact (proj1 (C7_lookup_chain Sample2.s 2 Sample2.chain "x" Sample2_chain)).
  - exact (proj1 (C7_lookup_chain Sample2.s 2 Sample2.chain "Foo"
                    Sample2_chain)).
  - apply (proj2 (C7_lookup_chain Sample2.s 2 Sample2.chain "Bar"
                    Sample2_chain)).
    repeat constructor.
Defined.

(** ** Variables *)

Lemma obj_at_run h r o (w : CodeWriter) :
  h !! r = Some o → obj_at h r w = (Ok o, w).
Proof. intros Hr. unfold obj_at. by rewrite Hr. Qed.

(** C3, as the code has it.  A variable declaration without a child is
    dropped: the handler returns [None], raises nothing and leaves the
    state as it is.  A [Variable] whose value is absent is emitted as
    [<name> = None] and a line end. *)
Theorem C3_var_decl_without_initializer :
  (∀ py self node context s,
     get_children node = [] →
     handle_var_decl (handle py self) node context s = (Ok None, s)) ∧
  (∀ h r d fuel depth w,
     h !! r = Some (VariableObj d None) →
     output h (S fuel) (Some r) depth w =
       (Ok tt,
        mkCodeWriter (out w +:+ PyStr.fmt (name d) +:+ " = None" +:+ nl)
          true 0)).
Proof.
  split.
  - intros py self node context s Hch. unfold handle_var_decl.
    rewrite Hch. eapply try_catch_run; [|reflexivity..].
    by destruct (type_kind node).
  - intros h r d fuel depth w Hr. cbn.
    eapply bind_run; [by apply obj_at_run|]. cbn.
    unfold clear_line, modify, CodeWriter_clear_line. cbn.
    rewrite !append_assoc. reflexivity.
Qed.

Lemma C3_var_decl_without_initializer_witness :
  handle_var_decl (handle Sample.py Sample.self) Sample3.var_x (Some 0)
    Sample.s0 = (Ok None, Sample.s0) ∧
  output Sample3.h 1 (Some 1) None (CodeWriter_new "") =
    (Ok tt, mkCodeWriter ("x = None" +:+ nl) true 0).
Proof.
  split.
  - exact (proj1 C3_var_decl_without_initializer Sample.py Sample.self
             Sample3.var_x (Some 0) Sample.s0 eq_refl).
  - exact (proj2 C3_var_decl_without_initializer Sample3.h 1
             (mkDecl (Some 0) (Some "x")) 0 None (CodeWriter_new "") eq_refl).
Defined.

(** C3 as the specification states it fails: for [int x;] the builder
    makes no [Variable]. *)
Lemma C3_no_variable_for_int_x :
  handle Sample.py Sample.self Sample3.var_x (Some 0) Sample.s0
    = (Ok None, Sample.s0) ∧
  ¬ ∃ v d s',
      handle Sample.py Sample.self Sample3.var_x (Some 0) Sample.s0
        = (Ok (Some v), s') ∧
      heap s' !! v = Some (VariableObj d None).
Proof.
  assert (handle Sample.py Sample.self Sample3.var_x (Some 0) Sample.s0
          = (Ok None, Sample.s0)) as H by (vm_compute; reflexivity).
  split; [exact H|]. intros (v & d & s' & Hv & _). rewrite H in Hv. done.
Qed.

(** ** Conditional operators *)

Lemma alloc_ok_inv o r s s' :
  alloc o s = (Ok r, s') →
  r = length (heap s) ∧ s' = set_heap (heap s ++ [o]) s.
Proof. by intros [= <- <-]. Qed.

Lemma heap_alloc_new o s :
  heap (set_heap (heap s ++ [o]) s) !! length (heap s) = Some o.
Proof. cbn. by rewrite lookup_app_r, Nat.sub_diag. Qed.

(** C5, what the code does.  When [handle_conditional_operator] returns,
    it returns the operation object, with the results of the first three
    children, in this order, in its attributes [true_value], [condition] and
    [false_result], and without the attribute [true_result].  [output] of
    this object writes the opening parenthesis, reads [true_result] and
    raises [AttributeError]: no ternary is emitted. *)
Theorem C5_conditional_operator_output py self node context s v s' :
  handle_conditional_operator (handle py self) node context s = (Ok v, s') →
  ∃ condop first second third rest t c f s1 s2 s3,
    v = Some condop ∧ condop = length (heap s) ∧
    get_children node = first :: second :: third :: rest ∧
    handle py self first (Some condop)
      (set_heap (heap s ++ [ConditionalOperationObj None None None None]) s)
      = (Ok t, s1) ∧
    handle py self second (Some condop)
      (with_obj condop (ConditionalOperationObj (Some t) None None None) s1)
      = (Ok c, s2) ∧
    handle py self third (Some condop)
      (with_obj condop (ConditionalOperationObj (Some t) None (Some c) None) s2)
      = (Ok f, s3) ∧
    s' = with_obj condop
           (ConditionalOperationObj (Some t) None (Some c) (Some f)) s3 ∧
    heap s' !! condop
      = Some (ConditionalOperationObj (Some t) None (Some c) (Some f)) ∧
    ∀ fuel w,
      output (heap s') (S fuel) (Some condop) None w
        = (Raise AttributeError, CodeWriter_write "(" w).
Proof.
  intros H. unfold handle_conditional_operator in H.
  apply bind_ok_inv in H as (condop & s0 & Ha & H).
  apply alloc_ok_inv in Ha as [-> ->].
  remember (length (heap s)) as condop eqn:Hcondop.
  destruct (get_children node) as [|first [|second [|third rest]]];
    try done.
  - by apply bind_ok_inv in H as (? & ? & _ & (? & ? & _ & ?)%bind_ok_inv).
  - apply bind_ok_inv in H as (? & ? & _ & (? & ? & _ & H)%bind_ok_inv).
    by apply bind_ok_inv in H as (? & ? & _ & (? & ? & _ & ?)%bind_ok_inv).
  - apply bind_ok_inv in H as (t & s1 & H1 & H).
    apply bind_ok_inv in H as ([] & s1' & Hu1 & H).
    apply update_ok_inv in Hu1 as (o1 & Ho1 & ->).
    assert (o1 = ConditionalOperationObj None None None None) as ->.
    { eapply handle_frame in H1; [|subst condop; apply heap_alloc_new|done].
      congruence. }
    apply bind_ok_inv in H as (c & s2 & H2 & H).
    apply bind_ok_inv in H as ([] & s2' & Hu2 & H).
    apply update_ok_inv in Hu2 as (o2 & Ho2 & ->).
    assert (condop < length (heap s1)) as Hlt1 by by eapply lookup_lt_Some.
    assert (o2 = ConditionalOperationObj (Some t) None None None) as ->.
    { eapply handle_frame in H2; [|by apply heap_with_obj_eq|done].
      congruence. }
    apply bind_ok_inv in H as (f & s3 & H3 & H).
    apply bind_ok_inv in H as ([] & s3' & Hu3 & H).
    apply update_ok_inv in Hu3 as (o3 & Ho3 & ->).
    assert (condop < length (heap s2)) as Hlt2 by by eapply lookup_lt_Some.
    assert (o3 = ConditionalOperationObj (Some t) None (Some c) None) as ->.
    { eapply handle_frame in H3; [|by apply heap_with_obj_eq|done].
      congruence. }
    assert (condop < length (heap s3)) as Hlt3 by by eapply lookup_lt_Some.
    injection H as <- <-.
    exists condop, first, second, third, rest, t, c, f, s1, s2, s3.
    repeat split; try done.
    + by apply heap_with_obj_eq.
    + intros fuel w. cbn -[with_obj].
      eapply bind_run; [apply obj_at_run; by apply heap_with_obj_eq|].
      reflexivity.
Qed.

Lemma C5_conditional_operator_output_witness :
  ∃ s',
    handle_conditional_operator (handle Sample.py Sample.self) Sample4.ternary
      None Sample.s0 = (Ok (Some 1), s') ∧
    heap s' !! 1%nat
      = Some (ConditionalOperationObj (Some (Some 2)) None (Some (Some 3))
                (Some (Some 4))) ∧
    output (heap s') 5 (Some 1) None (CodeWriter_new "")
      = (Raise AttributeError, mkCodeWriter "(" false 0).
Proof.
  eexists. split; [vm_compute; reflexivity|].
  destruct (C5_conditional_operator_output Sample.py Sample.self
              Sample4.ternary None Sample.s0 (Some 1) _ eq_refl)
    as (condop & first & second & third & rest & t & c & f & s1 & s2 & s3
        & Hv & Hc & Hch & H1 & H2 & H3 & Hs & Hobj & Hout).
  split; [reflexivity|]. injection Hv as <-. apply (Hout 4 (CodeWriter_new "")).
Defined.

(** ** Member references *)

(** C4, what the code does.  [handle_member_ref] on a node with at least one
    child, the first of which builds, makes the attribute reference and then
    raises [NameError], the [next(children)] of the source naming a variable
    the method does not have.  Without a child it returns the reference on
    [self].  The sibling [handle_member_ref_expr] does what the
    specification says in all three cases. *)
Theorem C4_member_ref py self node context s :
  (∀ child rest instance s1,
     get_children node = child :: rest →
     handle py self child context s = (Ok instance, s1) →
     handle_member_ref (handle py self) node context s
       = (Raise NameError,
          set_heap
            (heap s1 ++ [AttributeReferenceObj instance (spelling node)]) s1)) ∧
  (get_children node = [] →
   handle_member_ref (handle py self) node context s
     = (Ok (Some (S (length (heap s)))),
        set_heap
          (heap s ++ [SelfReferenceObj;
                      AttributeReferenceObj (Some (length (heap s)))
                        (spelling node)]) s)) ∧
  (get_children node = [] →
   handle_member_ref_expr (handle py self) node context s
     = (Ok (Some (S (length (heap s)))),
        set_heap
          (heap s ++ [SelfReferenceObj;
                      AttributeReferenceObj (Some (length (heap s)))
                        (spelling node)]) s)) ∧
  (∀ child instance s1,
     get_children node = [child] →
     handle py self child context s = (Ok instance, s1) →
     handle_member_ref_expr (handle py self) node context s
       = (Ok (Some (length (heap s1))),
          set_heap
            (heap s1 ++ [AttributeReferenceObj instance (spelling node)]) s1)) ∧
  (∀ child second rest instance s1,
     get_children node = child :: second :: rest →
     handle py self child context s = (Ok instance, s1) →
     handle_member_ref_expr (handle py self) node context s
       = (Raise
            (Exception "Member reference expression has multiple children."),
          set_heap
            (heap s1 ++ [AttributeReferenceObj instance (spelling node)]) s1)).
Proof.
  repeat split.
  - intros child rest instance s1 Hch Hc. unfold handle_member_ref.
    rewrite Hch. apply bind_raise_run. apply try_pass_run; [|done].
    eapply bind_run; [exact Hc|]. eapply bind_run; [reflexivity|].
    apply bind_raise_run. by apply try_pass_run.
  - intros Hch. unfold handle_member_ref. rewrite Hch.
    eapply bind_run; [|reflexivity].
    eapply try_catch_run; [reflexivity..|]. cbn.
    unfold alloc, set_heap. cbn.
    by rewrite length_app, Nat.add_1_r, <- app_assoc.
  - intros Hch. unfold handle_member_ref_expr. rewrite Hch.
    eapply bind_run; [|reflexivity].
    eapply try_catch_run; [reflexivity..|]. cbn.
    unfold alloc, set_heap. cbn.
    by rewrite length_app, Nat.add_1_r, <- app_assoc.
  - intros child instance s1 Hch Hc. unfold handle_member_ref_expr.
    rewrite Hch. eapply bind_run; [|reflexivity].
    apply try_ok_run. eapply bind_run; [exact Hc|].
    eapply bind_run; [reflexivity|]. eapply bind_run; [|reflexivity].
    by eapply try_catch_run.
  - intros child second rest instance s1 Hch Hc.
    unfold handle_member_ref_expr. rewrite Hch. apply bind_raise_run.
    apply try_pass_run; [|done].
    eapply bind_run; [exact Hc|]. eapply bind_run; [reflexivity|].
    apply bind_raise_run. by apply try_pass_run.
Qed.

Lemma C4_member_ref_witness :
  handle_member_ref (handle Sample.py Sample.self)
    (Sample4.this_size CursorKind.MEMBER_REF) None Sample.s0
    = (Raise NameError,
       mkState
         [ModuleObj (mkDecl None (Some "foo")) [] [] [] [];
          SelfReferenceObj; AttributeReferenceObj (Some 1) "size"] [] []) ∧
  handle_member_ref_expr (handle Sample.py Sample.self)
    (Sample4.this_size CursorKind.MEMBER_REF_EXPR) None Sample.s0
    = (Ok (Some 2),
       mkState
         [ModuleObj (mkDecl None (Some "foo")) [] [] [] [];
          SelfReferenceObj; AttributeReferenceObj (Some 1) "size"] [] []).
Proof.
  split.
  - apply (proj1 (C4_member_ref Sample.py Sample.self
                    (Sample4.this_size CursorKind.MEMBER_REF) None Sample.s0)
             (Sample.node CursorKind.CXX_THIS_EXPR "" ["this"] []) []
             (Some 1)
             (mkState
                [ModuleObj (mkDecl None (Some "foo")) [] [] [] [];
                 SelfReferenceObj] [] [])).
    + reflexivity.
    + vm_compute. reflexivity.
  - apply (proj1 (proj2 (proj2 (proj2
             (C4_member_ref Sample.py Sample.self
                (Sample4.this_size CursorKind.MEMBER_REF_EXPR) None
                Sample.s0))))
             (Sample.node CursorKind.CXX_THIS_EXPR "" ["this"] [])
             (Some 1)
             (mkState
                [ModuleObj (mkDecl None (Some "foo")) [] [] [] [];
                 SelfReferenceObj] [] [])).
    + reflexivity.
    + vm_compute. reflexivity.
Defined.

(** ** Emission only appends *)

Section Appends.
Implicit Types (w : CodeWriter).

Lemma appends_ret {A} (a : A) : appends (ret a).
Proof. intros w r w' [= <- <-]. exists "". by rewrite append_nil_r. Qed.

Lemma appends_raise {A} e : appends (raise e : Emit A).
Proof. intros w r w' [= <- <-]. exists "". by rewrite append_nil_r. Qed.

Lemma appends_bind {A B} (m : Emit A) (k : A → Emit B) :
  appends m → (∀ a, appends (k a)) → appends (bind m k).
Proof.
  intros Hm Hk w r w'. unfold bind.
  destruct (m w) as [[a|e] w1] eqn:E; intros H.
  - destruct (Hm _ _ _ E) as [t1 H1]. destruct (Hk _ _ _ _ H) as [t2 H2].
    exists (t1 +:+ t2). by rewrite H2, H1, append_assoc.
  - simplify_eq. by eapply Hm.
Qed.

Lemma appends_for_each {A} (l : list A) (body : A → Emit unit) :
  (∀ x, appends (body x)) → appends (for_each l body).
Proof.
  intros Hb. induction l as [|x l IH]; [apply appends_ret|].
  apply (appends_bind (body x)); [done|]. intros _. apply IH.
Qed.

Lemma appends_map_m {A B} (f : A → Emit B) (l : list A) :
  (∀ x, appends (f x)) → appends (map_m f l).
Proof.
  intros Hf. induction l as [|x l IH]; [apply appends_ret|].
  cbn. apply appends_bind; [done|]. intros y.
  apply appends_bind; [done|]. intros ys. apply appends_ret.
Qed.

Lemma appends_write content : appends (write content).
Proof. intros w r w' [= <- <-]. by exists content. Qed.

Lemma appends_clear_line : appends clear_line.
Proof.
  intros w r w' [= <- <-]. unfold CodeWriter_clear_line.
  destruct (line_cleared w); [exists ""; by rewrite append_nil_r|by exists nl].
Qed.

Lemma appends_clear_block n : appends (clear_block n).
Proof.
  intros w r w' [= <- <-]. rewrite clear_block_spec. cbn.
  destruct (appends_clear_line w (Ok tt) _ eq_refl) as [t Ht].
  eexists. by rewrite Ht, append_assoc.
Qed.

Lemma appends_obj_at h r : appends (obj_at h r).
Proof. unfold obj_at. destruct (h !! r); [apply appends_ret|apply appends_raise]. Qed.
End Appends.

Create HintDb appends discriminated.
#[global] Hint Resolve appends_ret appends_raise appends_write
  appends_clear_line appends_clear_block appends_obj_at : appends.

Ltac appends_auto :=
  repeat first
    [ progress intros
    | progress cbv beta zeta
    | solve [auto with appends]
    | apply appends_for_each
    | apply appends_map_m
    | match goal with
      | |- appends (match ?x with _ => _ end) => destruct x
      | |- appends (if ?x then _ else _) => destruct x
      end
    | apply appends_bind ].

Lemma appends_name_at h r : appends (name_at h r).
Proof. unfold name_at. appends_auto. Qed.
#[global] Hint Resolve appends_name_at : appends.

Lemma appends_join_names h parameters : appends (join_names h parameters).
Proof. unfold join_names. appends_auto. Qed.

Lemma appends_join_constructor_names h parameters :
  appends (join_constructor_names h parameters).
Proof. unfold join_constructor_names. appends_auto. Qed.

Lemma appends_no_depth depth : appends (no_depth depth).
Proof. unfold no_depth. appends_auto. Qed.

#[global] Hint Resolve appends_join_names appends_join_constructor_names
  appends_no_depth : appends.

Lemma appends_output h fuel :
  ∀ x depth, appends (output h fuel x depth).
Proof.
  induction fuel as [|fuel IH]; intros x depth; cbn; [apply appends_raise|].
  apply appends_bind; [appends_auto|]. intros o.
  destruct o; appends_auto.
Qed.

(** ** The constructor of a class *)

Lemma map_m_name_at h parameters names (w : CodeWriter) :
  parameter_names h parameters names →
  map_m (name_at h) parameters w = (Ok names, w).
Proof.
  intros Hn. revert w.
  induction Hn as [|p n ps ns (o & d & Hp & Hd & Hname) _ IH]; intros w;
    [done|].
  cbn. eapply bind_run.
  { unfold name_at. eapply bind_run; [by apply obj_at_run|].
    rewrite Hd. by rewrite Hname. }
  eapply bind_run; [apply IH|]. done.
Qed.

(** The line of one attribute, as the loop of [Constructor.output] writes
    it. *)
Lemma attribute_line_run h fuel a line depth w :
  attribute_line h fuel a line →
  (write (indent depth) ;;; output h (S fuel) (Some a) None ;;; clear_line) w
  = (Ok tt, mkCodeWriter (out w +:+ indent depth +:+ line +:+ nl) true 0).
Proof.
  intros (d & value & text & Ha & Hv & ->).
  eapply bind_run; [reflexivity|].
  eapply bind_run.
  { cbn. eapply bind_run; [by apply obj_at_run|].
    eapply bind_run; [reflexivity|].
    eapply bind_run; [reflexivity|].
    eapply bind_run.
    { destruct value; [apply Hv|subst text; reflexivity]. }
    reflexivity. }
  cbn. unfold CodeWriter_clear_line. cbn. by rewrite !append_assoc.
Qed.

Lemma attribute_lines_run h fuel attributes lines depth w :
  Forall2 (attribute_line h fuel) attributes.*2 lines →
  for_each attributes (λ na : option string * nat,
    write (indent depth) ;;; output h (S fuel) (Some na.2) None ;;; clear_line)
    w
  = (Ok tt,
     match lines with
     | [] => w
     | _ => mkCodeWriter (out w +:+ lines_text depth lines) true 0
     end).
Proof.
  revert lines w.
  induction attributes as [|[key a] attributes IH]; intros lines w Hl;
    cbn in Hl.
  - by apply Forall2_nil_inv_l in Hl as ->.
  - apply Forall2_cons_inv_l in Hl as (line & lines' & Ha & Hl & ->).
    cbn [for_each]. eapply bind_run; [by apply attribute_line_run|].
    change (for_each attributes
              (λ na : option string * nat,
                 write (indent depth) ;;; output h (S fuel) (Some na.2) None
                 ;;; clear_line)
              (mkCodeWriter (out w +:+ indent depth +:+ line +:+ nl) true 0)
            = (Ok tt,
               mkCodeWriter (out w +:+ lines_text depth (line :: lines'))
                 true 0)).
    rewrite (IH lines') by done. cbn [lines_text foldr].
    destruct lines' as [|l2 lines'']; cbn.
    + by rewrite !append_nil_r.
    + by rewrite !append_assoc.
Qed.

Lemma init_header_run h parameters names depth w :
  parameter_names h parameters names →
  match parameters with
  | [] => write (indent depth +:+ "def __init__(self):" +:+ nl)
  | _ =>
      parameters <- join_constructor_names h parameters ;;
      write (indent depth +:+ "def __init__(self, " +:+ parameters
             +:+ "):" +:+ nl)
  end w
  = (Ok tt, CodeWriter_write (init_header depth names) w).
Proof.
  intros Hn. pose proof (map_m_name_at _ _ _ w Hn) as Hm.
  destruct Hn as [|p n ps ns Hp Hps]; [done|].
  eapply bind_run; [|reflexivity].
  unfold join_constructor_names. eapply bind_run; [exact Hm|]. reflexivity.
Qed.

Lemma match_list_same {A C} (l : list A) (y : C) :
  match l with [] => y | _ :: _ => y end = y.
Proof. by destruct l. Qed.

(** C9.  For a constructor with at least one body statement, whose parent
    is a class with the attributes [attributes]: [output] writes the
    [def __init__] line, then for each attribute of the class, in the order
    of the attribute dictionary, the line [self.<name> = <value or None>] one
    level deeper, and only then the loop over the body statements runs, on a
    writer that holds all the attribute lines; whatever the statements do,
    the text ends up as header, attribute lines, rest. *)
Theorem C9_constructor_attribute_lines h c d ns parameters names statement
    statements k dk nsk sup ctor dtor attributes methods lines fuel depth w :
  h !! c
    = Some (ConstructorObj d ns parameters (Some (statement :: statements))) →
  parent d = Some k →
  h !! k = Some (ClassObj dk nsk sup ctor dtor attributes methods) →
  parameter_names h parameters names →
  Forall2 (attribute_line h fuel) attributes.*2 lines →
  let depth_ := default 0%nat depth in
  let text := init_header depth_ names +:+ lines_text (depth_ + 1) lines in
  output h (S (S fuel)) (Some c) depth w =
    (for_each (statement :: statements) (λ st,
       write (indent (depth_ + 1)) ;;;
       output h (S fuel) (Some st) None ;;;
       clear_line) ;;;
     clear_block 1)
      (mkCodeWriter (out w +:+ text)
         (match lines with [] => false | _ => true end) 0) ∧
  ∀ r w',
    output h (S (S fuel)) (Some c) depth w = (r, w') →
    ∃ rest, out w' = out w +:+ text +:+ rest.
Proof.
  intros Hc Hp Hk Hn Hl depth_ text.
  assert (output h (S (S fuel)) (Some c) depth w =
    (for_each (statement :: statements) (λ st,
       write (indent (depth_ + 1)) ;;;
       output h (S fuel) (Some st) None ;;;
       clear_line) ;;;
     clear_block 1)
      (mkCodeWriter (out w +:+ text)
         (match lines with [] => false | _ => true end) 0)) as Heq.
  { remember (S fuel) as fuel1 eqn:Hfuel.
    cbn [output]. subst fuel1. eapply bind_run; [by apply obj_at_run|].
    cbn beta iota zeta. fold depth_.
    eapply bind_run; [by apply init_header_run|].
    rewrite Hp. eapply bind_run.
    { eapply bind_run; [by apply obj_at_run|]. reflexivity. }
    rewrite match_list_same.
    unfold bind at 1.
    unfold bind at 1. rewrite (attribute_lines_run _ _ _ lines) by done.
    replace (match lines with
             | [] => CodeWriter_write (init_header depth_ names) w
             | _ :: _ =>
                 mkCodeWriter
                   (out (CodeWriter_write (init_header depth_ names) w)
                    +:+ lines_text (depth_ + 1) lines) true 0
             end)
      with (mkCodeWriter (out w +:+ text)
              (match lines with [] => false | _ => true end) 0).
    2:{ subst text. destruct lines; cbn.
        - by rewrite append_nil_r.
        - by rewrite !append_assoc. }
    reflexivity. }
  split; [exact Heq|].
  intros r w' Hout. rewrite Heq in Hout.
  eapply appends_bind in Hout as [rest Hrest];
    [|apply appends_for_each; intros st; appends_auto;
      apply appends_output|intros _; apply appends_clear_block].
  exists rest. cbn in Hrest. by rewrite Hrest, append_assoc.
Qed.

Lemma C9_constructor_attribute_lines_witness :
  (∃ rest,
     out (output Sample9.h 5 (Some 6) (Some 1) (CodeWriter_new "")).2
     = "" +:+ ("    def __init__(self, x):" +:+ nl
               +:+ "        self.a = 1" +:+ nl
               +:+ "        self.b = None" +:+ nl) +:+ rest) ∧
  output Sample9.h 5 (Some 6) (Some 1) (CodeWriter_new "")
  = (Ok tt,
     mkCodeWriter
       ("    def __init__(self, x):" +:+ nl
        +:+ "        self.a = 1" +:+ nl
        +:+ "        self.b = None" +:+ nl
        +:+ "        self.a = x" +:+ nl
        +:+ "        return" +:+ nl +:+ nl) true 1).
Proof.
  split; [|vm_compute; reflexivity].
  refine (proj2 (C9_constructor_attribute_lines Sample9.h 6
            (mkDecl (Some 1) None) [("x", 7)] [7] [Some "x"] 8 [12] 1
            (mkDecl (Some 0) (Some "Foo")) [("a", 3); ("b", 5)] None (Some 6)
            None [(Some "a", 3); (Some "b", 5)] []
            ["self.a = 1"; "self.b = None"] 3 (Some 1) (CodeWriter_new "")
            eq_refl eq_refl eq_refl _ _) _ _ _).
  - constructor; [|constructor].
    exists (ParameterObj (mkDecl (Some 6) (Some "x")) None None),
      (mkDecl (Some 6) (Some "x")).
    repeat split.
  - constructor; [|constructor; [|constructor]].
    + exists (mkDecl (Some 1) (Some "a")), (Some 2), "1".
      split; [reflexivity|]. split; [|reflexivity].
      intros w. reflexivity.
    + exists (mkDecl (Some 1) (Some "b")), None, "None".
      repeat split.
  - apply surjective_pairing.
Defined.

(** ** Constructors of a class *)

Lemma in_files_located py self node file s :
  location_file node = Some file → file ≠ "" →
  abspath py file ∈ filenames self →
  in_files py self node s = (Ok true, s).
Proof.
  intros Hloc Hne Hin. unfold in_files. case_bool_decide; [done|].
  rewrite Hloc. cbn. rewrite bool_decide_true by done.
  by apply String.eqb_neq in Hne as ->.
Qed.

Lemma in_files_spelling py self node s :
  abspath py (spelling node) ∈ filenames self →
  in_files py self node s = (Ok true, s).
Proof. intros Hin. unfold in_files. by rewrite bool_decide_true. Qed.

Lemma receiver_run r o s :
  heap s !! r = Some o → receiver (Some r) s = (Ok (r, o), s).
Proof.
  intros Hr. unfold receiver. eapply bind_run; [by apply deref_run|done].
Qed.

Lemma alloc_run o s :
  alloc o s = (Ok (length (heap s)), set_heap (heap s ++ [o]) s).
Proof. done. Qed.

Lemma length_heap_alloc o s :
  length (heap (set_heap (heap s ++ [o]) s)) = S (length (heap s)).
Proof. cbn. rewrite length_app. cbn. lia. Qed.

Lemma heap_alloc_old o s r x :
  heap s !! r = Some x → heap (set_heap (heap s ++ [o]) s) !! r = Some x.
Proof.
  intros Hr. cbn. rewrite lookup_app_l; [done|by eapply lookup_lt_Some].
Qed.

Lemma heap_with_obj_ne r r' o s :
  r ≠ r' → heap (with_obj r o s) !! r' = heap s !! r'.
Proof. intros Hne. cbn. by rewrite list_lookup_insert_ne. Qed.

Lemma isinstance_Class_run k o s :
  heap s !! k = Some o →
  isinstance_Class (Some k) s
  = (Ok (match o with ClassObj _ _ _ _ _ _ _ => true | _ => false end), s).
Proof.
  intros Hk. unfold isinstance_Class.
  eapply bind_run; [by apply deref_run|done].
Qed.

(** A constructor or destructor is made without a name: nothing is
    registered. *)
Lemma Constructor_new_run klass s :
  Constructor_new klass s
  = (Ok (length (heap s)),
     set_heap (heap s ++ [ConstructorObj (mkDecl klass None) [] [] None]) s).
Proof. done. Qed.

(** A statement that is an expression or a [return] goes to the end of the
    statements of a constructor. *)
Lemma add_statement_constructor_run c d ns ps ss st o s :
  heap s !! c = Some (ConstructorObj d ns ps ss) →
  heap s !! st = Some o → c ≠ st →
  match class_of o with
  | CEnumeration | CParameter | CEnumValue => False
  | _ => True
  end →
  add_statement (Some c) st s
  = (Ok tt, with_obj c (ConstructorObj d ns ps (append_statement ss st)) s).
Proof.
  intros Hc Hst Hne Hcl. unfold add_statement.
  eapply bind_run; [by apply receiver_run|]. cbn beta iota.
  eapply bind_run; [reflexivity|].
  unfold add_imports. eapply bind_run.
  { apply deref_run. rewrite <- Hst. by apply heap_with_obj_ne. }
  by destruct o.
Qed.

Lemma add_to_context_constructor_run c d ns ps ss k dk nsk sup dtor at_ me s :
  heap s !! c = Some (ConstructorObj d ns ps ss) →
  parent d = Some k →
  heap s !! k = Some (ClassObj dk nsk sup None dtor at_ me) →
  add_to_context c (Some k) s
  = (Ok tt, with_obj k (ClassObj dk nsk sup (Some c) dtor at_ me) s).
Proof.
  intros Hc Hp Hk. unfold add_to_context.
  eapply bind_run; [by apply deref_run|]. cbn beta iota. rewrite Hp.
  unfold Class_add_constructor.
  eapply bind_run; [by apply receiver_run|]. done.
Qed.

(** C2.  [Class.add_constructor] on a class whose constructor has a
    statement list raises [Exception("Cannot handle multiple constructors")]
    and changes nothing; on a class whose constructor has [statements]
    [None] it makes the new constructor the constructor of the class, the
    old one being dropped without a word.  A translation unit with a class
    that has a constructor with a body and a second constructor is not
    translated: the exception ends the first phase and nothing is
    written. *)
Theorem C2_second_constructor :
  (∀ s k d ns sup c dtor attributes methods dc nsc parameters statements
     method,
     heap s !! k = Some (ClassObj d ns sup (Some c) dtor attributes methods) →
     heap s !! c = Some (ConstructorObj dc nsc parameters (Some statements)) →
     Class_add_constructor (Some k) method s
       = (Raise (Exception "Cannot handle multiple constructors"), s)) ∧
  (∀ s k d ns sup c dtor attributes methods dc nsc parameters method,
     heap s !! k = Some (ClassObj d ns sup (Some c) dtor attributes methods) →
     heap s !! c = Some (ConstructorObj dc nsc parameters None) →
     Class_add_constructor (Some k) method s
       = (Ok tt,
          with_obj k (ClassObj d ns sup (Some method) dtor attributes methods)
            s)) ∧
  (∀ py name file cname,
     file ≠ "" →
     translate py name file (Sample2b.two_constructors file cname)
       = (Raise (Exception "Cannot handle multiple constructors"), "")).
Proof.
  repeat split.
  - intros s k d ns sup c dtor attributes methods dc nsc parameters statements
      method Hk Hc.
    unfold Class_add_constructor. eapply bind_run; [by apply receiver_run|].
    cbn. eapply bind_run.
    { unfold getattr_statements. eapply bind_run; [by apply deref_run|].
      reflexivity. }
    reflexivity.
  - intros s k d ns sup c dtor attributes methods dc nsc parameters method
      Hk Hc.
    unfold Class_add_constructor. eapply bind_run; [by apply receiver_run|].
    cbn. eapply bind_run.
    { unfold getattr_statements. eapply bind_run; [by apply deref_run|].
      reflexivity. }
    reflexivity.
  - intros py name file cname Hfile. unfold translate.
    assert (∀ kind spelling children context s,
      handle py (mkGenerator 0 [abspath py file])
        (mkNode kind spelling (Some file) TypeKind.OTHER TypeKind.OTHER false
           0 [] children) context s
      = call_handler py (handle py (mkGenerator 0 [abspath py file]))
          (mkNode kind spelling (Some file) TypeKind.OTHER TypeKind.OTHER
             false 0 [] children) context s) as Hknown.
    { intros. apply handle_known. eapply in_files_located; [done..|].
      apply list_elem_of_here. }
    assert (∀ children context s,
      handle py (mkGenerator 0 [abspath py file])
        (mkNode CursorKind.TRANSLATION_UNIT file None TypeKind.OTHER
           TypeKind.OTHER false 0 [] children) context s
      = call_handler py (handle py (mkGenerator 0 [abspath py file]))
          (mkNode CursorKind.TRANSLATION_UNIT file None TypeKind.OTHER
             TypeKind.OTHER false 0 [] children) context s) as Hroot.
    { intros. apply handle_known. apply in_files_spelling.
      apply list_elem_of_here. }
    assert (((self <- Generator_new name ;;
              Generator_parse py self file
                (Sample2b.two_constructors file cname))
               (mkState [] [] [])).1
            = Raise (Exception "Cannot handle multiple constructors"))
      as Hparse.
    2:{ destruct ((_ <- Generator_new name ;; _) _) as [r s'].
        cbn in Hparse. by subst r. }
    unfold bind at 1. cbv [Generator_new Module_new bind alloc
      Declaration_init store modify ret set_heap heap length app stderr
      stdout insert list_insert].
    unfold Generator_parse. cbn [filenames module].
    rewrite bool_decide_false by apply not_elem_of_nil.
    repeat first
      [ rewrite Hroot
      | rewrite Hknown
      | progress cbv -[handle PyStr.truthy abspath]
      | match goal with
        | |- context [PyStr.truthy ?n] => destruct (PyStr.truthy n)
        end ].
    all: reflexivity.
Qed.

Lemma C2_second_constructor_witness :
  Class_add_constructor (Some 1) 6 Sample2b.s
    = (Raise (Exception "Cannot handle multiple constructors"), Sample2b.s) ∧
  Class_add_constructor (Some 4) 6 Sample2b.s
    = (Ok tt,
       with_obj 4
         (ClassObj (mkDecl (Some 0) (Some "B")) [] None (Some 6) None [] [])
         Sample2b.s) ∧
  translate Sample.py "foo" Sample.file
    (Sample2b.two_constructors Sample.file "Foo")
    = (Raise (Exception "Cannot handle multiple constructors"), "").
Proof.
  destruct C2_second_constructor as (Hbody & Hnone & Htranslate).
  split; [|split].
  - exact (Hbody Sample2b.s 1 _ _ _ 2 _ _ _ _ _ _ _ 6 eq_refl eq_refl).
  - exact (Hnone Sample2b.s 4 _ _ _ 5 _ _ _ _ _ _ 6 eq_refl eq_refl).
  - apply Htranslate. discriminate.
Defined.

(** ** Modules and the symbol tables *)

Lemma getitem_setitem_eq {K V} `{EqDecision K} (k : K) (v : V) d :
  OrderedDict.getitem k (OrderedDict.setitem k v d) = Some v.
Proof.
  induction d as [|[k' v'] d IH]; cbn.
  - by rewrite decide_True.
  - destruct (decide (k = k')) as [->|Hne]; cbn.
    + by rewrite decide_True.
    + by rewrite decide_False.
Qed.

Lemma getitem_Some_elem {K V} `{EqDecision K} (k : K) (v : V) d :
  OrderedDict.getitem k d = Some v → (k, v) ∈ d.
Proof.
  induction d as [|[k' v'] d IH]; cbn; [done|].
  destruct (decide (k = k')) as [->|Hne].
  - intros [= ->]. apply elem_of_cons. by left.
  - intros Hd. apply elem_of_cons. right. auto.
Qed.

Lemma truthy_nonempty name : name ≠ "" → PyStr.truthy (Some name) = true.
Proof. intros Hne. cbn. by apply String.eqb_neq in Hne as ->. Qed.

(** A declaration made with a name and a context as its parent. *)
Lemma new_registers o p po ns name s :
  heap s !! p = Some po → names_of po = Some ns → name ≠ "" →
  registers (self <- alloc o ;;
             Declaration_init self (Some p) (Some name) ;;;
             ret self) s p name.
Proof.
  intros Hp Hns Hname.
  exists (with_obj p
            (set_names (OrderedDict.setitem name (length (heap s)) ns) po)
            (set_heap (heap s ++ [o]) s)).
  split.
  - eapply bind_run; [apply alloc_run|].
    eapply bind_run; [|reflexivity].
    unfold Declaration_init. rewrite truthy_nonempty by done.
    eapply bind_run; [apply deref_run; by apply heap_alloc_old|].
    by rewrite Hns.
  - exists (set_names (OrderedDict.setitem name (length (heap s)) ns) po),
      (OrderedDict.setitem name (length (heap s)) ns).
    split; [|split].
    + apply heap_with_obj_eq. rewrite length_heap_alloc.
      apply lookup_lt_Some in Hp. lia.
    + apply names_of_set_names. unfold is_context. by rewrite Hns.
    + apply getitem_setitem_eq.
Qed.

Lemma Module_new_run name parent s :
  Module_new name parent s
  = (Ok (length (heap s)),
     set_heap
       (heap s ++ [ModuleObj (mkDecl parent (Some name)) [] [] [] []]) s).
Proof.
  unfold Module_new. eapply bind_run; [apply alloc_run|].
  eapply bind_run; [reflexivity|]. eapply bind_run; [reflexivity|].
  unfold set_heap. cbn. f_equal. f_equal.
  rewrite insert_app_r_alt by done. by rewrite Nat.sub_diag.
Qed.

Lemma names_ok_nil : names_ok [].
Proof. intros r o ns k v Hr. by rewrite lookup_nil in Hr. Qed.

Lemma Module_new_names_ok name parent s :
  names_ok (heap s) → names_ok (heap (Module_new name parent s).2).
Proof.
  intros Hok. rewrite Module_new_run. cbn [snd].
  eapply (grows_names 0 s); [|done].
  apply grows_alloc. by right.
Qed.

Lemma Generator_parse_names_ok py self filename cursor s r s' :
  names_ok (heap s) →
  Generator_parse py self filename cursor s = (r, s') →
  names_ok (heap s').
Proof.
  intros Hok. unfold Generator_parse, bind.
  destruct (handle _ _ _ _ _) as [[v|e] s1] eqn:Hh; intros [= <- <-];
    by eapply grows_names; [eapply handle_grows|].
Qed.

Lemma deref_ok_inv r o s s' :
  deref r s = (Ok o, s') → heap s !! r = Some o ∧ s' = s.
Proof. unfold deref. destruct (heap s !! r); [|done]. by intros [= <- <-]. Qed.

Lemma Context_getitem_rec_not_module fuel context name s r s' :
  names_ok (heap s) →
  Context_getitem_rec fuel context name s = (Ok r, s') →
  ∃ o, heap s !! r = Some o ∧ class_of o ≠ CModule.
Proof.
  intros Hok. revert context.
  induction fuel as [|fuel IH]; intros context; cbn; [done|].
  intros H. apply bind_ok_inv in H as (o & s1 & Hd & H).
  apply deref_ok_inv in Hd as [Hc ->].
  destruct (names_of o) as [ns|] eqn:Hns; [|by destruct (decl_of o)].
  destruct (decl_of o) as [d|]; [|done].
  destruct (OrderedDict.getitem name ns) as [v|] eqn:Hv.
  - injection H as <- <-. apply getitem_Some_elem in Hv. by eapply Hok.
  - destruct (parent d) as [p|]; [|done].
    apply bind_ok_inv in H as (po & s1 & Hd & H).
    apply deref_ok_inv in Hd as [Hp ->].
    destruct po; try done; cbn in H; by eapply IH.
Qed.

(** C10.  [Module(name, parent)] appends the module to the store and
    changes no other object: the symbol table of the parent does not get
    the name.  A declaration of any other class that has a name, made with
    a non-empty name and a context as parent, is in the parent's table under
    its name as soon as it is made.  No symbol table ever names a module, in
    the store of a new generator and after each [parse], so lookup, which
    returns entries of symbol tables, never returns a module. *)
Theorem C10_module_not_registered :
  (∀ name parent s,
     Module_new name parent s
     = (Ok (length (heap s)),
        set_heap
          (heap s ++ [ModuleObj (mkDecl parent (Some name)) [] [] [] []]) s)) ∧
  (∀ s p po name,
     heap s !! p = Some po → is_context po = true → name ≠ "" →
     registers (Enumeration_new (Some p) name) s p name ∧
     registers (Function_new (Some p) name) s p name ∧
     (∀ ctype default,
        registers (Parameter_new (Some p) name ctype default) s p name) ∧
     (∀ value, registers (Variable_new (Some p) name value) s p name) ∧
     registers (Struct_new (Some p) name) s p name ∧
     registers (Class_new (Some p) name) s p name ∧
     (∀ pure_virtual,
        registers (Method_new (Some p) name pure_virtual) s p name) ∧
     (∀ value, registers (Attribute_new (Some p) name value) s p name)) ∧
  (∀ name, names_ok (heap (Generator_new name (mkState [] [] [])).2)) ∧
  (∀ name parent s,
     names_ok (heap s) → names_ok (heap (Module_new name parent s).2)) ∧
  (∀ py self filename cursor s r s',
     names_ok (heap s) →
     Generator_parse py self filename cursor s = (r, s') →
     names_ok (heap s')) ∧
  (∀ s context name r s',
     names_ok (heap s) →
     Context_getitem context name s = (Ok r, s') →
     ∃ o, heap s !! r = Some o ∧ class_of o ≠ CModule).
Proof.
  split; [exact Module_new_run|].
  split.
  { intros s p po name Hp Hctx Hname.
    unfold is_context in Hctx.
    destruct (names_of po) as [ns|] eqn:Hns; [|done].
    repeat split; intros; by eapply new_registers. }
  split.
  { intros name. unfold Generator_new, bind. rewrite Module_new_run. cbn.
    intros r o ns k v Hr Hn Hin.
    destruct r; cbn in Hr; [|done]. injection Hr as <-. cbn in Hn.
    injection Hn as <-. by apply elem_of_nil in Hin. }
  split; [exact Module_new_names_ok|].
  split; [exact Generator_parse_names_ok|].
  intros s context name r s'. apply Context_getitem_rec_not_module.
Qed.

Lemma C10_module_not_registered_witness :
  registers (Class_new (Some 0) "Foo") Sample.s0 0 "Foo" ∧
  names_ok (heap (Module_new "bar" (Some 0) Sample.s0).2) ∧
  ∃ o,
    heap (Generator_parse Sample.py Sample.self Sample.file Sample10.tu
            Sample.s0).2 !! 1%nat = Some o ∧
    class_of o ≠ CModule.
Proof.
  destruct C10_module_not_registered
    as (_ & Hreg & Hnew & Hmod & Hparse & Hlookup).
  assert (names_ok (heap Sample.s0)) as Hok by exact (Hnew "foo").
  split; [|split].
  - refine (proj1 (proj2 (proj2 (proj2 (proj2 (proj2
              (Hreg Sample.s0 0 _ "Foo" eq_refl eq_refl _))))))).
    discriminate.
  - exact (Hmod "bar" (Some 0) Sample.s0 Hok).
  - eapply (Hlookup
              (Generator_parse Sample.py Sample.self Sample.file Sample10.tu
                 Sample.s0).2 0 "Foo" 1).
    + eapply Hparse; [exact Hok|]. apply surjective_pairing.
    + vm_compute. reflexivity.
Defined.

(** ** Handlers that only make objects *)

Lemma decl_of_class o o' :
  class_of o' = class_of o → decl_of o = None → decl_of o' = None.
Proof. by destruct o, o'. Qed.

Section Allocates.
Context (n0 : nat).
Implicit Types (s : State).

Lemma allocated_same_heap s s' : heap s' = heap s → allocated n0 s s'.
Proof.
  intros E. split; rewrite E; [done|done|by eauto|].
  intros i o Hi Ho. apply lookup_lt_Some in Ho. lia.
Qed.

Lemma allocated_refl s : allocated n0 s s.
Proof. by apply allocated_same_heap. Qed.

Lemma allocated_trans s1 s2 s3 :
  allocated n0 s1 s2 → allocated n0 s2 s3 → allocated n0 s1 s3.
Proof.
  intros [L1 B1 C1 N1] [L2 B2 C2 N2]. split.
  - lia.
  - intros i Hi. by rewrite B2, B1.
  - intros i o Hi. destruct (C1 i o Hi) as (o1 & H1 & E1).
    destruct (C2 i o1 H1) as (o2 & H2 & E2). exists o2.
    split; [done|congruence].
  - intros i o Hi Ho. destruct (decide (i < length (heap s2))) as [Hlt|Hge].
    + destruct (lookup_lt_is_Some_2 (heap s2) i Hlt) as [o2 Ho2].
      destruct (C2 i o2 Ho2) as (o3 & Ho3 & E3).
      assert (o3 = o) as -> by congruence.
      eapply decl_of_class; [done|]. by eapply N1.
    + eapply N2; [|done]. lia.
Qed.

Lemma allocated_alloc s o :
  n0 ≤ length (heap s) → decl_of o = None →
  allocated n0 s (set_heap (heap s ++ [o]) s).
Proof.
  intros Hn Ho. split; cbn.
  - rewrite length_app. lia.
  - intros i Hi. rewrite lookup_app_l; [done|lia].
  - intros i o1 Hi. exists o1. split; [|done].
    rewrite lookup_app_l; [done|by eapply lookup_lt_Some].
  - intros i o1 Hi Hi1. rewrite lookup_app_r in Hi1 by done.
    apply list_lookup_singleton_Some in Hi1 as [_ <-]. done.
Qed.

Lemma allocated_store s r o o' :
  heap s !! r = Some o → class_of o' = class_of o → n0 ≤ r →
  allocated n0 s (set_heap (<[r := o']> (heap s)) s).
Proof.
  intros Hr Hc Hn.
  assert (r < length (heap s)) as Hlt by by eapply lookup_lt_Some.
  split; cbn.
  - by rewrite length_insert.
  - intros i Hi. rewrite list_lookup_insert_ne; [done|lia].
  - intros i o1 Hi. destruct (decide (i = r)) as [->|Hne].
    + exists o'. rewrite list_lookup_insert_eq by done.
      split; [done|congruence].
    + exists o1. by rewrite list_lookup_insert_ne.
  - intros i o1 Hi Hi1. apply lookup_lt_Some in Hi1.
    rewrite length_insert in Hi1. lia.
Qed.

Lemma allocates_ret {A} (a : A) : allocates n0 (ret a).
Proof. intros s r s' _ [= <- <-]. apply allocated_refl. Qed.

Lemma allocates_raise {A} e : allocates n0 (raise e : Py A).
Proof. intros s r s' _ [= <- <-]. apply allocated_refl. Qed.

Lemma allocates_bind {A B} (m : Py A) (k : A → Py B) :
  allocates n0 m → (∀ a, allocates n0 (k a)) → allocates n0 (bind m k).
Proof.
  intros Hm Hk s r s' Hn. unfold bind.
  destruct (m s) as [[a|e] s1] eqn:E; intros H.
  - eapply allocated_trans; [by eapply Hm|].
    eapply Hk; [|done]. apply Hm in E; [|done]. destruct E. lia.
  - simplify_eq. by eapply Hm.
Qed.

Lemma allocates_try_except {A} (body : Py A) catches handler :
  allocates n0 body → (∀ e, allocates n0 (handler e)) →
  allocates n0 (try_except body catches handler).
Proof.
  intros Hm Hk s r s' Hn. unfold try_except.
  destruct (body s) as [[a|e] s1] eqn:E; intros H.
  - simplify_eq. by eapply Hm.
  - destruct (catches e); [|simplify_eq; by eapply Hm].
    eapply allocated_trans; [by eapply Hm|].
    eapply Hk; [|done]. apply Hm in E; [|done]. destruct E. lia.
Qed.

Lemma allocates_for_each {A} (l : list A) (body : A → Py unit) :
  Forall (λ x, allocates n0 (body x)) l → allocates n0 (for_each l body).
Proof.
  induction 1 as [|x l Hx Hl IH]; [apply allocates_ret|].
  apply (allocates_bind (body x)); [done|]. intros _. apply IH.
Qed.

Lemma allocates_reads {A} (m : Py A) : reads m → allocates n0 m.
Proof.
  intros Hm s r s' _ E. apply allocated_same_heap.
  specialize (Hm s). rewrite E in Hm. cbn in Hm. by subst.
Qed.

Lemma allocates_print_stderr msg : allocates n0 (print_stderr msg).
Proof. intros s r s' _ [= <- <-]. by apply allocated_same_heap. Qed.

Lemma allocates_print_stdout e : allocates n0 (print_stdout e).
Proof. intros s r s' _ [= <- <-]. by apply allocated_same_heap. Qed.

Lemma allocates_alloc_bind {B} o (k : nat → Py B) :
  decl_of o = None →
  (∀ r, n0 ≤ r → allocates n0 (k r)) →
  allocates n0 (bind (alloc o) k).
Proof.
  intros Ho Hk s r s' Hn. unfold bind, alloc. intros H.
  eapply allocated_trans; [by apply allocated_alloc|].
  eapply Hk; [|cbn; rewrite length_app; lia|done]. simplify_eq. done.
Qed.

Lemma allocates_alloc o : decl_of o = None → allocates n0 (alloc o).
Proof. intros Ho s r s' Hn [= <- <-]. by apply allocated_alloc. Qed.

Lemma allocates_update_own r f :
  n0 ≤ r → (∀ o, class_of (f o) = class_of o) → allocates n0 (update r f).
Proof.
  intros Hr Hf s res s' Hn. unfold update, bind, deref.
  destruct (heap s !! r) as [o|] eqn:E; intros [= <- <-].
  - by eapply allocated_store.
  - apply allocated_refl.
Qed.
End Allocates.

Create HintDb allocates discriminated.
#[global] Hint Resolve allocates_ret allocates_raise allocates_print_stderr
  allocates_print_stdout : allocates.

Ltac allocates_auto :=
  repeat first
    [ progress intros
    | progress cbv beta zeta
    | solve [auto with allocates]
    | solve [apply allocates_reads; auto with reads]
    | match goal with
      | H : Forall _ (_ :: _) |- _ => apply Forall_cons in H as [? ?]
      | H : ∀ ctx, allocates _ (?h ?c ctx) |- allocates _ (?h ?c _) =>
          apply H
      | |- allocates _ (for_each _ _) =>
          apply allocates_for_each; eapply Forall_impl; [eassumption|]
      end
    | apply allocates_alloc_bind; [done | ]
    | apply allocates_alloc; done
    | apply allocates_update_own; [done | by intros [] ]
    | apply allocates_try_except
    | match goal with
      | |- allocates _ (match ?x with _ => _ end) => destruct x
      | |- allocates _ (if ?x then _ else _) => destruct x
      end
    | apply allocates_bind ].

Lemma plain_children (P : Node → Prop) children :
  Forall (λ c, plain c = true → P c) children →
  forallb plain children = true → Forall P children.
Proof.
  induction 1 as [|c children Hc Hch IH]; [done|]. cbn.
  intros [H1 H2]%andb_prop. constructor; auto.
Qed.

Section PlainHandlers.
Context (py : Builtins) (self : Generator).
Context (handle : Node → Value → Py Value) (n0 : nat).

Lemma allocates_FunctionCall_add_argument fn argument :
  n0 ≤ fn → allocates n0 (FunctionCall_add_argument fn argument).
Proof. intros Hfn. unfold FunctionCall_add_argument. allocates_auto. Qed.

Lemma allocates_dispatch node context :
  plain node = true →
  Forall (λ c, plain c = true → ∀ ctx, allocates n0 (handle c ctx))
    (get_children node) →
  allocates n0 (dispatch py self handle node context).
Proof.
  intros Hplain Hch. unfold dispatch.
  apply allocates_bind; [apply allocates_reads, reads_in_files|].
  intros [|]; [|allocates_auto].
  unfold call_handler.
  destruct node as [k sp lf tk rk pv ev toks children].
  cbn -[plain] in Hch. cbn [kind]. change (get_children _) with children.
  destruct k; try discriminate Hplain; cbn in Hplain.
  all: try (assert (Forall (λ c, ∀ ctx, allocates n0 (handle c ctx)) children)
              as Hch' by (by eapply plain_children)).
  all: clear Hch Hplain.
  all: unfold handle_unexposed_decl, handle_typedef_decl,
      handle_cxx_access_spec_decl, handle_type_ref, handle_member_ref,
      handle_unexposed_expr, handle_decl_ref_expr, handle_member_ref_expr,
      handle_call_expr, handle_integer_literal, handle_floating_literal,
      handle_string_literal, handle_character_literal, handle_paren_expr,
      handle_unary_operator, handle_binary_operator,
      handle_conditional_operator, handle_cxx_functional_cast_expr,
      handle_cxx_this_expr, handle_cxx_new_expr, handle_return_stmt;
    cbn [get_children get_tokens spelling type_kind].
  all: try solve [allocates_auto].
Qed.
End PlainHandlers.

(** An expression or return statement makes objects and touches nothing
    else, whatever its context. *)
Lemma handle_allocates py self node :
  plain node = true →
  ∀ n0 context, allocates n0 (handle py self node context).
Proof.
  induction node as [node IH] using Node_tree_ind.
  intros Hplain n0 context s r s' Hn. rewrite handle_unfold.
  revert s r s' Hn. apply allocates_dispatch; [done|].
  eapply Forall_impl; [exact IH|]. cbn. auto.
Qed.

(** ** A constructor declared in its class and defined outside it *)

Lemma snoc_append cur a s : PyStr.snoc cur a +:+ s = cur +:+ String a s.
Proof.
  unfold PyStr.snoc. by rewrite append_assoc, append_cons, append_nil_l.
Qed.

Lemma append_eqb_nil cur a s : String.eqb (cur +:+ String a s) "" = false.
Proof. destruct cur; by rewrite ?append_nil_l, ?append_cons. Qed.

Lemma split_ws_go_no_space s cur :
  no_space s = true →
  PyStr.split_ws_go s cur
  = if String.eqb (cur +:+ s) "" then [] else [cur +:+ s].
Proof.
  revert cur. induction s as [|a s IH]; intros cur Hs; cbn.
  - by rewrite append_nil_r.
  - cbn in Hs. apply andb_prop in Hs as [Ha Hs].
    apply negb_true_iff in Ha. rewrite Ha, IH by done.
    by rewrite snoc_append.
Qed.

Lemma split_ws_class cname :
  identifier cname = true →
  PyStr.split_ws ("class " +:+ cname) = ["class"; cname].
Proof.
  intros [Hne Hs]%andb_prop. unfold PyStr.split_ws.
  rewrite !append_cons, append_nil_l. cbn.
  rewrite split_ws_go_no_space by done. rewrite append_nil_l.
  apply negb_true_iff in Hne. by rewrite Hne.
Qed.

Lemma identifier_nonempty cname : identifier cname = true → cname ≠ "".
Proof.
  intros [Hne Hs]%andb_prop. apply negb_true_iff in Hne.
  by apply String.eqb_neq.
Qed.

Lemma set_heap_set_heap h h' s : set_heap h' (set_heap h s) = set_heap h' s.
Proof. done. Qed.

Lemma set_heap_id s : set_heap (heap s) s = s.
Proof. by destruct s. Qed.

Lemma in_files_node py self file k name children s :
  file ≠ "" → abspath py file ∈ filenames self →
  in_files py self (located file k name children) s = (Ok true, s).
Proof. intros. by eapply in_files_located. Qed.

Lemma Declaration_init_constructor self c d ns ps ss name s :
  heap s !! c = Some (ConstructorObj d ns ps ss) →
  Declaration_init self (Some c) (Some name) s
  = (Ok tt,
     set_heap (<[c := ConstructorObj d (declare name self ns) ps ss]> (heap s))
       s).
Proof.
  intros Hc. unfold Declaration_init, declare.
  destruct (PyStr.truthy (Some name)).
  - eapply bind_run; [by apply deref_run|]. done.
  - rewrite list_insert_id by done. by rewrite set_heap_id.
Qed.

(** A parameter of a constructor: a new object, declared in the symbol
    table of the constructor. *)
Lemma handle_parameter_run py self file p c d ns ps ss s :
  file ≠ "" → abspath py file ∈ filenames self →
  heap s !! c = Some (ConstructorObj d ns ps ss) →
  handle py self (located file CursorKind.PARM_DECL p []) (Some c) s
  = (Ok (Some (length (heap s))),
     set_heap
       (<[c := ConstructorObj d (declare p (length (heap s)) ns) ps ss]>
          (heap s)
        ++ [ParameterObj (mkDecl (Some c) (Some p)) None None]) s).
Proof.
  intros Hne Hin Hc. rewrite handle_known by by apply in_files_node.
  cbn. unfold handle_parm_decl, Parameter_new. cbn.
  eapply bind_run.
  { eapply bind_run; [apply alloc_run|].
    eapply bind_run; [|reflexivity].
    apply Declaration_init_constructor. by apply heap_alloc_old. }
  cbn. unfold ret. apply lookup_lt_Some in Hc. by rewrite insert_app_l.
Qed.

Lemma insert_insert_app {A} c (x y : A) h t :
  c < length h → <[c := x]> (<[c := y]> h ++ t) = <[c := x]> h ++ t.
Proof.
  intros Hc. rewrite insert_app_l by by rewrite length_insert.
  by rewrite list_insert_insert_eq.
Qed.

Lemma add_to_context_parameter_run p dp ct df c d ns ps ss s :
  heap s !! p = Some (ParameterObj dp ct df) →
  heap s !! c = Some (ConstructorObj d ns ps ss) →
  add_to_context p (Some c) s
  = (Ok tt,
     set_heap (<[c := ConstructorObj d ns (ps ++ [p]) ss]> (heap s)) s).
Proof.
  intros Hp Hc. unfold add_to_context.
  eapply bind_run; [by apply deref_run|]. cbn. unfold add_parameter.
  eapply bind_run; [by apply receiver_run|]. done.
Qed.

Lemma for_each_with_cons {S A V} (x : A) l (v : V) (body : V → A → M S V) :
  for_each_with (x :: l) v body
  = bind (body v x) (λ v', for_each_with l v' body).
Proof. done. Qed.

Lemma for_each_cons {S A} (x : A) l (body : A → M S unit) :
  for_each (x :: l) body = bind (body x) (λ _, for_each l body).
Proof. done. Qed.

Section ConstructorLoops.
Context (py : Builtins) (self : Generator) (file : string).
Context (Hfile : file ≠ "") (Hin : abspath py file ∈ filenames self).
Context (context : Value).

(** The parameters of the prototype: every one is a new object, declared
    in the symbol table of the constructor and added to its parameters. *)
Lemma prototype_parameters_run c d ss params : ∀ ns ps s,
  heap s !! c = Some (ConstructorObj d ns ps ss) →
  for_each_with (parameters file params) (Some c) (constructor_round py self context true) s
  = (Ok (Some c),
     set_heap
       (<[c := ConstructorObj d (declare_all params (length (heap s)) ns)
                 (ps ++ seq (length (heap s)) (length params)) ss]> (heap s)
        ++ Parameter_objects c params) s).
Proof.
  induction params as [|p params IH]; intros ns ps s Hc.
  - cbn. unfold ret. rewrite !app_nil_r, list_insert_id by done.
    by rewrite set_heap_id.
  - assert (c < length (heap s)) as Hlt by by eapply lookup_lt_Some.
    cbn [parameters map]. rewrite for_each_with_cons. eapply bind_run.
    { unfold constructor_round. eapply bind_run.
      { by apply handle_parameter_run. }
      cbn [orb]. eapply bind_run; [|reflexivity].
      eapply add_to_context_parameter_run; cbn.
      - rewrite lookup_app_r by by rewrite length_insert.
        by rewrite length_insert, Nat.sub_diag.
      - rewrite lookup_app_l by by rewrite length_insert.
        by apply list_lookup_insert_eq. }
    cbn [heap set_heap stderr stdout]. rewrite insert_insert_app by done.
    erewrite IH; cycle 1.
    { cbn. rewrite lookup_app_l by by rewrite length_insert.
      by apply list_lookup_insert_eq. }
    cbn [heap set_heap stderr stdout].
    rewrite length_app, length_insert, Nat.add_1_r.
    rewrite insert_insert_app by done.
    by rewrite <- !(assoc_L (++)).
Qed.

(** The parameters of the definition: every one is a new object, declared
    in the symbol table of the constructor, and that is all. *)
Lemma definition_parameters_run c d ps ss params : ∀ ns s,
  heap s !! c = Some (ConstructorObj d ns ps ss) →
  for_each_with (parameters file params) (Some c) (constructor_round py self context false) s
  = (Ok (Some c),
     set_heap
       (<[c := ConstructorObj d (declare_all params (length (heap s)) ns)
                 ps ss]> (heap s)
        ++ Parameter_objects c params) s).
Proof.
  induction params as [|p params IH]; intros ns s Hc.
  - cbn. unfold ret. rewrite !app_nil_r, list_insert_id by done.
    by rewrite set_heap_id.
  - assert (c < length (heap s)) as Hlt by by eapply lookup_lt_Some.
    cbn [parameters map]. rewrite for_each_with_cons. eapply bind_run.
    { unfold constructor_round. eapply bind_run.
      { by apply handle_parameter_run. }
      reflexivity. }
    erewrite IH; cycle 1.
    { cbn. rewrite lookup_app_l by by rewrite length_insert.
      by apply list_lookup_insert_eq. }
    cbn [heap set_heap stderr stdout].
    rewrite length_app, length_insert, Nat.add_1_r.
    rewrite insert_insert_app by done.
    by rewrite <- !(assoc_L (++)).
Qed.
End ConstructorLoops.

Lemma insert_app_at {A} (h : list A) (x y : A) t :
  <[length h := x]> (h ++ y :: t) = h ++ x :: t.
Proof.
  rewrite insert_app_r_alt by done. by rewrite Nat.sub_diag.
Qed.

Lemma insert_app_at_1 {A} (h : list A) (x y z : A) t :
  <[S (length h) := x]> (h ++ z :: y :: t) = h ++ z :: x :: t.
Proof.
  rewrite insert_app_r_alt by lia.
  by replace (S (length h) - length h) with 1 by lia.
Qed.

Lemma lookup_app_at {A} (h : list A) (x : A) t :
  (h ++ x :: t) !! length h = Some x.
Proof. by rewrite lookup_app_r, Nat.sub_diag. Qed.

Lemma lookup_app_at_1 {A} (h : list A) (x y : A) t :
  (h ++ y :: x :: t) !! S (length h) = Some x.
Proof.
  rewrite lookup_app_r by lia.
  by replace (S (length h) - length h) with 1 by lia.
Qed.

Section Prototype.
Context (py : Builtins) (self : Generator) (file : string).
Context (Hfile : file ≠ "") (Hin : abspath py file ∈ filenames self).

Lemma handle_constructor_unfold node context :
  handle_constructor (handle py self) node context
  = (is_prototype <- isinstance_Class context ;;
     constructor0 <- (if is_prototype
                      then c <- Constructor_new context ;; ret (Some c)
                      else ret None) ;;
     constructor <- for_each_with (get_children node) constructor0
                      (constructor_round py self context is_prototype) ;;
     if is_prototype then ret constructor else ret None)%py.
Proof. done. Qed.

(** The prototype in its class: a new constructor, with one new object for
    every parameter. *)
Lemma constructor_prototype_run cname params k dk nsk sup ctor dtor at_ me s :
  heap s !! k = Some (ClassObj dk nsk sup ctor dtor at_ me) →
  let c := length (heap s) in
  handle py self
    (located file CursorKind.CONSTRUCTOR cname (parameters file params))
    (Some k) s
  = (Ok (Some c),
     set_heap
       (heap s
        ++ [ConstructorObj (mkDecl (Some k) None)
              (declare_all params (S c) []) (seq (S c) (length params))
              None]
        ++ Parameter_objects c params) s).
Proof.
  intros Hk c. rewrite handle_known by by apply in_files_node.
  cbn [call_handler kind located]. rewrite handle_constructor_unfold.
  cbn [get_children located].
  eapply bind_run; [by apply isinstance_Class_run|]. cbn beta iota.
  eapply bind_run.
  { eapply bind_run; [apply Constructor_new_run|]. reflexivity. }
  eapply bind_run.
  { eapply prototype_parameters_run; [done|done|]. cbn. apply lookup_app_at. }
  cbn [heap set_heap stderr stdout]. unfold ret.
  rewrite insert_app_at, length_app, Nat.add_1_r. cbn [app].
  by rewrite <- (assoc_L (++)).
Qed.

(** The class and the prototype of its constructor: the class is [k], the
    next reference, and is declared in the module; the constructor is the
    reference after it. *)
Lemma class_with_prototype_run cname params m dm nsm dsm im sm s :
  cname ≠ "" →
  heap s !! m = Some (ModuleObj dm nsm dsm im sm) →
  let k := length (heap s) in
  let c := S k in
  handle py self (class_with_prototype file cname params) (Some m) s
  = (Ok (Some k),
     set_heap
       (<[m := ModuleObj dm (OrderedDict.setitem cname k nsm) dsm im sm]>
          (heap s)
        ++ [ClassObj (mkDecl (Some m) (Some cname)) [] None (Some c) None
              [] [];
            ConstructorObj (mkDecl (Some k) None)
              (declare_all params (S c) []) (seq (S c) (length params))
              None]
        ++ Parameter_objects c params) s).
Proof.
  intros Hne Hm k c.
  assert (m < length (heap s)) as Hlt by by eapply lookup_lt_Some.
  unfold class_with_prototype.
  rewrite handle_known by by apply in_files_node.
  cbn [call_handler kind located]. unfold handle_class_decl.
  cbn [spelling get_children located].
  eapply bind_run.
  { unfold Class_new. eapply bind_run; [apply alloc_run|].
    eapply bind_run; [|reflexivity].
    unfold Declaration_init. rewrite truthy_nonempty by done.
    eapply bind_run; [apply deref_run; by apply heap_alloc_old|].
    reflexivity. }
  cbn [set_names heap set_heap stderr stdout].
  rewrite insert_app_l by done.
  set (h0 := <[m := _]> (heap s)).
  assert (length h0 = k) as Hk by (unfold h0; by rewrite length_insert).
  eapply bind_run; [|reflexivity].
  rewrite for_each_cons. eapply bind_run; [|reflexivity].
  eapply bind_run.
  { eapply constructor_prototype_run. cbn. fold k. rewrite <- Hk.
    apply lookup_app_at. }
  cbn [heap set_heap stderr stdout].
  rewrite length_app, Nat.add_1_r, Hk. fold c.
  erewrite add_to_context_constructor_run; cycle 1.
  { cbn. rewrite <- (assoc_L (++)). cbn [app]. unfold c. rewrite <- Hk.
    apply lookup_app_at_1. }
  { done. }
  { cbn. fold k. rewrite <- (assoc_L (++)). cbn [app]. rewrite <- Hk.
    apply lookup_app_at. }
  unfold with_obj. cbn [heap set_heap stderr stdout].
  rewrite <- (assoc_L (++)). cbn [app]. fold k. rewrite <- Hk at 1.
  by rewrite insert_app_at.
Qed.
End Prototype.

Lemma for_each_with_app {S A V} (l1 l2 : list A) (v : V)
    (body : V → A → M S V) s :
  for_each_with (l1 ++ l2) v body s
  = bind (for_each_with l1 v body) (λ v', for_each_with l2 v' body) s.
Proof.
  revert v s. induction l1 as [|x l1 IH]; intros v s; [done|].
  cbn [app]. rewrite !for_each_with_cons. unfold bind.
  destruct (body v x s) as [[v'|e] s1]; [|done]. apply IH.
Qed.

Lemma add_to_context_class_run k p cname nsk sup ctor dtor at_ me
    m dm nsm dsm im sm s :
  heap s !! k
  = Some (ClassObj (mkDecl p (Some cname)) nsk sup ctor dtor at_ me) →
  heap s !! m = Some (ModuleObj dm nsm dsm im sm) →
  add_to_context k (Some m) s
  = (Ok tt,
     set_heap
       (<[m := ModuleObj dm nsm (OrderedDict.setitem (Some cname) k dsm)
                 im sm]> (heap s)) s).
Proof.
  intros Hk Hm. assert (k ≠ m) as Hkm by congruence.
  unfold add_to_context. eapply bind_run; [by apply deref_run|].
  cbn beta iota. unfold add_declaration.
  eapply bind_run; [by apply receiver_run|]. cbn beta iota.
  eapply bind_run.
  { unfold getattr_name. eapply bind_run; [by apply deref_run|]. done. }
  eapply bind_run; [reflexivity|]. unfold add_imports.
  eapply bind_run.
  { apply deref_run. cbn. by rewrite list_lookup_insert_ne. }
  done.
Qed.

Lemma bind_bind_run {S A B C} (m : M S A) (k : A → M S B) (k2 : B → M S C)
    s a s1 :
  m s = (Ok a, s1) → bind (bind m k) k2 s = bind (k a) k2 s1.
Proof. intros E. unfold bind. by rewrite E. Qed.

Lemma bind_congr {S A B} (m m' : M S A) (k : A → M S B) s :
  m s = m' s → bind m k s = bind m' k s.
Proof. intros E. unfold bind. by rewrite E. Qed.

Section Definition_.
Context (py : Builtins) (self : Generator) (file : string).
Context (Hfile : file ≠ "") (Hin : abspath py file ∈ filenames self).

(** The definition outside the class: the reference to the class is a new
    object, the constructor is looked up through it, every parameter is a
    new object declared in the symbol table of the constructor, and then the
    body is handled as a block in the context of that constructor. *)
Lemma constructor_definition_run cname params body
    m dm nsm dsm im sm k dk nsk sup c dtor at_ me d ns ps ss s :
  identifier cname = true →
  heap s !! m = Some (ModuleObj dm nsm dsm im sm) →
  OrderedDict.getitem cname nsm = Some k →
  heap s !! k = Some (ClassObj dk nsk sup (Some c) dtor at_ me) →
  heap s !! c = Some (ConstructorObj d ns ps ss) →
  handle py self (constructor_definition file cname params body) (Some m) s
  = handle_compound_stmt (handle py self)
      (located file CursorKind.COMPOUND_STMT "" body) (Some c)
      (set_heap
         (<[c := ConstructorObj d
                   (declare_all params (S (length (heap s))) ns) ps ss]>
            (heap s)
          ++ [ReferenceObj cname] ++ Parameter_objects c params) s).
Proof.
  intros Hid Hm Hget Hk Hc.
  assert (c < length (heap s)) as Hlt by by eapply lookup_lt_Some.
  unfold constructor_definition.
  rewrite handle_known by by apply in_files_node.
  cbn [call_handler kind located]. rewrite handle_constructor_unfold.
  cbn [get_children located].
  eapply bind_run; [by apply isinstance_Class_run|]. cbn beta iota.
  eapply bind_run; [reflexivity|].
  rewrite for_each_with_cons.
  erewrite bind_bind_run; cycle 1.
  { unfold constructor_round. eapply bind_run.
    { rewrite handle_known by by apply in_files_node.
      cbn [call_handler kind located]. unfold handle_type_ref.
      unfold located. cbn [spelling]. rewrite split_ws_class by done.
      cbn [lookup list_lookup].
      eapply bind_run; [apply alloc_run|]. reflexivity. }
    eapply bind_run.
    { unfold getattr_ref. eapply bind_run.
      - apply receiver_run. apply heap_alloc_new.
      - reflexivity. }
    eapply bind_run.
    { unfold getitem. eapply bind_run.
      - apply deref_run. by apply heap_alloc_old.
      - cbn [names_of]. unfold Context_getitem. cbn [Context_getitem_rec].
        eapply bind_run.
        + apply deref_run. by apply heap_alloc_old.
        + cbn [names_of decl_of]. rewrite Hget. reflexivity. }
    unfold getattr_constructor. eapply bind_run.
    - apply deref_run. by apply heap_alloc_old.
    - reflexivity. }
  erewrite bind_congr by apply for_each_with_app.
  erewrite bind_bind_run; cycle 1.
  { eapply definition_parameters_run; [done|done|]. by apply heap_alloc_old. }
  cbn [heap set_heap stderr stdout].
  rewrite length_app, Nat.add_1_r, insert_app_l by done.
  rewrite <- (assoc_L (++)), set_heap_set_heap.
  match goal with
  | |- _ = handle_compound_stmt _ _ _ ?s' => generalize s'
  end.
  intros s1. rewrite for_each_with_cons.
  erewrite bind_congr; cycle 1.
  { apply bind_congr. unfold constructor_round. apply bind_congr.
    apply handle_known. by apply in_files_node. }
  cbn [call_handler kind located].
  unfold handle_compound_stmt, bind. cbn [get_children].
  match goal with
  | |- context [for_each ?l ?f s1] =>
      by destruct (for_each l f s1) as [[[]|e] s']
  end.
Qed.
End Definition_.

Lemma no_new_constructor_refl s : no_new_constructor s s.
Proof. intros i o Hi Ho. eauto. Qed.

Lemma no_new_constructor_trans s1 s2 s3 :
  no_new_constructor s1 s2 → no_new_constructor s2 s3 →
  no_new_constructor s1 s3.
Proof.
  intros H1 H2 i o Hi Ho. destruct (H2 i o Hi Ho) as (o2 & Hi2 & Ho2). eauto.
Qed.

Lemma allocated_no_new_constructor n0 s s' :
  allocated n0 s s' → no_new_constructor s s'.
Proof.
  intros [L B C N] i o Hi Ho.
  destruct (decide (i < length (heap s))) as [Hlt|Hge].
  - destruct (lookup_lt_is_Some_2 (heap s) i Hlt) as [o0 Ho0].
    destruct (C i o0 Ho0) as (o' & Ho' & E). exists o0.
    split; [done|congruence].
  - assert (decl_of o = None) as Hd by (eapply N; [|done]; lia).
    by destruct o.
Qed.

Lemma add_imports_constructor st c d ns ps ss s res s' :
  heap s !! c = Some (ConstructorObj d ns ps ss) →
  add_imports st (Some c) s = (res, s') → s' = s.
Proof.
  intros Hc. unfold add_imports, bind, deref.
  destruct (heap s !! st) as [o|]; [|by intros [= <- <-]].
  destruct o; try by intros [= <- <-].
  unfold add_import, bind, receiver, bind, deref. rewrite Hc.
  by intros [= <- <-].
Qed.

Lemma add_statement_constructor_inv c d ns ps ss st s res s' :
  heap s !! c = Some (ConstructorObj d ns ps ss) →
  add_statement (Some c) st s = (res, s') →
  s' = set_heap
         (<[c := ConstructorObj d ns ps (append_statement ss st)]> (heap s))
         s.
Proof.
  intros Hc. unfold add_statement.
  erewrite bind_run; [|by apply receiver_run|reflexivity]. cbn beta iota.
  erewrite bind_run; [|reflexivity|reflexivity].
  apply add_imports_constructor with (d := d) (ns := ns) (ps := ps)
    (ss := append_statement ss st).
  cbn. apply list_lookup_insert_eq. by eapply lookup_lt_Some.
Qed.

(** A block of expressions and return statements in the context of the
    constructor [c]: statements are added to [c], objects are made, and
    nothing else happens to the objects below [n0]. *)
Lemma block_plain_run py self c d ns ps n0 body :
  forallb plain body = true → c < n0 →
  ∀ ss s res s',
    n0 ≤ length (heap s) →
    heap s !! c = Some (ConstructorObj d ns ps ss) →
    for_each body
      (λ child,
         statement <- handle py self child (Some c) ;;
         match statement with
         | Some st => add_statement (Some c) st
         | None => ret tt
         end)%py s = (res, s') →
    ∃ stmts,
      length stmts ≤ length body ∧
      heap s' !! c
      = Some (ConstructorObj d ns ps (foldl append_statement ss stmts)) ∧
      (∀ i, i < n0 → i ≠ c → heap s' !! i = heap s !! i) ∧
      no_new_constructor s s' ∧
      length (heap s) ≤ length (heap s').
Proof.
  intros Hbody Hc. induction body as [|child body IH];
    intros ss s res s' Hn Hs.
  { intros [= <- <-]. exists []. cbn.
    eauto using no_new_constructor_refl. }
  cbn in Hbody. apply andb_prop in Hbody as [Hchild Hbody].
  specialize (IH Hbody). rewrite for_each_cons. unfold bind at 1 2.
  destruct (handle py self child (Some c) s) as [r1 s1] eqn:E1.
  assert (allocated n0 s s1) as Hal
    by (eapply (handle_allocates py self child); eauto).
  assert (heap s1 !! c = Some (ConstructorObj d ns ps ss)) as Hs1
    by (by rewrite (allocated_below _ _ _ Hal)).
  assert (n0 ≤ length (heap s1)) as Hn1
    by (pose proof (allocated_length _ _ _ Hal); lia).
  assert (no_new_constructor s s1) as Hnew
    by by eapply allocated_no_new_constructor.
  destruct r1 as [[st|]|e].
  - destruct (add_statement (Some c) st s1) as [r3 s2] eqn:E3.
    apply (add_statement_constructor_inv _ _ _ _ _ _ _ _ _ Hs1) in E3 as Hs3.
    assert (heap s2 !! c
            = Some (ConstructorObj d ns ps (append_statement ss st)))
      as Hs2.
    { subst s2. cbn. apply list_lookup_insert_eq. by eapply lookup_lt_Some. }
    assert (no_new_constructor s s2) as Hnew2.
    { eapply no_new_constructor_trans; [exact Hnew|].
      intros i o Hi Ho. subst s2. cbn in Hi.
      destruct (decide (i = c)) as [->|Hne].
      - eexists. by split.
      - rewrite list_lookup_insert_ne in Hi by done. eauto. }
    assert (∀ i, i < n0 → i ≠ c → heap s2 !! i = heap s !! i) as Hfr2.
    { intros i Hi Hne. subst s2. cbn. rewrite list_lookup_insert_ne by done.
      by apply (allocated_below _ _ _ Hal). }
    assert (length (heap s) ≤ length (heap s2)) as Hlen2.
    { subst s2. cbn. rewrite length_insert.
      apply (allocated_length _ _ _ Hal). }
    destruct r3 as [[]|e].
    + intros Hrest. eapply IH in Hrest; [|lia|done].
      destruct Hrest as (stmts & Hl & Hc' & Hfr & Hnn & Hlen).
      exists (st :: stmts). cbn. split_and!; [lia|done| | |lia].
      * intros i Hi Hne. rewrite Hfr by done. by apply Hfr2.
      * by eapply no_new_constructor_trans.
    + intros [= <- <-]. exists [st]. cbn. split_and!; [lia|done..].
  - cbn. intros Hrest. eapply IH in Hrest; [|done..].
    destruct Hrest as (stmts & Hl & Hc' & Hfr & Hnn & Hlen).
    exists stmts. cbn. split_and!; [lia|done| | |].
    + intros i Hi Hne. rewrite Hfr by done. by apply (allocated_below _ _ _ Hal).
    + by eapply no_new_constructor_trans.
    + pose proof (allocated_length _ _ _ Hal). lia.
  - intros [= <- <-]. exists []. cbn. split_and!; [lia|done| |done|].
    + intros i Hi Hne. by apply (allocated_below _ _ _ Hal).
    + apply (allocated_length _ _ _ Hal).
Qed.

Lemma Parameter_objects_class c params :
  Forall (λ o, class_of o ≠ CConstructor) (Parameter_objects c params).
Proof. unfold Parameter_objects. apply Forall_map, Forall_true. done. Qed.

Lemma insert_app_at_1' {A} (h : list A) i (x y z : A) t :
  i = S (length h) → <[i := x]> (h ++ z :: y :: t) = h ++ z :: x :: t.
Proof. intros ->. apply insert_app_at_1. Qed.



(** * Further properties of the code *)

(** ** The code writer *)

Lemma times_add s a b :
  PyStr.times s a +:+ PyStr.times s b = PyStr.times s (a + b).
Proof.
  induction a as [|a IH]; [done|]. cbn [PyStr.times Nat.add].
  by rewrite append_assoc, IH.
Qed.

(** X1.  [CodeWriter.clear_block]: two calls in a row are one call with the
    larger of the two counts, on every writer; and a call on a writer whose
    line is ended and whose counter has reached the count writes nothing -
    a new writer is one for every count up to 2, so that a file never starts
    with blank lines. *)
Theorem clear_block_compose :
  (∀ (a b : Z) (w : CodeWriter),
     CodeWriter_clear_block b (CodeWriter_clear_block a w)
     = CodeWriter_clear_block (Z.max a b) w) ∧
  (∀ (n : Z) (w : CodeWriter),
     line_cleared w = true → (n <= block_cleared w)%Z →
     CodeWriter_clear_block n w = w) ∧
  (∀ (n : Z) (content : string),
     (n <= 2)%Z →
     CodeWriter_clear_block n (CodeWriter_new content)
     = CodeWriter_new content).
Proof.
  assert (∀ (n : Z) (w : CodeWriter),
            line_cleared w = true → (n <= block_cleared w)%Z →
            CodeWriter_clear_block n w = w) as Hnone.
  { intros n [o l b] Hl Hn. cbn in Hl, Hn. subst l.
    rewrite clear_block_spec. cbn.
    replace (Z.to_nat (n - b)) with 0%nat by lia.
    cbn. rewrite append_nil_r. f_equal. lia. }
  split_and!; [|done|].
  - intros a b w.
    rewrite (clear_block_spec b (CodeWriter_clear_block a w)).
    rewrite !clear_block_spec. cbn.
    set (w' := CodeWriter_clear_line w).
    rewrite append_assoc, times_add. f_equal; [|lia]. do 2 f_equal. lia.
  - intros n content Hn. by apply Hnone.
Qed.

Lemma clear_block_compose_witness :
  CodeWriter_clear_block 2
    (CodeWriter_clear_block 1 (CodeWriter_write "pass" (CodeWriter_new "")))
  = CodeWriter_clear_block 2 (CodeWriter_write "pass" (CodeWriter_new "")) ∧
  CodeWriter_clear_block 1 (mkCodeWriter "x" true 2)
  = mkCodeWriter "x" true 2 ∧
  CodeWriter_clear_block 2 (CodeWriter_new "") = CodeWriter_new "".
Proof.
  destruct clear_block_compose as (Hmax & Hnone & Hnew).
  split_and!.
  - exact (Hmax 1%Z 2%Z (CodeWriter_write "pass" (CodeWriter_new ""))).
  - apply Hnone; [reflexivity|]. cbn. lia.
  - apply Hnew. lia.
Defined.

(** ** Emission *)

(** X2.  No [output] method takes back what is written: whatever the
    object, the depth and the fuel, and whether the call returns or raises,
    the text of the writer afterwards is the text before with something
    after it.  So is the text of [Generator.output] on a stream that holds
    [content]. *)
Theorem output_only_appends :
  (∀ h fuel x depth (w : CodeWriter),
     ∃ text, out (output h fuel x depth w).2 = out w +:+ text) ∧
  (∀ self h content,
     ∃ text, out (Generator_output self h content).2 = content +:+ text).
Proof.
  split.
  - intros h fuel x depth w.
    destruct (output h fuel x depth w) as [r w'] eqn:E.
    by apply appends_output in E.
  - intros self h content. unfold Generator_output.
    destruct (output h _ _ _ _) as [r w'] eqn:E.
    by apply appends_output in E.
Qed.

(** ** What a handler leaves in place *)

(** X3.  [Generator.handle], on any node, in any context and state, whether
    it returns or raises: no object is taken from the store, every object
    keeps its class, and an object that is no [Context] - an expression, a
    statement, a parameter, a variable, an attribute - is after the call
    what it was before. *)
Theorem handle_keeps_objects py self node context s :
  let s' := (handle py self node context s).2 in
  length (heap s) ≤ length (heap s') ∧
  (∀ r o, heap s !! r = Some o →
          ∃ o', heap s' !! r = Some o' ∧ class_of o' = class_of o) ∧
  (∀ r o, heap s !! r = Some o → is_context o = false →
          heap s' !! r = Some o).
Proof.
  destruct (handle py self node context s) as [res s'] eqn:E. cbn.
  apply handle_grows in E as [L C F N]. split_and!; [done|done|].
  intros r o Hr Ho. apply F; [|done..]. by eapply lookup_lt_Some.
Qed.

Lemma handle_keeps_objects_witness :
  heap (handle Sample.py Sample.self Sample10.tu (Some 0) Sample.s0).2 !! 0
  ≠ None.
Proof.
  destruct (handle_keeps_objects Sample.py Sample.self Sample10.tu (Some 0)
              Sample.s0) as (_ & Hclass & _).
  destruct (Hclass 0 _ eq_refl) as (o' & Ho' & _).
  rewrite Ho'. discriminate.
Defined.

(** ** Nodes that are passed over *)

Lemma in_files_known py self node s :
  known py self node = true → in_files py self node s = (Ok true, s).
Proof.
  unfold known, in_files. intros H. case_bool_decide; [done|].
  cbn in H. destruct (location_file node); [|done]. by rewrite H.
Qed.

Lemma in_files_foreign py self node s :
  foreign py self node = true → in_files py self node s = (Ok false, s).
Proof.
  unfold foreign, known, in_files. intros [H1 H2]%andb_prop.
  apply negb_true_iff in H1. case_bool_decide; [done|]. cbn in H1.
  destruct (location_file node); [|done]. by rewrite H1.
Qed.

Lemma handle_foreign py self node context s :
  foreign py self node = true →
  handle py self node context s
  = (Ok None,
     mkState (heap s)
       (stderr s ++ ["Ignoring node in file "
                     +:+ PyStr.fmt (location_file node)])
       (stdout s)).
Proof.
  intros H. rewrite handle_unfold. unfold dispatch.
  eapply bind_run; [by apply in_files_foreign|]. done.
Qed.

Lemma handle_unhandled py self node name context s :
  known py self node = true → kind node = CursorKind.UNHANDLED name →
  handle py self node context s
  = (Ok None,
     mkState (heap s)
       (stderr s ++ ["Ignoring node of type CursorKind." +:+ name])
       (stdout s)).
Proof.
  intros H Hk. rewrite handle_known by by apply in_files_known.
  unfold call_handler. by rewrite Hk.
Qed.

Lemma handle_passed_over py self node context s :
  foreign py self node || unhandled py self node = true →
  ∃ s', handle py self node context s = (Ok None, s') ∧ reported 1 s s'.
Proof.
  intros [H|H]%orb_prop.
  - eexists. split; [by apply handle_foreign|].
    split_and!; [done|done|]. cbn. by rewrite length_app.
  - apply andb_prop in H as [H1 H2].
    destruct (kind node) as [| | | | | | | | | | | | | | | | | | | | | | | | |
      | | | | | | | | | | | |name] eqn:Hk; try done.
    eexists. split; [by eapply handle_unhandled|].
    split_and!; [done|done|]. cbn. by rewrite length_app.
Qed.

Lemma reported_refl s : reported 0 s s.
Proof. split_and!; [done|done|lia]. Qed.

Lemma reported_trans a b s1 s2 s3 :
  reported a s1 s2 → reported b s2 s3 → reported (a + b) s1 s3.
Proof.
  intros (H1 & H2 & H3) (H4 & H5 & H6). split_and!; [congruence..|lia].
Qed.

Lemma translation_unit_passed_over py self children (tu : Value) : ∀ s,
  Forall (λ c, foreign py self c || unhandled py self c = true) children →
  ∃ s',
    for_each children
      (λ child,
         decl <- handle py self child tu ;;
         match decl with
         | Some d => add_to_context d tu
         | None => ret tt
         end)%py s = (Ok tt, s') ∧
    reported (length children) s s'.
Proof.
  induction children as [|c children IH]; intros s Hall.
  - exists s. split; [done|apply reported_refl].
  - apply Forall_cons in Hall as [Hc Hall].
    destruct (handle_passed_over py self c tu s Hc) as (s1 & E1 & R1).
    destruct (IH s1 Hall) as (s2 & E2 & R2).
    exists s2. split.
    + rewrite for_each_cons. eapply bind_run.
      { eapply bind_run; [exact E1|reflexivity]. }
      exact E2.
    + exact (reported_trans 1 _ _ _ _ R1 R2).
Qed.

Lemma Generator_new_run name :
  Generator_new name (mkState [] [] [])
  = (Ok (mkGenerator 0 []),
     mkState [ModuleObj (mkDecl None (Some name)) [] [] [] []] [] []).
Proof. done. Qed.

(** X4.  A node of a file that was not parsed, and a node whose kind has no
    handler, are passed over: [handle] returns [None], prints one message on
    the error stream and does nothing else, whatever the kind, the context
    and the children, which are never visited.  A file whose top-level nodes
    are all of these two sorts is translated to the empty text. *)
Theorem passed_over_nodes py :
  (∀ self node context s name,
     known py self node = true → kind node = CursorKind.UNHANDLED name →
     handle py self node context s
     = (Ok None,
        mkState (heap s)
          (stderr s ++ ["Ignoring node of type CursorKind." +:+ name])
          (stdout s))) ∧
  (∀ self node context s,
     foreign py self node = true →
     handle py self node context s
     = (Ok None,
        mkState (heap s)
          (stderr s ++ ["Ignoring node in file "
                        +:+ PyStr.fmt (location_file node)])
          (stdout s))) ∧
  (∀ name filename children,
     Forall (λ c,
        foreign py (mkGenerator 0 [abspath py filename]) c
        || unhandled py (mkGenerator 0 [abspath py filename]) c = true)
       children →
     translate py name filename (translation_unit filename children)
     = (Ok tt, "")).
Proof.
  split_and!.
  - intros. by apply handle_unhandled.
  - intros. by apply handle_foreign.
  - intros name filename children Hall.
    destruct (translation_unit_passed_over py _ children (Some 0)
                (mkState [ModuleObj (mkDecl None (Some name)) [] [] [] []]
                   [] []) Hall) as (s' & E & (Hh & _ & _)).
    unfold translate.
    erewrite bind_run; [|apply Generator_new_run|]; cycle 1.
    { unfold Generator_parse. cbn [module filenames].
      rewrite bool_decide_false by (by inversion 1). cbn [app].
      eapply bind_run; [|reflexivity].
      rewrite handle_known by (apply in_files_spelling; cbn; constructor).
      cbn [call_handler kind translation_unit].
      unfold handle_translation_unit. cbn [get_children].
      eapply bind_run; [exact E|]. reflexivity. }
    unfold ret, Generator_output. cbn [module]. rewrite Hh. reflexivity.
Qed.

Lemma passed_over_nodes_witness :
  translate Sample.py "foo" Sample.file
    (translation_unit Sample.file
       [mkNode CursorKind.FUNCTION_DECL "printf" (Some "/usr/include/stdio.h")
          TypeKind.OTHER TypeKind.OTHER false 0 [] [];
        mkNode (CursorKind.UNHANDLED "USING_DIRECTIVE") "std"
          (Some Sample.file) TypeKind.OTHER TypeKind.OTHER false 0 [] []])
  = (Ok tt, "").
Proof.
  apply (proj2 (proj2 (passed_over_nodes Sample.py))).
  repeat constructor.
Defined.

Lemma in_files_unlocated py self node s :
  unlocated py self node = true →
  in_files py self node s = (Raise AttributeError, s).
Proof.
  unfold unlocated, in_files. intros [H1 H2]%andb_prop.
  apply negb_true_iff in H1. rewrite H1.
  by destruct (location_file node).
Qed.

Lemma handle_unlocated py self node context s :
  unlocated py self node = true →
  handle py self node context s = (Raise AttributeError, s).
Proof.
  intros H. rewrite handle_unfold. unfold dispatch.
  eapply bind_raise_run. by apply in_files_unlocated.
Qed.

Lemma translation_unit_unlocated py self pre c post (tu : Value) : ∀ s,
  Forall (λ c, foreign py self c || unhandled py self c = true) pre →
  unlocated py self c = true →
  ∃ s',
    for_each (pre ++ c :: post)
      (λ child,
         decl <- handle py self child tu ;;
         match decl with
         | Some d => add_to_context d tu
         | None => ret tt
         end)%py s = (Raise AttributeError, s').
Proof.
  induction pre as [|p pre IH]; intros s Hall Hc.
  - exists s. cbn [app]. rewrite for_each_cons.
    apply bind_raise_run. apply bind_raise_run. by apply handle_unlocated.
  - apply Forall_cons in Hall as [Hp Hall].
    destruct (handle_passed_over py self p tu s Hp) as (s1 & E1 & R1).
    destruct (IH s1 Hall Hc) as (s2 & E2).
    exists s2. cbn [app]. rewrite for_each_cons. eapply bind_run.
    { eapply bind_run; [exact E1|reflexivity]. }
    exact E2.
Qed.

(** X5.  A node without a file whose spelling is not a parsed file makes
    [handle] raise [AttributeError] (the test reads the name of the file of
    the location), and nothing is changed or printed.  The exception is not
    caught on the way up: a file with such a node at the top level, after
    any number of nodes that are passed over, is not translated. *)
Theorem unlocated_node py :
  (∀ self node context s,
     unlocated py self node = true →
     handle py self node context s = (Raise AttributeError, s)) ∧
  (∀ name filename pre c post,
     Forall (λ c,
        foreign py (mkGenerator 0 [abspath py filename]) c
        || unhandled py (mkGenerator 0 [abspath py filename]) c = true)
       pre →
     unlocated py (mkGenerator 0 [abspath py filename]) c = true →
     translate py name filename
       (translation_unit filename (pre ++ c :: post))
     = (Raise AttributeError, "")).
Proof.
  split.
  - intros. by apply handle_unlocated.
  - intros name filename pre c post Hall Hc.
    destruct (translation_unit_unlocated py _ pre c post (Some 0)
                (mkState [ModuleObj (mkDecl None (Some name)) [] [] [] []]
                   [] []) Hall Hc) as (s' & E).
    unfold translate.
    erewrite bind_run; [|apply Generator_new_run|]; cycle 1.
    { unfold Generator_parse. cbn [module filenames].
      rewrite bool_decide_false by (by inversion 1). cbn [app].
      eapply bind_raise_run.
      rewrite handle_known by (apply in_files_spelling; cbn; constructor).
      cbn [call_handler kind translation_unit].
      unfold handle_translation_unit. cbn [get_children].
      eapply bind_raise_run. exact E. }
    done.
Qed.

Lemma unlocated_node_witness :
  translate Sample.py "foo" Sample.file
    (translation_unit Sample.file
       [mkNode CursorKind.TYPEDEF_DECL "__int128_t" None TypeKind.OTHER
          TypeKind.OTHER false 0 [] [];
        Sample.node CursorKind.CLASS_DECL "Foo" [] []])
  = (Raise AttributeError, "").
Proof.
  apply (proj2 (unlocated_node Sample.py) "foo" Sample.file []).
  - constructor.
  - reflexivity.
Defined.

(** ** Statements and expressions *)

(** X6.  [handle_return_stmt] never raises, whatever the node: it returns a
    new [Return].  Its value is what the first child is handled to when
    that returns; when the child raises, whatever the exception, and when
    there is no child, the value stays [None], and what the child had done
    by then is kept. *)
Theorem return_stmt_never_raises py self node context s :
  let r := length (heap s) in
  let s0 := set_heap (heap s ++ [ReturnObj None]) s in
  ∃ s' value,
    handle_return_stmt (handle py self) node context s = (Ok (Some r), s') ∧
    heap s' !! r = Some (ReturnObj value) ∧
    match get_children node with
    | [] => value = None ∧ s' = s0
    | child :: _ =>
        match handle py self child context s0 with
        | (Ok v, s1) => value = v ∧ s' = with_obj r (ReturnObj v) s1
        | (Raise _, s1) => value = None ∧ s' = s1
        end
    end.
Proof.
  intros r s0. unfold handle_return_stmt.
  destruct (get_children node) as [|child children].
  - exists s0, None. split; [|split; [apply heap_alloc_new|done]].
    eapply bind_run; [apply alloc_run|]. eapply bind_run; [|reflexivity].
    by eapply try_catch_run.
  - destruct (handle py self child context s0) as [[v|e] s1] eqn:E.
    + assert (heap s1 !! r = Some (ReturnObj None)) as Hr.
      { eapply handle_frame; [exact E|apply heap_alloc_new|done]. }
      exists (with_obj r (ReturnObj v) s1), v. split; [|split; [|done]].
      * eapply bind_run; [apply alloc_run|]. fold r s0.
        eapply bind_run; [|reflexivity]. apply try_ok_run.
        eapply bind_run; [exact E|].
        by rewrite (update_run r _ (ReturnObj None)) by done.
      * apply heap_with_obj_eq. by eapply lookup_lt_Some.
    + assert (heap s1 !! r = Some (ReturnObj None)) as Hr.
      { eapply handle_frame; [exact E|apply heap_alloc_new|done]. }
      exists s1, None. split; [|done].
      eapply bind_run; [apply alloc_run|]. fold r s0.
      eapply bind_run; [|reflexivity].
      eapply try_catch_run; [|done|done]. by apply bind_raise_run.
Qed.

(** X7.  A parenthesised expression is never translated: the handler
    raises [NameError] ([Parentheses] is no name of the module) before it
    looks at the node, so nothing is changed, whatever is between the
    parentheses.  As the value of a [return] the exception is swallowed:
    [return (e);] becomes a [Return] without a value. *)
Theorem paren_expr_raises py self :
  (∀ node context s,
     known py self node = true → kind node = CursorKind.PAREN_EXPR →
     handle py self node context s = (Raise NameError, s)) ∧
  (∀ node paren rest context s,
     get_children node = paren :: rest →
     known py self paren = true → kind paren = CursorKind.PAREN_EXPR →
     handle_return_stmt (handle py self) node context s
     = (Ok (Some (length (heap s))),
        set_heap (heap s ++ [ReturnObj None]) s)).
Proof.
  assert (∀ node context s,
            known py self node = true → kind node = CursorKind.PAREN_EXPR →
            handle py self node context s = (Raise NameError, s)) as Hparen.
  { intros node context s Hk Hkind.
    rewrite handle_known by by apply in_files_known.
    unfold call_handler. rewrite Hkind. reflexivity. }
  split; [done|].
  intros node paren rest context s Hch Hk Hkind.
  destruct (return_stmt_never_raises py self node context s)
    as (s' & value & Hrun & _ & Hs').
  rewrite Hch, Hparen in Hs' by done. destruct Hs' as [_ ->]. exact Hrun.
Qed.

Lemma paren_expr_raises_witness :
  handle_return_stmt (handle Sample.py Sample.self)
    (Sample.node CursorKind.RETURN_STMT "" []
       [Sample.node CursorKind.PAREN_EXPR "" []
          [Sample.node CursorKind.DECL_REF_EXPR "x" ["x"] []]])
    (Some 0) Sample.s0
  = (Ok (Some 1), set_heap (heap Sample.s0 ++ [ReturnObj None]) Sample.s0).
Proof.
  eapply (proj2 (paren_expr_raises Sample.py Sample.self)); reflexivity.
Defined.

(** X8.  [handle_cxx_new_expr] never returns: with fewer than two children
    it raises [Exception("new requires 2 child nodes.")], and when the two
    children are handled and the [New] is made, the check that follows
    raises [Exception("new has > 2 child nodes.")] without a condition. *)
Theorem new_expr_never_returns (handle : Node → Value → Py Value)
    node context s :
  ∃ e s', handle_cxx_new_expr handle node context s = (Raise e, s').
Proof.
  unfold handle_cxx_new_expr, bind at 1.
  match goal with
  | |- context [try_except ?b ?c ?h s] =>
      destruct (try_except b c h s) as [[value|e] s1]
  end.
  - unfold bind, try_except. cbn. eauto.
  - eauto.
Qed.

(** X9.  A unary operation is never written.  When
    [handle_unary_operator] returns, it returns the [UnaryOperation] it has
    made, which has an [op] and a [value]; [UnaryOperation.output] reads
    [lvalue] first, so [output] of the object raises [AttributeError] and
    writes nothing. *)
Theorem unary_operator_output py self node context s v s' :
  handle_unary_operator (handle py self) node context s = (Ok v, s') →
  ∃ op value,
    v = Some (length (heap s)) ∧
    heap s' !! length (heap s) = Some (UnaryOperationObj (Some op) (Some value))
    ∧ ∀ fuel w,
        output (heap s') (S fuel) v None w = (Raise AttributeError, w).
Proof.
  intros H. unfold handle_unary_operator in H.
  apply bind_ok_inv in H as ([unaryop children] & s3 & H & Hrest).
  apply try_except_ok_inv in H as [H|(e & s1 & _ & _ & H)]; [|done].
  apply bind_ok_inv in H as (u & s0 & Ha & H).
  apply alloc_ok_inv in Ha as [-> ->].
  remember (length (heap s)) as u eqn:Hu.
  destruct (get_children node) as [|first [|second rest]]; try done.
  { by apply bind_ok_inv in H as (? & ? & _ & (? & ? & _ & ?)%bind_ok_inv). }
  apply bind_ok_inv in H as (op & s1 & H1 & H).
  apply bind_ok_inv in H as ([] & s1' & Hu1 & H).
  apply update_ok_inv in Hu1 as (o1 & Ho1 & ->).
  assert (o1 = UnaryOperationObj None None) as ->.
  { eapply handle_frame in H1; [|subst u; apply heap_alloc_new|done].
    congruence. }
  apply bind_ok_inv in H as (value & s2 & H2 & H).
  apply bind_ok_inv in H as ([] & s2' & Hu2 & H).
  apply update_ok_inv in Hu2 as (o2 & Ho2 & ->).
  assert (u < length (heap s1)) as Hlt1 by by eapply lookup_lt_Some.
  assert (o2 = UnaryOperationObj (Some op) None) as ->.
  { eapply handle_frame in H2; [|by apply heap_with_obj_eq|done].
    congruence. }
  assert (u < length (heap s2)) as Hlt2 by by eapply lookup_lt_Some.
  injection H as <- <- <-.
  apply bind_ok_inv in Hrest as ([] & s4 & Hcheck & Hret).
  injection Hret as <- <-.
  assert (s4 = with_obj u (UnaryOperationObj (Some op) (Some value)) s2)
    as ->.
  { apply try_except_ok_inv in Hcheck as [Hc|(e & s5 & Hc & _ & Hh)].
    - by destruct rest.
    - destruct rest; injection Hc as <- <-; by injection Hh as <-. }
  exists op, value. split_and!; [done|by apply heap_with_obj_eq|].
  intros fuel w. cbn -[with_obj].
  eapply bind_run; [apply obj_at_run; by apply heap_with_obj_eq|].
  reflexivity.
Qed.

Lemma unary_operator_output_witness :
  ∃ s',
    handle_unary_operator (handle Sample.py Sample.self)
      (Sample.node CursorKind.UNARY_OPERATOR "" []
         [Sample.node CursorKind.DECL_REF_EXPR "x" ["x"] [];
          Sample.node CursorKind.DECL_REF_EXPR "y" ["y"] []])
      (Some 0) Sample.s0 = (Ok (Some 1), s') ∧
    output (heap s') 5 (Some 1) None (CodeWriter_new "")
    = (Raise AttributeError, CodeWriter_new "").
Proof.
  eexists. split; [reflexivity|].
  destruct (unary_operator_output Sample.py Sample.self
              (Sample.node CursorKind.UNARY_OPERATOR "" []
                 [Sample.node CursorKind.DECL_REF_EXPR "x" ["x"] [];
                  Sample.node CursorKind.DECL_REF_EXPR "y" ["y"] []])
              (Some 0) Sample.s0 _ _ eq_refl) as (? & ? & _ & _ & H).
  exact (H 4 (CodeWriter_new "")).
Defined.

(** ** Symbol tables and members *)

Lemma getitem_setitem_ne {K V} `{EqDecision K} (k k' : K) (v : V) d :
  k' ≠ k → OrderedDict.getitem k' (OrderedDict.setitem k v d)
           = OrderedDict.getitem k' d.
Proof.
  intros Hne. induction d as [|[k0 v0] d IH]; cbn.
  - by rewrite decide_False.
  - destruct (decide (k = k0)) as [->|Hk]; cbn.
    + by rewrite !decide_False.
    + destruct (decide (k' = k0)); [done|]. apply IH.
Qed.

Lemma setitem_setitem {K V} `{EqDecision K} (k : K) (v v' : V) d :
  OrderedDict.setitem k v' (OrderedDict.setitem k v d)
  = OrderedDict.setitem k v' d.
Proof.
  induction d as [|[k0 v0] d IH]; cbn.
  - by rewrite decide_True.
  - destruct (decide (k = k0)) as [->|Hk]; cbn.
    + by rewrite decide_True.
    + rewrite decide_False by done. by rewrite IH.
Qed.

Lemma setitem_present {K V} `{EqDecision K} (k : K) (v : V) d :
  k ∈ d.*1 → (OrderedDict.setitem k v d).*1 = d.*1.
Proof.
  induction d as [|[k0 v0] d IH]; cbn; [by inversion 1|].
  intros Hk. destruct (decide (k = k0)) as [->|Hne]; cbn; [done|].
  f_equal. apply IH. apply elem_of_cons in Hk as [|]; [done|done].
Qed.

Lemma setitem_absent {K V} `{EqDecision K} (k : K) (v : V) d :
  k ∉ d.*1 → OrderedDict.setitem k v d = d ++ [(k, v)].
Proof.
  induction d as [|[k0 v0] d IH]; cbn; [done|].
  intros Hk. apply not_elem_of_cons in Hk as [Hne Hk].
  rewrite decide_False by done. by rewrite IH.
Qed.

Lemma names_of_set_names' ns ns' o :
  names_of o = Some ns → names_of (set_names ns' o) = Some ns'.
Proof. by destruct o. Qed.

Lemma decl_of_set_names ns' o : decl_of (set_names ns' o) = decl_of o.
Proof. by destruct o. Qed.

Lemma names_of_decl_of o ns :
  names_of o = Some ns → ∃ d, decl_of o = Some d.
Proof. destruct o; try done; eauto. Qed.

Lemma deref_eq r s :
  deref r s = match heap s !! r with
              | Some o => (Ok o, s)
              | None => (Raise SystemError, s)
              end.
Proof. done. Qed.

Section Lookup.
Context (p : ref) (po : Obj) (ns : list (string * ref)).
Context (name : string) (self : ref) (s : State).
Context (Hp : heap s !! p = Some po) (Hns : names_of po = Some ns).

Let po' := set_names (OrderedDict.setitem name self ns) po.
Let s' := with_obj p po' s.

Lemma heap_declared r :
  heap s' !! r = if decide (r = p) then Some po' else heap s !! r.
Proof.
  cbn. destruct (decide (r = p)) as [->|Hne].
  - apply list_lookup_insert_eq. by eapply lookup_lt_Some.
  - by apply list_lookup_insert_ne.
Qed.

Lemma names_of_declared r o :
  heap s !! r = Some o →
  names_of (if decide (r = p) then po' else o)
  = match names_of o with
    | Some ns0 =>
        Some (if decide (r = p)
              then OrderedDict.setitem name self ns0 else ns0)
    | None => None
    end.
Proof.
  intros Hr. destruct (decide (r = p)) as [->|]; [|by destruct (names_of o)].
  assert (o = po) as -> by congruence. rewrite Hns.
  by eapply names_of_set_names'.
Qed.

Lemma decl_of_declared r o :
  heap s !! r = Some o →
  decl_of (if decide (r = p) then po' else o) = decl_of o.
Proof.
  intros Hr. destruct (decide (r = p)) as [->|]; [|done].
  assert (o = po) as -> by congruence. apply decl_of_set_names.
Qed.

Lemma deref_declared r :
  deref r s'
  = match heap s !! r with
    | Some o => (Ok (if decide (r = p) then po' else o), s')
    | None => (Raise SystemError, s')
    end.
Proof.
  unfold deref. rewrite heap_declared.
  destruct (decide (r = p)) as [->|]; [by rewrite Hp|done].
Qed.

Lemma Context_getitem_rec_other other fuel : ∀ r,
  other ≠ name →
  Context_getitem_rec fuel r other s'
  = ((Context_getitem_rec fuel r other s).1, s').
Proof.
  induction fuel as [|fuel IH]; intros r Hne; [done|].
  cbn [Context_getitem_rec]. unfold bind at 1 3.
  rewrite deref_declared, (deref_eq r s).
  destruct (heap s !! r) as [o|] eqn:Hr; [|reflexivity].
  rewrite names_of_declared, decl_of_declared by done.
  destruct (names_of o) as [ns0|]; [|reflexivity].
  destruct (decl_of o) as [d|]; [|reflexivity].
  assert (OrderedDict.getitem other
            (if decide (r = p)
             then OrderedDict.setitem name self ns0 else ns0)
          = OrderedDict.getitem other ns0) as ->.
  { destruct (decide (r = p)); [|done]. by apply getitem_setitem_ne. }
  destruct (OrderedDict.getitem other ns0); [reflexivity|].
  destruct (parent d) as [q|]; [|reflexivity].
  unfold bind. rewrite deref_declared, (deref_eq q s).
  destruct (heap s !! q) as [qo|] eqn:Hq; [|reflexivity].
  pose proof (names_of_declared q qo Hq) as Hnq.
  destruct (decide (q = p)) as [->|Hqp].
  - assert (qo = po) as -> by congruence.
    subst po'. destruct po; try done; cbn; by apply IH.
  - destruct qo; try done; cbn; by apply IH.
Qed.
End Lookup.

(** X10.  A declaration made with a non-empty name in a context is found
    by [Context.__getitem__] of that context under its name at once,
    whatever the contexts around it hold under the name, and the lookup of
    every other name, from every context, gives what it gave before.  A
    declaration without a name, with an empty name, or without a parent
    leaves every table as it is. *)
Theorem declare_then_lookup self p po ns name s :
  heap s !! p = Some po → names_of po = Some ns → name ≠ "" →
  let s' :=
    with_obj p (set_names (OrderedDict.setitem name self ns) po) s in
  Declaration_init self (Some p) (Some name) s = (Ok tt, s') ∧
  getitem (Some p) name s' = (Ok self, s') ∧
  (∀ context other,
     other ≠ name →
     getitem context other s' = ((getitem context other s).1, s')) ∧
  (∀ parent, Declaration_init self parent (Some "") s = (Ok tt, s)) ∧
  (∀ parent, Declaration_init self parent None s = (Ok tt, s)) ∧
  (∀ name', Declaration_init self None name' s = (Ok tt, s)).
Proof.
  intros Hp Hns Hne s'.
  assert (p < length (heap s)) as Hlt by by eapply lookup_lt_Some.
  destruct (names_of_decl_of _ _ Hns) as [d Hd].
  split_and!.
  - unfold Declaration_init. rewrite truthy_nonempty by done.
    eapply bind_run; [by apply deref_run|]. by rewrite Hns.
  - unfold getitem.
    eapply bind_run; [apply deref_run; by apply heap_with_obj_eq|].
    erewrite names_of_set_names' by done.
    unfold Context_getitem. cbn [Context_getitem_rec].
    eapply bind_run; [apply deref_run; by apply heap_with_obj_eq|].
    erewrite names_of_set_names' by done.
    rewrite decl_of_set_names, Hd. by rewrite getitem_setitem_eq.
  - intros [r|] other Hother; [|done]. unfold getitem, bind.
    rewrite (deref_declared p po ns name self s), (deref_eq r s) by done.
    destruct (heap s !! r) as [o|] eqn:Hr; [|reflexivity].
    rewrite (names_of_declared p po ns name self s) by done.
    destruct (names_of o) as [ns0|] eqn:Hno; [|reflexivity].
    unfold Context_getitem. cbn [heap with_obj set_heap].
    rewrite length_insert.
    by apply (Context_getitem_rec_other p po ns name self s).
  - intros [q|]; done.
  - intros [q|]; done.
  - intros [n|]; done.
Qed.

Lemma declare_then_lookup_witness :
  getitem (Some 0) "x"
    (with_obj 0 (ModuleObj (mkDecl None (Some "foo")) [("x", 7)] [] [] [])
       Sample.s0)
  = (Ok 7,
     with_obj 0 (ModuleObj (mkDecl None (Some "foo")) [("x", 7)] [] [] [])
       Sample.s0).
Proof.
  refine (proj1 (proj2 (declare_then_lookup 7 0 _ [] "x" Sample.s0
                          eq_refl eq_refl _))).
  discriminate.
Defined.

Lemma add_imports_plain decl o context s :
  heap s !! decl = Some o →
  match class_of o with
  | CEnumeration | CParameter | CEnumValue => False
  | _ => True
  end →
  add_imports decl context s = (Ok tt, s).
Proof.
  intros Hd Hc. unfold add_imports.
  eapply bind_run; [by apply deref_run|]. by destruct o.
Qed.

(** X11.  [Module.add_declaration] of a function, variable, struct or
    class: the module holds the object under its name.  When the module
    has a declaration of that name already, the new one takes its place -
    the order and the number of the declarations are what they were, so a
    function that is declared and then defined is written once; when it has
    none, the new one goes last. *)
Theorem add_declaration_replaces m d ns ds im sm decl o dd s :
  heap s !! m = Some (ModuleObj d ns ds im sm) →
  heap s !! decl = Some o → decl_of o = Some dd →
  class_of o ∈ [CFunction; CVariable; CStruct; CClass] →
  let ds' := OrderedDict.setitem (name dd) decl ds in
  add_declaration (Some m) decl s
  = (Ok tt, with_obj m (ModuleObj d ns ds' im sm) s) ∧
  OrderedDict.getitem (name dd) ds' = Some decl ∧
  (name dd ∈ ds.*1 → ds'.*1 = ds.*1) ∧
  (name dd ∉ ds.*1 → ds' = ds ++ [(name dd, decl)]).
Proof.
  intros Hm Hd Hdd Hc ds'.
  assert (decl ≠ m) as Hne.
  { intros ->. rewrite Hm in Hd. injection Hd as <-.
    cbn in Hc. by repeat (apply elem_of_cons in Hc as [Hc|Hc]; [done|]);
      inversion Hc. }
  split_and!.
  - unfold add_declaration.
    eapply bind_run; [by apply receiver_run|]. cbn beta iota.
    eapply bind_run.
    { unfold getattr_name. eapply bind_run; [by apply deref_run|].
      by rewrite Hdd. }
    eapply bind_run; [reflexivity|].
    eapply add_imports_plain.
    + cbn. by rewrite list_lookup_insert_ne.
    + repeat (apply elem_of_cons in Hc as [->|Hc]; [done|]). inversion Hc.
  - apply getitem_setitem_eq.
  - apply setitem_present.
  - apply setitem_absent.
Qed.

Lemma add_declaration_replaces_witness :
  add_declaration (Some 0) 1
    (mkState [ModuleObj (mkDecl None (Some "foo")) [] [(Some "f", 7)] [] [];
              FunctionObj (mkDecl (Some 0) (Some "f")) [] [] []] [] [])
  = (Ok tt,
     mkState [ModuleObj (mkDecl None (Some "foo")) [] [(Some "f", 1)] [] [];
              FunctionObj (mkDecl (Some 0) (Some "f")) [] [] []] [] []).
Proof.
  refine (proj1 (add_declaration_replaces 0 _ _ _ _ _ 1 _ _
                   (mkState
                      [ModuleObj (mkDecl None (Some "foo")) []
                         [(Some "f", 7)] [] [];
                       FunctionObj (mkDecl (Some 0) (Some "f")) [] [] []]
                      [] []) eq_refl eq_refl eq_refl _)).
  repeat constructor.
Defined.

Lemma add_declaration_enumeration_run m d ns ds im sm decl de nse es s :
  heap s !! m = Some (ModuleObj d ns ds im sm) →
  heap s !! decl = Some (EnumerationObj de nse es) →
  let import := "from enum import Enum" in
  let im' := if bool_decide (import ∈ im) then im else im ++ [import] in
  add_declaration (Some m) decl s
  = (Ok tt,
     with_obj m
       (ModuleObj d ns (OrderedDict.setitem (name de) decl ds) im' sm) s) ∧
  import ∈ im' ∧ (∀ x, x ∈ im → x ∈ im') ∧ (NoDup im → NoDup im').
Proof.
  intros Hm Hd import im'.
  assert (decl ≠ m) as Hne by congruence.
  assert (m < length (heap s)) as Hlt by by eapply lookup_lt_Some.
  split_and!.
  - unfold add_declaration.
    eapply bind_run; [by apply receiver_run|]. cbn beta iota.
    eapply bind_run.
    { unfold getattr_name. eapply bind_run; [by apply deref_run|]. done. }
    eapply bind_run; [reflexivity|]. unfold add_imports.
    eapply bind_run.
    { apply deref_run. cbn. by rewrite list_lookup_insert_ne. }
    cbn beta iota. unfold add_import.
    eapply bind_run.
    { apply receiver_run. cbn. by apply list_lookup_insert_eq. }
    cbn. unfold store, modify, with_obj. cbn.
    by rewrite list_insert_insert_eq.
  - unfold im'. case_bool_decide; [done|].
    apply elem_of_app. right. constructor.
  - intros x Hx. unfold im'. case_bool_decide; [done|].
    apply elem_of_app. by left.
  - intros Hnd. unfold im'. case_bool_decide as Hin; [done|].
    apply NoDup_app. split_and!; [done| |apply NoDup_singleton].
    intros x Hx Hx'. apply list_elem_of_singleton in Hx' as ->. done.
Qed.

(** X12.  [Module.add_declaration] of an enumeration: besides holding the
    enumeration under its name, the module imports [Enum], and imports it
    once however many enumerations it gets - the statement is added when it
    is not there and the imports are left alone when it is, so imports
    without a repetition stay so. *)
Theorem add_declaration_enumeration m d ns ds im sm decl de nse es s :
  heap s !! m = Some (ModuleObj d ns ds im sm) →
  heap s !! decl = Some (EnumerationObj de nse es) →
  let import := "from enum import Enum" in
  let im' := if bool_decide (import ∈ im) then im else im ++ [import] in
  add_declaration (Some m) decl s
  = (Ok tt,
     with_obj m
       (ModuleObj d ns (OrderedDict.setitem (name de) decl ds) im' sm) s) ∧
  import ∈ im' ∧ (∀ x, x ∈ im → x ∈ im') ∧ (NoDup im → NoDup im').
Proof. by apply add_declaration_enumeration_run. Qed.

Lemma add_declaration_enumeration_witness :
  add_declaration (Some 0) 1
    (mkState [ModuleObj (mkDecl None (Some "foo")) [] []
                ["from enum import Enum"] [];
              EnumerationObj (mkDecl (Some 0) (Some "E")) [] []] [] [])
  = (Ok tt,
     mkState [ModuleObj (mkDecl None (Some "foo")) [] [(Some "E", 1)]
                ["from enum import Enum"] [];
              EnumerationObj (mkDecl (Some 0) (Some "E")) [] []] [] []).
Proof.
  exact (proj1 (add_declaration_enumeration 0 _ _ _ _ _ 1 _ _ _
                  (mkState
                     [ModuleObj (mkDecl None (Some "foo")) [] []
                        ["from enum import Enum"] [];
                      EnumerationObj (mkDecl (Some 0) (Some "E")) [] []]
                     [] []) eq_refl eq_refl)).
Defined.

(** X13.  [Class.add_method] keeps one method for a name: after two
    methods of the same name are added, the class is what it is after the
    second alone is added, and [methods[name]] is the second.  Overloads
    are not reported; the earlier one is dropped. *)
Theorem add_method_twice k d ns sup ctor dtor at_ me
    m1 d1 ns1 ps1 ss1 pv1 m2 d2 ns2 ps2 ss2 pv2 n s :
  heap s !! k = Some (ClassObj d ns sup ctor dtor at_ me) →
  heap s !! m1 = Some (MethodObj d1 ns1 ps1 ss1 pv1) →
  heap s !! m2 = Some (MethodObj d2 ns2 ps2 ss2 pv2) →
  name d1 = Some n → name d2 = Some n →
  let s' :=
    with_obj k
      (ClassObj d ns sup ctor dtor at_ (OrderedDict.setitem (Some n) m2 me))
      s in
  (Class_add_method (Some k) m1 ;;; Class_add_method (Some k) m2)%py s
  = (Ok tt, s') ∧
  Class_add_method (Some k) m2 s = (Ok tt, s') ∧
  getitem_methods k n s' = (Ok m2, s').
Proof.
  intros Hk H1 H2 Hn1 Hn2 s'.
  assert (k < length (heap s)) as Hlt by by eapply lookup_lt_Some.
  assert (m1 ≠ k) as Hne1 by congruence.
  assert (m2 ≠ k) as Hne2 by congruence.
  assert (∀ me0 s0 m dm nsm psm ssm pvm,
            heap s0 !! k = Some (ClassObj d ns sup ctor dtor at_ me0) →
            heap s0 !! m = Some (MethodObj dm nsm psm ssm pvm) →
            name dm = Some n →
            Class_add_method (Some k) m s0
            = (Ok tt,
               with_obj k
                 (ClassObj d ns sup ctor dtor at_
                    (OrderedDict.setitem (Some n) m me0)) s0)) as Hadd.
  { intros me0 s0 m dm nsm psm ssm pvm Hk0 Hm0 Hn0. unfold Class_add_method.
    eapply bind_run; [by apply receiver_run|]. cbn beta iota.
    eapply bind_run.
    { unfold getattr_name. eapply bind_run; [by apply deref_run|].
      cbn. by rewrite Hn0. }
    reflexivity. }
  split_and!.
  - eapply bind_run; [by eapply Hadd|].
    erewrite Hadd; [|by apply heap_with_obj_eq| |done].
    + by rewrite with_obj_with_obj, setitem_setitem.
    + by rewrite heap_with_obj_ne.
  - by eapply Hadd.
  - unfold getitem_methods.
    eapply bind_run; [apply deref_run; by apply heap_with_obj_eq|].
    cbn beta iota. by rewrite getitem_setitem_eq.
Qed.

Lemma add_method_twice_witness :
  let s :=
    mkState [ClassObj (mkDecl None (Some "A")) [] None None None [] [];
             MethodObj (mkDecl (Some 0) (Some "f")) [] [] None false;
             MethodObj (mkDecl (Some 0) (Some "f")) [] [] None false]
      [] [] in
  (Class_add_method (Some 0) 1 ;;; Class_add_method (Some 0) 2)%py s
  = Class_add_method (Some 0) 2 s.
Proof.
  intros s.
  destruct (add_method_twice 0 (mkDecl None (Some "A")) [] None None None
              [] [] 1 _ _ _ _ _ 2 _ _ _ _ _ "f" s
              eq_refl eq_refl eq_refl eq_refl eq_refl) as (H1 & H2 & _).
  by rewrite H1, H2.
Defined.

(** X14.  [Class.add_destructor]: on a class whose destructor has
    statements it raises [Exception("Cannot handle multiple destructors")]
    and changes nothing; on a class whose destructor has none, or that has
    no destructor, the new one becomes the destructor of the class.  A
    destructor takes no parameter: adding one to it raises
    [AttributeError]. *)
Theorem add_destructor_cases :
  (∀ s k d ns sup ctor c attributes methods dc nsc parameters statements
     method,
     heap s !! k = Some (ClassObj d ns sup ctor (Some c) attributes methods) →
     heap s !! c = Some (DestructorObj dc nsc parameters (Some statements)) →
     Class_add_destructor (Some k) method s
     = (Raise (Exception "Cannot handle multiple destructors"), s)) ∧
  (∀ s k d ns sup ctor c attributes methods dc nsc parameters method,
     heap s !! k = Some (ClassObj d ns sup ctor (Some c) attributes methods) →
     heap s !! c = Some (DestructorObj dc nsc parameters None) →
     Class_add_destructor (Some k) method s
     = (Ok tt,
        with_obj k (ClassObj d ns sup ctor (Some method) attributes methods)
          s)) ∧
  (∀ s k d ns sup ctor attributes methods method,
     heap s !! k = Some (ClassObj d ns sup ctor None attributes methods) →
     Class_add_destructor (Some k) method s
     = (Ok tt,
        with_obj k (ClassObj d ns sup ctor (Some method) attributes methods)
          s)) ∧
  (∀ s c dc nsc parameters statements p dp ctype default,
     heap s !! c = Some (DestructorObj dc nsc parameters statements) →
     heap s !! p = Some (ParameterObj dp ctype default) →
     add_to_context p (Some c) s = (Raise AttributeError, s)).
Proof.
  split_and!.
  - intros s k d ns sup ctor c attributes methods dc nsc parameters
      statements method Hk Hc.
    unfold Class_add_destructor.
    eapply bind_run; [by apply receiver_run|]. cbn.
    eapply bind_run.
    { unfold getattr_statements. eapply bind_run; [by apply deref_run|].
      reflexivity. }
    reflexivity.
  - intros s k d ns sup ctor c attributes methods dc nsc parameters method
      Hk Hc.
    unfold Class_add_destructor.
    eapply bind_run; [by apply receiver_run|]. cbn.
    eapply bind_run.
    { unfold getattr_statements. eapply bind_run; [by apply deref_run|].
      reflexivity. }
    reflexivity.
  - intros s k d ns sup ctor attributes methods method Hk.
    unfold Class_add_destructor.
    eapply bind_run; [by apply receiver_run|]. reflexivity.
  - intros s c dc nsc parameters statements p dp ctype default Hc Hp.
    unfold add_to_context. eapply bind_run; [by apply deref_run|].
    cbn beta iota. unfold add_parameter.
    eapply bind_run; [by apply receiver_run|]. reflexivity.
Qed.

Lemma add_destructor_cases_witness :
  let s :=
    mkState [ClassObj (mkDecl None (Some "A")) [] None None (Some 1) [] [];
             DestructorObj (mkDecl (Some 0) None) [] [] (Some [2]);
             ReturnObj None;
             DestructorObj (mkDecl (Some 0) None) [] [] None]
      [] [] in
  Class_add_destructor (Some 0) 3 s
  = (Raise (Exception "Cannot handle multiple destructors"), s).
Proof.
  intros s.
  exact (proj1 add_destructor_cases s 0 _ _ _ _ 1 _ _ _ _ _ _ 3
           eq_refl eq_refl).
Defined.

(** ** Namespaces *)

Lemma for_each_app {S A} (l1 l2 : list A) (body : A → M S unit) s :
  for_each (l1 ++ l2) body s
  = bind (for_each l1 body) (λ _, for_each l2 body) s.
Proof.
  revert s. induction l1 as [|x l1 IH]; intros s; [done|].
  cbn [app]. rewrite !for_each_cons. unfold bind.
  destruct (body x s) as [[[]|e] s1]; [|done]. apply IH.
Qed.

Lemma bind_congr_r {S A B} (m : M S A) (k k' : A → M S B) s :
  (∀ a s1, k a s1 = k' a s1) → bind m k s = bind m k' s.
Proof. intros E. unfold bind. by destruct (m s) as [[a|e] s1]. Qed.

(** X15.  A namespace is transparent.  [handle_namespace] hands the
    declarations of its children to the module it is in, and returns
    nothing: a translation unit with a namespace among its children is
    handled - result, store and messages - as the translation unit that has
    the children of the namespace in its place. *)
Theorem namespace_transparent py self node node' namespace pre post tu s :
  known py self namespace = true →
  kind namespace = CursorKind.NAMESPACE →
  get_children node = pre ++ namespace :: post →
  get_children node' = pre ++ get_children namespace ++ post →
  handle_translation_unit (handle py self) node tu s
  = handle_translation_unit (handle py self) node' tu s.
Proof.
  intros Hk Hkind Hch Hch'. unfold handle_translation_unit.
  rewrite Hch, Hch'. apply bind_congr.
  rewrite !for_each_app. apply bind_congr_r. intros [] s1.
  rewrite for_each_app, for_each_cons. unfold bind at 1 2 4.
  rewrite handle_known by by apply in_files_known.
  unfold call_handler. rewrite Hkind. unfold handle_namespace, bind.
  by destruct (for_each (get_children namespace) _ s1) as [[[]|e] s2].
Qed.

Lemma namespace_transparent_witness :
  handle_translation_unit (handle Sample.py Sample.self)
    (translation_unit Sample.file
       [Sample.node CursorKind.NAMESPACE "app" []
          [Sample.node CursorKind.CLASS_DECL "Foo" [] []]])
    (Some 0) Sample.s0
  = handle_translation_unit (handle Sample.py Sample.self)
      (translation_unit Sample.file
         [Sample.node CursorKind.CLASS_DECL "Foo" [] []])
      (Some 0) Sample.s0.
Proof.
  apply (namespace_transparent Sample.py Sample.self _ _
           (Sample.node CursorKind.NAMESPACE "app" []
              [Sample.node CursorKind.CLASS_DECL "Foo" [] []]) [] []);
    reflexivity.
Defined.

(** ** References to types *)

Lemma split_ws_go_word a rest : ∀ cur,
  no_space a = true →
  PyStr.split_ws_go (a +:+ String " "%char rest) cur
  = if String.eqb (cur +:+ a) "" then PyStr.split_ws_go rest ""
    else (cur +:+ a) :: PyStr.split_ws_go rest "".
Proof.
  induction a as [|x a IH]; intros cur Ha.
  - rewrite append_nil_l, append_nil_r. reflexivity.
  - cbn in Ha. apply andb_prop in Ha as [Hx Ha].
    apply negb_true_iff in Hx. rewrite append_cons.
    cbn [PyStr.split_ws_go]. rewrite Hx, IH by done.
    by rewrite snoc_append.
Qed.

Lemma split_ws_two a b :
  identifier a = true → identifier b = true →
  PyStr.split_ws (a +:+ " " +:+ b) = [a; b].
Proof.
  intros [Ha1 Ha2]%andb_prop [Hb1 Hb2]%andb_prop. unfold PyStr.split_ws.
  change (" " +:+ b) with (String " "%char b).
  rewrite split_ws_go_word by done. rewrite append_nil_l.
  apply negb_true_iff in Ha1. rewrite Ha1.
  rewrite split_ws_go_no_space by done. rewrite append_nil_l.
  apply negb_true_iff in Hb1. by rewrite Hb1.
Qed.

Lemma split_ws_one a :
  no_space a = true → PyStr.split_ws a !! 1 = None.
Proof.
  intros Ha. unfold PyStr.split_ws. rewrite split_ws_go_no_space by done.
  by destruct (String.eqb _ _).
Qed.

(** X16.  [handle_type_ref] makes a reference to the second word of the
    spelling: for [class Foo] and [struct Foo] a reference to [Foo].  A
    spelling of one word - a type that is named without a keyword - has no
    second word: the handler raises [IndexError] and makes nothing. *)
Theorem type_ref_second_word node context s :
  (∀ a b,
     identifier a = true → identifier b = true →
     spelling node = a +:+ " " +:+ b →
     handle_type_ref node context s
     = (Ok (Some (length (heap s))),
        set_heap (heap s ++ [ReferenceObj b]) s)) ∧
  (no_space (spelling node) = true →
   handle_type_ref node context s = (Raise IndexError, s)).
Proof.
  split.
  - intros a b Ha Hb Hsp. unfold handle_type_ref.
    rewrite Hsp, split_ws_two by done. reflexivity.
  - intros Hsp. unfold handle_type_ref. by rewrite split_ws_one.
Qed.

Lemma type_ref_second_word_witness :
  handle_type_ref (Sample.node CursorKind.TYPE_REF "struct Point" [] [])
    (Some 0) Sample.s0
  = (Ok (Some 1), set_heap (heap Sample.s0 ++ [ReferenceObj "Point"]) Sample.s0)
  ∧ handle_type_ref (Sample.node CursorKind.TYPE_REF "size_t" [] [])
      (Some 0) Sample.s0
    = (Raise IndexError, Sample.s0).
Proof.
  split.
  - apply (proj1 (type_ref_second_word
                    (Sample.node CursorKind.TYPE_REF "struct Point" [] [])
                    (Some 0) Sample.s0) "struct" "Point"); reflexivity.
  - apply (proj2 (type_ref_second_word
                    (Sample.node CursorKind.TYPE_REF "size_t" [] [])
                    (Some 0) Sample.s0)). reflexivity.
Defined.

Lemma split_sp_go_word a rest : ∀ cur,
  no_blank a = true →
  PyStr.split_sp_go (a +:+ String " "%char rest) cur
  = (cur +:+ a) :: PyStr.split_sp_go rest "".
Proof.
  induction a as [|x a IH]; intros cur Ha.
  - rewrite append_nil_l, append_nil_r. reflexivity.
  - cbn in Ha. apply andb_prop in Ha as [Hx Ha].
    apply negb_true_iff in Hx. rewrite append_cons.
    cbn [PyStr.split_sp_go]. rewrite Hx, IH by done.
    by rewrite snoc_append.
Qed.

Lemma split_sp_go_last a : ∀ cur,
  no_blank a = true → PyStr.split_sp_go a cur = [cur +:+ a].
Proof.
  induction a as [|x a IH]; intros cur Ha.
  - by rewrite append_nil_r.
  - cbn in Ha. apply andb_prop in Ha as [Hx Ha].
    apply negb_true_iff in Hx. cbn [PyStr.split_sp_go].
    rewrite Hx, IH by done. by rewrite snoc_append.
Qed.

(** X17.  [handle_cxx_base_specifier] takes the word after the first
    space of the spelling and makes it the superclass of the class it is
    in; the node itself gives no object.  Every space separates: after two
    spaces the word is empty, and the class gets the empty name, which
    [Class.output] takes for no superclass.  A spelling without a space
    raises [IndexError]. *)
Theorem base_specifier_superclass node k d ns sup ctor dtor at_ me s :
  heap s !! k = Some (ClassObj d ns sup ctor dtor at_ me) →
  (∀ a b rest,
     no_blank a = true → no_blank b = true →
     spelling node = a +:+ " " +:+ b ∨
     spelling node = a +:+ " " +:+ b +:+ " " +:+ rest →
     handle_cxx_base_specifier node (Some k) s
     = (Ok None, with_obj k (ClassObj d ns (Some b) ctor dtor at_ me) s)) ∧
  (no_blank (spelling node) = true →
   handle_cxx_base_specifier node (Some k) s = (Raise IndexError, s)).
Proof.
  intros Hk. split.
  - intros a b rest Ha Hb Hsp. unfold handle_cxx_base_specifier.
    assert (PyStr.split_sp (spelling node) !! 1 = Some b) as ->.
    { unfold PyStr.split_sp. destruct Hsp as [-> | ->].
      - change (" " +:+ b) with (String " "%char b).
        rewrite split_sp_go_word, split_sp_go_last by done. done.
      - change (" " +:+ b +:+ " " +:+ rest)
          with (String " "%char (b +:+ String " "%char rest)).
        rewrite !split_sp_go_word by done. done. }
    eapply bind_run; [|reflexivity]. unfold setattr_superclass.
    eapply bind_run; [by apply receiver_run|]. reflexivity.
  - intros Hsp. unfold handle_cxx_base_specifier, PyStr.split_sp.
    by rewrite split_sp_go_last.
Qed.

Lemma base_specifier_superclass_witness :
  let s :=
    mkState [ClassObj (mkDecl None (Some "B")) [] None None None [] []]
      [] [] in
  handle_cxx_base_specifier
    (Sample.node CursorKind.CXX_BASE_SPECIFIER "class A" [] []) (Some 0) s
  = (Ok None,
     with_obj 0 (ClassObj (mkDecl None (Some "B")) [] (Some "A") None None
                   [] []) s)
  ∧ handle_cxx_base_specifier
      (Sample.node CursorKind.CXX_BASE_SPECIFIER "class  A" [] []) (Some 0) s
    = (Ok None,
       with_obj 0 (ClassObj (mkDecl None (Some "B")) [] (Some "") None None
                     [] []) s)
  ∧ handle_cxx_base_specifier
      (Sample.node CursorKind.CXX_BASE_SPECIFIER "A" [] []) (Some 0) s
    = (Raise IndexError, s).
Proof.
  intros s. split_and!.
  - apply (proj1 (base_specifier_superclass
                    (Sample.node CursorKind.CXX_BASE_SPECIFIER "class A" [] [])
                    0 _ _ _ _ _ _ _ s eq_refl)
             "class" "A" ""); [reflexivity..|by left].
  - apply (proj1 (base_specifier_superclass
                    (Sample.node CursorKind.CXX_BASE_SPECIFIER "class  A" []
                       [])
                    0 _ _ _ _ _ _ _ s eq_refl)
             "class" "" "A"); [reflexivity..|by right].
  - apply (proj2 (base_specifier_superclass
                    (Sample.node CursorKind.CXX_BASE_SPECIFIER "A" [] [])
                    0 _ _ _ _ _ _ _ s eq_refl)).
    reflexivity.
Defined.

(** ** Enumerations *)

Lemma set_names_same o ns : names_of o = Some ns → set_names ns o = o.
Proof. destruct o; cbn; congruence. Qed.

Lemma Declaration_init_context self p po ns name s :
  heap s !! p = Some po → names_of po = Some ns →
  Declaration_init self (Some p) (Some name) s
  = (Ok tt, with_obj p (set_names (declare name self ns) po) s).
Proof.
  intros Hp Hns. unfold Declaration_init, declare.
  destruct (PyStr.truthy (Some name)).
  - eapply bind_run; [by apply deref_run|]. by rewrite Hns.
  - rewrite set_names_same by done. unfold with_obj.
    rewrite list_insert_id by done. by rewrite set_heap_id.
Qed.

Lemma insert_app_at' {A} (h : list A) i (x y : A) t :
  i = length h → <[i := x]> (h ++ y :: t) = h ++ x :: t.
Proof. intros ->. apply insert_app_at. Qed.

Lemma lookup_app_at' {A} (h : list A) i (x : A) t :
  i = length h → (h ++ x :: t) !! i = Some x.
Proof. intros ->. apply lookup_app_at. Qed.

Section EnumDecl.
Context (py : Builtins) (self : Generator) (file : string).
Context (Hfile : file ≠ "") (Hin : abspath py file ∈ filenames self).

Lemma in_files_enum_constant kv s :
  in_files py self (enum_constant file kv) s = (Ok true, s).
Proof. by eapply in_files_located. Qed.

Lemma enumerators_run e d ns constants : ∀ es s,
  heap s !! e = Some (EnumerationObj d ns es) →
  for_each (map (enum_constant file) constants)
    (λ child,
       entry <- handle py self child (Some e) ;;
       add_enumerator (Some e) entry)%py s
  = (Ok tt,
     set_heap
       (<[e := EnumerationObj d ns
                 (es ++ map Some (seq (length (heap s)) (length constants)))]>
          (heap s)
        ++ EnumValue_objects constants) s).
Proof.
  induction constants as [|kv constants IH]; intros es s He.
  - cbn. unfold ret. rewrite !app_nil_r, list_insert_id by done.
    by rewrite set_heap_id.
  - assert (e < length (heap s)) as Hlt by by eapply lookup_lt_Some.
    cbn [map]. rewrite for_each_cons. eapply bind_run.
    { eapply bind_run.
      { rewrite handle_known by apply in_files_enum_constant.
        cbn [call_handler kind enum_constant].
        unfold handle_enum_constant_decl. cbn [spelling enum_value].
        eapply bind_run; [apply alloc_run|]. reflexivity. }
      unfold add_enumerator. eapply bind_run.
      { apply receiver_run. by apply heap_alloc_old. }
      reflexivity. }
    erewrite IH; cycle 1.
    { cbn. rewrite insert_app_l by done. rewrite lookup_app_l
        by by rewrite length_insert. by apply list_lookup_insert_eq. }
    cbn [heap set_heap stderr stdout].
    rewrite length_insert, length_app, Nat.add_1_r.
    rewrite (insert_app_l (heap s)) by done.
    rewrite insert_insert_app by done.
    rewrite <- !(assoc_L (++)). cbn [map seq length app].
    reflexivity.
Qed.
End EnumDecl.

Lemma enum_decl_run py self file name constants p po ns s :
  file ≠ "" → abspath py file ∈ filenames self →
  heap s !! p = Some po → names_of po = Some ns →
  let e := length (heap s) in
  handle py self (enum_decl file name constants) (Some p) s
  = (Ok (Some e),
     set_heap
       (<[p := set_names (declare name e ns) po]> (heap s)
        ++ [EnumerationObj (mkDecl (Some p) (Some name)) []
              (map Some (seq (S e) (length constants)))]
        ++ EnumValue_objects constants) s).
Proof.
  intros Hfile Hin Hp Hns e.
  assert (p < length (heap s)) as Hlt by by eapply lookup_lt_Some.
  unfold enum_decl. rewrite handle_known by by apply in_files_node.
  cbn [call_handler kind located]. unfold handle_enum_decl.
  cbn [spelling get_children located].
  eapply bind_run.
  { unfold Enumeration_new. eapply bind_run; [apply alloc_run|].
    eapply bind_run; [|reflexivity].
    eapply Declaration_init_context; [|done]. by apply heap_alloc_old. }
  eapply bind_run; [|reflexivity].
  erewrite enumerators_run; [|done|done|]; cycle 1.
  { cbn. rewrite insert_app_l by done.
    apply lookup_app_at'. by rewrite length_insert. }
  cbn [heap set_heap stderr stdout with_obj].
  rewrite length_insert, length_app, Nat.add_1_r.
  rewrite (insert_app_l (heap s)) by done. fold e.
  rewrite (insert_app_at' _ e) by by rewrite length_insert.
  by rewrite <- (assoc_L (++)).
Qed.

(** X18.  An enumeration with its constants.  [handle_enum_decl] makes the
    [Enumeration], declares it in its context under its name (an
    enumeration without a name is declared nowhere), makes one [EnumValue]
    for every constant, with the key and the value of the constant, and
    gives the enumeration the values in the order of the constants. *)
Theorem enum_decl_enumerators py self file name constants p po ns s :
  file ≠ "" → abspath py file ∈ filenames self →
  heap s !! p = Some po → names_of po = Some ns →
  let e := length (heap s) in
  handle py self (enum_decl file name constants) (Some p) s
  = (Ok (Some e),
     set_heap
       (<[p := set_names (declare name e ns) po]> (heap s)
        ++ [EnumerationObj (mkDecl (Some p) (Some name)) []
              (map Some (seq (S e) (length constants)))]
        ++ EnumValue_objects constants) s).
Proof. by apply enum_decl_run. Qed.

Lemma enum_decl_enumerators_witness :
  handle Sample.py Sample.self
    (enum_decl Sample.file "Colour" [("RED", 0%Z); ("GREEN", 5%Z)])
    (Some 0) Sample.s0
  = (Ok (Some 1),
     mkState
       [ModuleObj (mkDecl None (Some "foo")) [("Colour", 1)] [] [] [];
        EnumerationObj (mkDecl (Some 0) (Some "Colour")) []
          [Some 2; Some 3];
        EnumValueObj "RED" 0; EnumValueObj "GREEN" 5] [] []).
Proof.
  refine (enum_decl_enumerators Sample.py Sample.self Sample.file "Colour"
            [("RED", 0%Z); ("GREEN", 5%Z)] 0 _ [] Sample.s0 _ _ eq_refl
            eq_refl).
  - discriminate.
  - constructor.
Defined.

Lemma enumerator_lines_run h depth rs constants : ∀ w,
  enumerators_at h rs constants →
  for_each (map Some rs)
    (λ enumerator : Value,
       e <- match enumerator with
            | None => raise AttributeError
            | Some r => obj_at h r
            end ;;
       match e with
       | EnumValueObj key value =>
           write (indent depth +:+ key +:+ " = " +:+ pretty value) ;;;
           clear_line
       | _ => raise AttributeError
       end)%py w
  = (Ok tt,
     match constants with
     | [] => w
     | _ => mkCodeWriter (out w +:+ enumerator_lines depth constants) true 0
     end).
Proof.
  intros w H. revert w.
  induction H as [|r kv rs constants Hr Hrs IH]; intros w; [done|].
  cbn [map]. rewrite for_each_cons. eapply bind_run.
  { eapply bind_run; [by apply obj_at_run|]. cbn beta iota.
    eapply bind_run; reflexivity. }
  rewrite IH. f_equal. unfold enumerator_lines. cbn [map lines_text foldr].
  cbn. destruct constants as [|kv' constants]; cbn.
  - by rewrite !append_nil_r, !append_assoc.
  - by rewrite !append_assoc.
Qed.

Lemma enumeration_output_run h e d ns rs constants fuel depth w :
  h !! e = Some (EnumerationObj d ns (map Some rs)) →
  enumerators_at h rs constants →
  output h (S fuel) (Some e) depth w
  = (Ok tt,
     mkCodeWriter
       (out w +:+ enumeration_text (default 0 depth) (name d) constants)
       true 2).
Proof.
  intros He Hrs. cbn [output].
  eapply bind_run; [by apply obj_at_run|]. cbn beta iota zeta.
  eapply bind_run; [reflexivity|].
  pose proof (Forall2_length _ _ _ Hrs) as Hlen.
  destruct rs as [|r rs], constants as [|kv constants]; try done.
  - cbn [map]. eapply bind_run.
    { eapply bind_run; reflexivity. }
    unfold clear_block, modify. rewrite clear_block_spec. cbn.
    unfold enumeration_text. by rewrite !append_assoc.
  - eapply bind_run.
    { change (Some r :: map Some rs) with (map Some (r :: rs)).
      by apply enumerator_lines_run. }
    unfold clear_block, modify. rewrite clear_block_spec.
    unfold enumeration_text.
    generalize (enumerator_lines (default 0 depth + 1) (kv :: constants)).
    intros t. cbn. by rewrite !append_assoc.
Qed.

(** X19.  [Enumeration.output] on an enumeration whose enumerators are
    [EnumValue]s: it returns, and what it adds to the text is the line
    [class <name>(Enum):], one line [<key> = <value>] for every enumerator,
    in their order and one level deeper, and two blank lines; an enumeration
    without enumerators gets the line [pass], four spaces deep at every
    depth.  The writer is left at the start of a line, the block closed. *)
Theorem enumeration_output h e d ns rs constants fuel depth w :
  h !! e = Some (EnumerationObj d ns (map Some rs)) →
  enumerators_at h rs constants →
  output h (S fuel) (Some e) depth w
  = (Ok tt,
     mkCodeWriter
       (out w +:+ enumeration_text (default 0 depth) (name d) constants)
       true 2).
Proof. by apply enumeration_output_run. Qed.

Lemma enumeration_output_witness :
  output
    [EnumerationObj (mkDecl None (Some "Colour")) [] [Some 1; Some 2];
     EnumValueObj "RED" 0; EnumValueObj "GREEN" 5]
    1 (Some 0) None (CodeWriter_new "")
  = (Ok tt,
     mkCodeWriter
       ("class Colour(Enum):" +:+ nl +:+ "    RED = 0" +:+ nl
        +:+ "    GREEN = 5" +:+ nl +:+ nl +:+ nl) true 2).
Proof.
  refine (enumeration_output
            [EnumerationObj (mkDecl None (Some "Colour")) []
               [Some 1; Some 2];
             EnumValueObj "RED" 0; EnumValueObj "GREEN" 5]
            0 _ _ [1; 2] [("RED", 0%Z); ("GREEN", 5%Z)]
            0 None (CodeWriter_new "") eq_refl _).
  repeat constructor.
Defined.

Lemma enumerators_at_app constants : ∀ h n,
  length h = n →
  enumerators_at (h ++ EnumValue_objects constants)
    (seq n (length constants)) constants.
Proof.
  induction constants as [|kv constants IH]; intros h n Hn; [constructor|].
  cbn. constructor.
  - by apply lookup_app_at'.
  - specialize (IH (h ++ [EnumValueObj kv.1 kv.2]) (S n)).
    rewrite <- (assoc_L (++)) in IH. apply IH.
    rewrite length_app. cbn. lia.
Qed.

Lemma add_to_context_enumeration_run m d ns ds im sm decl de nse es s :
  heap s !! m = Some (ModuleObj d ns ds im sm) →
  heap s !! decl = Some (EnumerationObj de nse es) →
  add_to_context decl (Some m) s
  = (Ok tt,
     with_obj m
       (ModuleObj d ns (OrderedDict.setitem (name de) decl ds)
          (if bool_decide ("from enum import Enum" ∈ im) then im
           else im ++ ["from enum import Enum"]) sm) s).
Proof.
  intros Hm Hd. unfold add_to_context.
  eapply bind_run; [by apply deref_run|]. cbn beta iota.
  by eapply (proj1 (add_declaration_enumeration_run _ _ _ _ _ _ _ _ _ _ _
                      Hm Hd)).
Qed.

(** X20.  A file with one enumeration, from the syntax tree to the text:
    [Generator.parse] and [Generator.output] return, and the text is the
    import of [Enum], two blank lines, and the class of the enumeration with
    its enumerators, whatever the name of the module, the name of the
    enumeration and the constants. *)
Theorem translate_enum py module_name filename name constants :
  filename ≠ "" →
  translate py module_name filename
    (translation_unit filename [enum_decl filename name constants])
  = (Ok tt,
     "from enum import Enum" +:+ nl +:+ nl +:+ nl
     +:+ enumeration_text 0 (Some name) constants).
Proof.
  intros Hfile. unfold translate.
  set (self := mkGenerator 0 [abspath py filename]).
  set (s0 := mkState [ModuleObj (mkDecl None (Some module_name)) [] [] [] []]
               [] []).
  set (enum := EnumerationObj (mkDecl (Some 0) (Some name)) []
                 (map Some (seq 2 (length constants)))).
  set (h := [ModuleObj (mkDecl None (Some module_name)) (declare name 1 [])
               [(Some name, 1)] ["from enum import Enum"] []; enum]
            ++ EnumValue_objects constants).
  assert (abspath py filename ∈ filenames self) as Hin by (cbn; constructor).
  assert ((self0 <- Generator_new module_name ;;
           Generator_parse py self0 filename
             (translation_unit filename [enum_decl filename name constants]))%py
            (mkState [] [] [])
          = (Ok self, mkState h [] [])) as ->.
  { eapply bind_run; [apply Generator_new_run|].
    unfold Generator_parse. cbn [module filenames].
    rewrite bool_decide_false by (by inversion 1). cbn [app]. fold self s0.
    eapply bind_run; [|reflexivity].
    rewrite handle_known by by apply in_files_spelling.
    unfold translation_unit at 1. cbn [call_handler kind].
    unfold handle_translation_unit. cbn [get_children].
    eapply bind_run; [|reflexivity].
    rewrite for_each_cons. eapply bind_run; [|reflexivity].
    eapply bind_run.
    { by eapply (enum_decl_run py self filename name constants 0 _ [] s0). }
    cbn [heap s0 set_heap stderr stdout length set_names list_insert insert
         app].
    erewrite add_to_context_enumeration_run; [|reflexivity|reflexivity].
    reflexivity. }
  cbn beta iota. unfold Generator_output. cbn [heap module].
  replace (module self) with 0 by done.
  assert (length h = S (S (length constants))) as ->.
  { unfold h, EnumValue_objects. cbn. by rewrite length_map. }
  assert (output h (S (S (S (length constants)))) (Some 0) None
            (CodeWriter_new "")
          = (Ok tt,
             mkCodeWriter
               ("from enum import Enum" +:+ nl +:+ nl +:+ nl
                +:+ enumeration_text 0 (Some name) constants) true 2))
    as ->; [|reflexivity].
  remember (S (length constants)) as fuel eqn:Hfuel.
  cbn [output]. eapply bind_run; [reflexivity|]. cbn beta iota zeta.
  eapply bind_run; [reflexivity|].
  eapply bind_run; [reflexivity|].
  eapply bind_run.
  { rewrite for_each_cons. eapply bind_run; [|reflexivity].
    rewrite Hfuel.
    eapply (enumeration_output_run h 1 _ _ (seq 2 (length constants))
              constants); [reflexivity|].
    unfold h. by apply (enumerators_at_app constants [_; _] 2). }
  reflexivity.
Qed.

Lemma translate_enum_witness :
  translate Sample.py "foo" Sample.file
    (translation_unit Sample.file
       [enum_decl Sample.file "Colour" [("RED", 0%Z); ("GREEN", 5%Z)]])
  = (Ok tt,
     "from enum import Enum" +:+ nl +:+ nl +:+ nl
     +:+ "class Colour(Enum):" +:+ nl +:+ "    RED = 0" +:+ nl
     +:+ "    GREEN = 5" +:+ nl +:+ nl +:+ nl).
Proof.
  apply (translate_enum Sample.py "foo" Sample.file "Colour"
           [("RED", 0%Z); ("GREEN", 5%Z)]).
  discriminate.
Defined.

(** ** Wrappers and swallowed exceptions *)

(** X21.  An unexposed expression with one child stands for the child:
    through any number of them, one in the other, [handle] does on the
    wrapped expression what it does on the expression itself, in result and
    in state.  Without a child the handler raises [StopIteration], which a
    handler above may take for the end of its own children; with more than
    one child it raises an [Exception] before any child is handled. *)
Theorem unexposed_expr_transparent py self file :
  file ≠ "" → abspath py file ∈ filenames self →
  (∀ n e context s,
     handle py self (unexposed file n e) context s
     = handle py self e context s) ∧
  (∀ context s,
     handle py self (located file CursorKind.UNEXPOSED_EXPR "" []) context s
     = (Raise StopIteration, s)) ∧
  (∀ first second rest context s,
     handle py self
       (located file CursorKind.UNEXPOSED_EXPR "" (first :: second :: rest))
       context s
     = (Raise (Exception "Unexposed expression has multiple children."), s)).
Proof.
  intros Hfile Hin. split_and!.
  - intros n e context s. induction n as [|n IH]; [done|].
    cbn [unexposed Nat.iter]. fold (unexposed file n e).
    rewrite handle_known by by apply in_files_node.
    cbn [call_handler kind located]. unfold handle_unexposed_expr.
    cbn [get_children]. eapply bind_run; [|exact IH].
    by eapply try_catch_run.
  - intros context s. by rewrite handle_known by by apply in_files_node.
  - intros first second rest context s.
    by rewrite handle_known by by apply in_files_node.
Qed.

Lemma unexposed_expr_transparent_witness :
  handle Sample.py Sample.self
    (unexposed Sample.file 3 (Sample.node CursorKind.DECL_REF_EXPR "x" [] []))
    None Sample.s0
  = (Ok (Some 1), set_heap (heap Sample.s0 ++ [ReferenceObj "x"]) Sample.s0).
Proof.
  rewrite (proj1 (unexposed_expr_transparent Sample.py Sample.self
                    Sample.file ltac:(discriminate) ltac:(constructor))).
  reflexivity.
Defined.

Lemma try_any_ok {S A} (body : M S (option A)) s :
  ∃ v s',
    try_except body any_exn (λ _, ret None) s = (Ok v, s') ∧
    (∀ e s1, body s = (Raise e, s1) → v = None ∧ s' = s1).
Proof.
  unfold try_except. destruct (body s) as [[v|e] s1].
  - exists v, s1. by split.
  - exists None, s1. split; [done|]. by intros ? ? [= <- <-].
Qed.

(** X22.  [handle_var_decl] never raises, whatever the node, the context
    and the state: every exception of the initializer and of the making of
    the [Variable] is swallowed, and the declaration is dropped - the
    result is [None], and what was done before the exception stays done. *)
Theorem var_decl_never_raises py self node context s :
  ∃ v s',
    handle_var_decl (handle py self) node context s = (Ok v, s') ∧
    (∀ child rest e s1,
       type_kind node ≠ TypeKind.RECORD →
       get_children node = child :: rest →
       handle py self child context s = (Raise e, s1) →
       v = None ∧ s' = s1).
Proof.
  unfold handle_var_decl.
  match goal with
  | |- context [try_except ?b any_exn ?h s] =>
      destruct (try_any_ok b s) as (v & s' & Hrun & Hdrop)
  end.
  exists v, s'. split; [exact Hrun|].
  intros child rest e s1 Hk Hch E. apply (Hdrop e s1).
  rewrite Hch. destruct (type_kind node); try done.
  all: by apply bind_raise_run.
Qed.

Lemma var_decl_never_raises_witness :
  ∃ v s',
    handle_var_decl (handle Sample.py Sample.self)
      (Sample.node CursorKind.VAR_DECL "x" []
         [Sample.node CursorKind.PAREN_EXPR "" [] []])
      (Some 0) Sample.s0 = (Ok v, s') ∧ v = None ∧ s' = Sample.s0.
Proof.
  destruct (var_decl_never_raises Sample.py Sample.self
              (Sample.node CursorKind.VAR_DECL "x" []
                 [Sample.node CursorKind.PAREN_EXPR "" [] []])
              (Some 0) Sample.s0) as (v & s' & Hrun & Hdrop).
  exists v, s'. split; [exact Hrun|].
  eapply Hdrop; [discriminate|reflexivity|reflexivity].
Defined.

(** X23.  [handle_decl_stmt] raises one exception only.  Without a child,
    and when the child raises [StopIteration], it returns [None]; every
    other exception of the child comes out as
    [Exception("Don't know how to handle multiple statements")]; and when
    the child returns, it returns what the child returns. *)
Theorem decl_stmt_errors py self node context s :
  match get_children node with
  | [] => handle_decl_stmt (handle py self) node context s = (Ok None, s)
  | child :: _ =>
      match handle py self child context s with
      | (Ok v, s1) =>
          handle_decl_stmt (handle py self) node context s = (Ok v, s1)
      | (Raise StopIteration, s1) =>
          handle_decl_stmt (handle py self) node context s = (Ok None, s1)
      | (Raise _, s1) =>
          handle_decl_stmt (handle py self) node context s
          = (Raise (Exception "Don't know how to handle multiple statements"),
             s1)
      end
  end.
Proof.
  unfold handle_decl_stmt, try_except.
  destruct (get_children node) as [|child rest]; [done|].
  destruct (handle py self child context s) as [[v|e] s1]; [done|].
  by destruct e.
Qed.

(** ** Constructors without a body *)

(** X25.  [Constructor.output] on a constructor that never got a statement
    (a prototype whose definition was not seen).  In a class without
    attributes it writes the head and [pass] and ends the block with one
    blank line.  In a class with attributes it writes the head and the line
    of every attribute and then raises [TypeError], its statements being
    [None] where the loop wants a list: such a class is not written. *)
Theorem constructor_without_body_output h c d ns parameters names
    k dk nsk sup ctor dtor attributes methods lines fuel depth w :
  h !! c = Some (ConstructorObj d ns parameters None) →
  parent d = Some k →
  h !! k = Some (ClassObj dk nsk sup ctor dtor attributes methods) →
  parameter_names h parameters names →
  Forall2 (attribute_line h fuel) attributes.*2 lines →
  let depth_ := default 0%nat depth in
  output h (S (S fuel)) (Some c) depth w
  = match attributes with
    | [] =>
        (Ok tt,
         mkCodeWriter
           (out w +:+ init_header depth_ names +:+ indent (depth_ + 1)
            +:+ "pass" +:+ nl +:+ nl) true 1)
    | _ =>
        (Raise TypeError,
         mkCodeWriter
           (out w +:+ init_header depth_ names
            +:+ lines_text (depth_ + 1) lines) true 0)
    end.
Proof.
  intros Hc Hp Hk Hn Hl depth_.
  remember (S fuel) as fuel1 eqn:Hfuel.
  cbn [output]. subst fuel1. eapply bind_run; [by apply obj_at_run|].
  cbn beta iota zeta. fold depth_.
  eapply bind_run; [by apply init_header_run|].
  rewrite Hp. eapply bind_run.
  { eapply bind_run; [by apply obj_at_run|]. reflexivity. }
  destruct attributes as [|na attributes].
  - eapply bind_run; [reflexivity|].
    unfold clear_block, modify. rewrite clear_block_spec. cbn.
    by rewrite !append_assoc.
  - eapply bind_raise_run. eapply bind_run.
    { by apply (attribute_lines_run _ _ _ lines). }
    apply Forall2_length in Hl. destruct lines as [|l lines]; [done|].
    cbn. unfold raise. by rewrite !append_assoc.
Qed.

Lemma constructor_without_body_output_witness :
  let h :=
    [ClassObj (mkDecl None (Some "A")) [] None (Some 1) None
       [(Some "x", 2)] [];
     ConstructorObj (mkDecl (Some 0) None) [] [] None;
     AttributeObj (mkDecl (Some 0) (Some "x")) None] in
  output h 2 (Some 1) (Some 1) (CodeWriter_new "")
  = (Raise TypeError,
     mkCodeWriter
       ("    def __init__(self):" +:+ nl +:+ "        self.x = None" +:+ nl)
       true 0).
Proof.
  intros h.
  refine (constructor_without_body_output h 1 _ _ [] [] 0 _ _ _ _ _ _ _
            ["self.x = None"] 0 (Some 1) (CodeWriter_new "")
            eq_refl eq_refl eq_refl _ _).
  - constructor.
  - repeat constructor. by exists (mkDecl (Some 0) (Some "x")), None, "None".
Defined.

(** ** Members that give no object *)

Lemma handle_silent py self node context s :
  known py self node = true → silent node = true →
  handle py self node context s = (Ok None, s).
Proof.
  intros Hk Hs. rewrite handle_known by by apply in_files_known.
  unfold call_handler, silent in *.
  destruct (kind node); try done.
  unfold handle_field_decl. by destruct (get_children node).
Qed.

Lemma members_silent py self members (context : Value) s :
  Forall (λ c, known py self c && silent c = true) members →
  for_each members
    (λ child,
       decl <- handle py self child context ;;
       match decl with
       | Some d => add_to_context d context
       | None => ret tt
       end)%py s = (Ok tt, s).
Proof.
  induction 1 as [|c members [Hk Hs]%andb_prop Hall IH]; [done|].
  rewrite for_each_cons. eapply bind_run; [|exact IH].
  eapply bind_run; [by apply handle_silent|]. done.
Qed.

Lemma add_to_context_class_module k dk nsk sup ctor dtor at_ me
    m d ns ds im sm s :
  heap s !! k = Some (ClassObj dk nsk sup ctor dtor at_ me) →
  heap s !! m = Some (ModuleObj d ns ds im sm) →
  add_to_context k (Some m) s
  = (Ok tt,
     with_obj m (ModuleObj d ns (OrderedDict.setitem (name dk) k ds) im sm)
       s).
Proof.
  intros Hk Hm. assert (k ≠ m) as Hkm by congruence.
  unfold add_to_context. eapply bind_run; [by apply deref_run|].
  cbn beta iota. unfold add_declaration.
  eapply bind_run; [by apply receiver_run|]. cbn beta iota.
  eapply bind_run.
  { unfold getattr_name. eapply bind_run; [by apply deref_run|]. done. }
  eapply bind_run; [reflexivity|].
  eapply (add_imports_plain k (ClassObj dk nsk sup ctor dtor at_ me));
    [|exact I].
  cbn. by rewrite list_lookup_insert_ne.
Qed.

(** X24.  Fields without an initializer, access specifiers and type
    definitions leave no trace.  A file with one class whose members are
    all of these is translated, and the text is the class with the body
    [pass]: the fields are in no symbol table, no attribute and no line. *)
Theorem translate_class_of_silent_members py module_name filename name
    members :
  filename ≠ "" →
  Forall (λ c, known py (mkGenerator 0 [abspath py filename]) c
               && silent c = true) members →
  translate py module_name filename
    (translation_unit filename
       [located filename CursorKind.CLASS_DECL name members])
  = (Ok tt,
     "class " +:+ name +:+ ":" +:+ nl +:+ "    pass" +:+ nl +:+ nl +:+ nl).
Proof.
  intros Hfile Hall. unfold translate.
  set (self := mkGenerator 0 [abspath py filename]).
  set (s0 := mkState [ModuleObj (mkDecl None (Some module_name)) [] [] [] []]
               [] []).
  set (h := [ModuleObj (mkDecl None (Some module_name)) (declare name 1 [])
               [(Some name, 1)] [] [];
             ClassObj (mkDecl (Some 0) (Some name)) [] None None None [] []]).
  assert (abspath py filename ∈ filenames self) as Hin by (cbn; constructor).
  assert ((self0 <- Generator_new module_name ;;
           Generator_parse py self0 filename
             (translation_unit filename
                [located filename CursorKind.CLASS_DECL name members]))%py
            (mkState [] [] [])
          = (Ok self, mkState h [] [])) as ->.
  { eapply bind_run; [apply Generator_new_run|].
    unfold Generator_parse. cbn [module filenames].
    rewrite bool_decide_false by (by inversion 1). cbn [app]. fold self s0.
    eapply bind_run; [|reflexivity].
    rewrite handle_known by by apply in_files_spelling.
    unfold translation_unit at 1. cbn [call_handler kind].
    unfold handle_translation_unit. cbn [get_children].
    eapply bind_run; [|reflexivity].
    rewrite for_each_cons. eapply bind_run; [|reflexivity].
    eapply bind_run.
    { rewrite handle_known by by apply in_files_node.
      cbn [call_handler kind located]. unfold handle_class_decl.
      cbn [spelling get_children located].
      eapply bind_run.
      { unfold Class_new. eapply bind_run; [apply alloc_run|].
        eapply bind_run; [|reflexivity].
        by eapply Declaration_init_context. }
      eapply bind_run; [|reflexivity]. by apply members_silent. }
    cbn [heap s0 set_heap stderr stdout length set_names list_insert insert
         app with_obj].
    erewrite add_to_context_class_module; [|reflexivity|reflexivity].
    reflexivity. }
  cbn beta iota. unfold Generator_output. cbn [heap module].
  replace (module self) with 0 by done.
  cbn. unfold CodeWriter_clear_block, CodeWriter_clear_line. cbn.
  rewrite clear_block_loop_spec by (cbn; lia). cbn.
  rewrite !append_assoc, !append_nil_l. reflexivity.
Qed.

Lemma translate_class_of_silent_members_witness :
  translate Sample.py "foo" Sample.file
    (translation_unit Sample.file
       [located Sample.file CursorKind.CLASS_DECL "Point"
          [located Sample.file CursorKind.CXX_ACCESS_SPEC_DECL "" [];
           located Sample.file CursorKind.FIELD_DECL "x" [];
           located Sample.file CursorKind.FIELD_DECL "y" []]])
  = (Ok tt,
     "class Point:" +:+ nl +:+ "    pass" +:+ nl +:+ nl +:+ nl).
Proof.
  apply (translate_class_of_silent_members Sample.py "foo" Sample.file
           "Point").
  - discriminate.
  - repeat constructor.
Defined.

(** ** Functions *)

Section FunctionDecl.
Context (py : Builtins) (self : Generator) (file : string).
Context (Hfile : file ≠ "") (Hin : abspath py file ∈ filenames self).

Lemma handle_function_parameter_run p f d ns ps ss s :
  heap s !! f = Some (FunctionObj d ns ps ss) →
  handle py self (located file CursorKind.PARM_DECL p []) (Some f) s
  = (Ok (Some (length (heap s))),
     set_heap
       (<[f := FunctionObj d (declare p (length (heap s)) ns) ps ss]> (heap s)
        ++ [ParameterObj (mkDecl (Some f) (Some p)) None None]) s).
Proof.
  intros Hf. assert (f < length (heap s)) as Hlt by by eapply lookup_lt_Some.
  rewrite handle_known by by apply in_files_node.
  cbn. unfold handle_parm_decl, Parameter_new. cbn.
  eapply bind_run.
  { eapply bind_run; [apply alloc_run|].
    eapply bind_run; [|reflexivity].
    eapply Declaration_init_context; [by apply heap_alloc_old|done]. }
  cbn. unfold ret, with_obj. cbn. by rewrite insert_app_l.
Qed.

Lemma function_parameters_run f d ss params : ∀ ns ps s,
  heap s !! f = Some (FunctionObj d ns ps ss) →
  for_each (parameters file params)
    (λ child,
       decl <- handle py self child (Some f) ;;
       match decl with
       | Some d => add_to_context d (Some f)
       | None => ret tt
       end)%py s
  = (Ok tt,
     set_heap
       (<[f := FunctionObj d (declare_all params (length (heap s)) ns)
                 (ps ++ seq (length (heap s)) (length params)) ss]> (heap s)
        ++ Parameter_objects f params) s).
Proof.
  induction params as [|p params IH]; intros ns ps s Hf.
  - cbn. unfold ret. rewrite !app_nil_r, list_insert_id by done.
    by rewrite set_heap_id.
  - assert (f < length (heap s)) as Hlt by by eapply lookup_lt_Some.
    cbn [parameters map]. rewrite for_each_cons. eapply bind_run.
    { eapply bind_run; [by apply handle_function_parameter_run|].
      cbn beta iota. unfold add_to_context. eapply bind_run.
      { apply deref_run. cbn. apply lookup_app_at'.
        by rewrite length_insert. }
      cbn beta iota. unfold add_parameter. eapply bind_run.
      { apply receiver_run. cbn.
        rewrite lookup_app_l by by rewrite length_insert.
        by apply list_lookup_insert_eq. }
      reflexivity. }
    unfold store, modify. cbn [heap set_heap stderr stdout].
    rewrite insert_insert_app by done.
    erewrite IH; cycle 1.
    { cbn. rewrite lookup_app_l by by rewrite length_insert.
      by apply list_lookup_insert_eq. }
    cbn [heap set_heap stderr stdout].
    rewrite length_app, length_insert, Nat.add_1_r.
    rewrite insert_insert_app by done.
    by rewrite <- !(assoc_L (++)).
Qed.

Lemma function_decl_run name params body m d ns ds im sm s :
  heap s !! m = Some (ModuleObj d ns ds im sm) →
  let f := length (heap s) in
  handle py self (function_decl file name params body) (Some m) s
  = (Ok (Some f),
     set_heap
       (<[m := ModuleObj d (declare name f ns) ds im sm]> (heap s)
        ++ [FunctionObj (mkDecl (Some m) (Some name))
              (declare_all params (S f) []) (seq (S f) (length params)) []]
        ++ Parameter_objects f params) s).
Proof.
  intros Hm f. assert (m < length (heap s)) as Hlt by by eapply lookup_lt_Some.
  unfold function_decl. rewrite handle_known by by apply in_files_node.
  cbn [call_handler kind located]. unfold handle_function_decl.
  cbn [spelling get_children located result_type_kind].
  eapply bind_run.
  { unfold Function_new. eapply bind_run; [apply alloc_run|].
    eapply bind_run; [|reflexivity].
    eapply Declaration_init_context; [by apply heap_alloc_old|done]. }
  unfold with_obj. cbn [set_names heap set_heap stderr stdout].
  rewrite insert_app_l by done.
  eapply bind_run; [|reflexivity].
  rewrite for_each_app. eapply bind_run.
  { eapply function_parameters_run. cbn. apply lookup_app_at'.
    by rewrite length_insert. }
  cbn [heap set_heap stderr stdout].
  rewrite length_app, length_insert, Nat.add_1_r. fold f.
  rewrite (insert_app_at' _ f) by by rewrite length_insert.
  rewrite <- (assoc_L (++)). cbn [app].
  destruct body; [|reflexivity].
  rewrite for_each_cons. eapply bind_run; [|reflexivity].
  eapply bind_run.
  { rewrite handle_known by by apply in_files_node. reflexivity. }
  reflexivity.
Qed.
End FunctionDecl.

Lemma add_to_context_function_module f df nsf ps ss m d ns ds im sm s :
  heap s !! f = Some (FunctionObj df nsf ps ss) →
  heap s !! m = Some (ModuleObj d ns ds im sm) →
  add_to_context f (Some m) s
  = (Ok tt,
     with_obj m (ModuleObj d ns (OrderedDict.setitem (name df) f ds) im sm)
       s).
Proof.
  intros Hf Hm. assert (f ≠ m) as Hfm by congruence.
  unfold add_to_context. eapply bind_run; [by apply deref_run|].
  cbn beta iota. unfold add_declaration.
  eapply bind_run; [by apply receiver_run|]. cbn beta iota.
  eapply bind_run.
  { unfold getattr_name. eapply bind_run; [by apply deref_run|]. done. }
  eapply bind_run; [reflexivity|].
  eapply (add_imports_plain f (FunctionObj df nsf ps ss)); [|exact I].
  cbn. by rewrite list_lookup_insert_ne.
Qed.

Lemma parameter_names_app f params : ∀ h n,
  length h = n →
  parameter_names (h ++ Parameter_objects f params)
    (seq n (length params)) (map Some params).
Proof.
  induction params as [|p params IH]; intros h n Hn; [constructor|].
  cbn. constructor.
  - eexists _, _. split; [by apply lookup_app_at'|]. done.
  - specialize (IH (h ++ [ParameterObj (mkDecl (Some f) (Some p)) None None])
                  (S n)).
    rewrite <- (assoc_L (++)) in IH. apply IH.
    rewrite length_app. cbn. lia.
Qed.

Lemma map_m_names (names : list string) (w : CodeWriter) :
  map_m (λ n : option string,
           match n with
           | Some s => ret s
           | None => raise TypeError
           end) (map Some names) w = (Ok names, w).
Proof.
  revert w. induction names as [|n names IH]; intros w; [done|].
  cbn. eapply bind_run; [exact (IH w)|]. done.
Qed.

Lemma function_output_empty h f d ns ps params fuel depth w :
  h !! f = Some (FunctionObj d ns ps []) →
  parameter_names h ps (map Some params) →
  output h (S fuel) (Some f) depth w
  = (Ok tt,
     mkCodeWriter
       (out w +:+ indent (default 0 depth) +:+ "def " +:+ PyStr.fmt (name d)
        +:+ "(" +:+ PyStr.join ", " params +:+ "):" +:+ nl
        +:+ "    pass" +:+ nl +:+ nl +:+ nl) true 2).
Proof.
  intros Hf Hn. cbn [output].
  eapply bind_run; [by apply obj_at_run|]. cbn beta iota zeta.
  eapply bind_run.
  { unfold join_names. eapply bind_run; [by apply map_m_name_at|].
    eapply bind_run; [apply map_m_names|]. reflexivity. }
  eapply bind_run; [reflexivity|].
  eapply bind_run; [reflexivity|].
  unfold clear_block, modify. rewrite clear_block_spec. cbn.
  by rewrite !append_assoc.
Qed.

(** X26.  A file with one function that has parameters and no statement -
    a declaration, or a definition with an empty body - from the syntax tree
    to the text: the function is written with the names of its parameters,
    in their order, and the body [pass], and two blank lines after it. *)
Theorem translate_function py module_name filename name params body :
  filename ≠ "" →
  translate py module_name filename
    (translation_unit filename [function_decl filename name params body])
  = (Ok tt, empty_function_text name params).
Proof.
  intros Hfile. unfold translate.
  set (self := mkGenerator 0 [abspath py filename]).
  set (s0 := mkState [ModuleObj (mkDecl None (Some module_name)) [] [] [] []]
               [] []).
  set (function := FunctionObj (mkDecl (Some 0) (Some name))
                     (declare_all params 2 []) (seq 2 (length params)) []).
  set (h := [ModuleObj (mkDecl None (Some module_name)) (declare name 1 [])
               [(Some name, 1)] [] []; function]
            ++ Parameter_objects 1 params).
  assert (abspath py filename ∈ filenames self) as Hin by (cbn; constructor).
  assert ((self0 <- Generator_new module_name ;;
           Generator_parse py self0 filename
             (translation_unit filename
                [function_decl filename name params body]))%py
            (mkState [] [] [])
          = (Ok self, mkState h [] [])) as ->.
  { eapply bind_run; [apply Generator_new_run|].
    unfold Generator_parse. cbn [module filenames].
    rewrite bool_decide_false by (by inversion 1). cbn [app]. fold self s0.
    eapply bind_run; [|reflexivity].
    rewrite handle_known by by apply in_files_spelling.
    unfold translation_unit at 1. cbn [call_handler kind].
    unfold handle_translation_unit. cbn [get_children].
    eapply bind_run; [|reflexivity].
    rewrite for_each_cons. eapply bind_run; [|reflexivity].
    eapply bind_run.
    { by eapply (function_decl_run py self filename Hfile Hin name params
                   body 0 _ [] [] [] [] s0). }
    cbn [heap s0 set_heap stderr stdout length set_names list_insert insert
         app].
    erewrite add_to_context_function_module; [|reflexivity|reflexivity].
    reflexivity. }
  cbn beta iota. unfold Generator_output. cbn [heap module].
  replace (module self) with 0 by done.
  assert (length h = S (S (length params))) as ->.
  { unfold h, Parameter_objects. cbn. by rewrite length_map. }
  assert (output h (S (S (S (length params)))) (Some 0) None
            (CodeWriter_new "")
          = (Ok tt, mkCodeWriter (empty_function_text name params) true 2))
    as ->; [|reflexivity].
  remember (S (length params)) as fuel eqn:Hfuel.
  cbn [output]. eapply bind_run; [reflexivity|]. cbn beta iota zeta.
  eapply bind_run; [reflexivity|].
  eapply bind_run; [reflexivity|].
  eapply bind_run.
  { rewrite for_each_cons. eapply bind_run; [|reflexivity].
    rewrite Hfuel.
    eapply (function_output_empty h 1 _ _ _ params); [reflexivity|].
    unfold h. by apply (parameter_names_app 1 params [_; _] 2). }
  reflexivity.
Qed.

Lemma translate_function_witness :
  translate Sample.py "foo" Sample.file
    (translation_unit Sample.file
       [function_decl Sample.file "area" ["w"; "h"] true])
  = (Ok tt,
     "def area(w, h):" +:+ nl +:+ "    pass" +:+ nl +:+ nl +:+ nl).
Proof.
  apply (translate_function Sample.py "foo" Sample.file "area" ["w"; "h"]
           true).
  discriminate.
Defined.

(** X27.  A function whose result type is a record, a reference or a
    pointer: [handle_function_decl] skips the first child as the reference
    to the type, whatever the child is.  The function is handled as the
    function of an other result type that has the remaining children only -
    for a pointer to a type without a name, whose first child is the first
    parameter, without that parameter.  Without any child the skip fails:
    the handler raises. *)
Theorem function_result_type_skips py self file name result first rest
    context s :
  file ≠ "" → abspath py file ∈ filenames self →
  result ∈ [TypeKind.RECORD; TypeKind.LVALUEREFERENCE; TypeKind.POINTER] →
  handle py self
    (mkNode CursorKind.FUNCTION_DECL name (Some file) TypeKind.OTHER result
       false 0 [] (first :: rest)) context s
  = handle py self (located file CursorKind.FUNCTION_DECL name rest) context s
  ∧ ∃ e s',
      handle py self
        (mkNode CursorKind.FUNCTION_DECL name (Some file) TypeKind.OTHER
           result false 0 [] []) context s
      = (Raise e, s').
Proof.
  intros Hfile Hin Hres.
  assert (result = TypeKind.RECORD ∨ result = TypeKind.LVALUEREFERENCE
          ∨ result = TypeKind.POINTER) as Hcases.
  { repeat (apply elem_of_cons in Hres as [->|Hres]; [by eauto|]).
    inversion Hres. }
  split.
  - rewrite !handle_known by by eapply in_files_located.
    cbn [call_handler kind located]. unfold handle_function_decl.
    cbn [get_children result_type_kind spelling located].
    by destruct Hcases as [->|[->| ->]].
  - rewrite !handle_known by by eapply in_files_located.
    cbn [call_handler kind]. unfold handle_function_decl, bind.
    cbn [get_children result_type_kind spelling].
    destruct (Function_new context name s) as [[f|e] s1]; [|by eauto].
    destruct Hcases as [->|[->| ->]]; cbn; eauto.
Qed.

Lemma function_result_type_skips_witness :
  handle Sample.py Sample.self
    (mkNode CursorKind.FUNCTION_DECL "find" (Some Sample.file) TypeKind.OTHER
       TypeKind.POINTER false 0 []
       [located Sample.file CursorKind.PARM_DECL "key" [];
        located Sample.file CursorKind.PARM_DECL "n" []])
    (Some 0) Sample.s0
  = handle Sample.py Sample.self
      (located Sample.file CursorKind.FUNCTION_DECL "find"
         [located Sample.file CursorKind.PARM_DECL "n" []])
      (Some 0) Sample.s0.
Proof.
  apply (function_result_type_skips Sample.py Sample.self Sample.file "find"
           TypeKind.POINTER).
  - discriminate.
  - constructor.
  - repeat constructor.
Defined.

(** ** Calls *)

Lemma write_write t1 t2 w :
  CodeWriter_write t2 (CodeWriter_write t1 w) = CodeWriter_write (t1 +:+ t2) w.
Proof. unfold CodeWriter_write. cbn. by rewrite append_assoc. Qed.

Lemma join_cons sep t ts :
  PyStr.join sep (t :: ts)
  = t +:+ foldr (λ x acc, sep +:+ x +:+ acc) "" ts.
Proof.
  revert t. induction ts as [|t' ts IH]; intros t.
  - cbn. by rewrite append_nil_r.
  - change (PyStr.join sep (t :: t' :: ts))
      with (t +:+ sep +:+ PyStr.join sep (t' :: ts)).
    rewrite IH. reflexivity.
Qed.

Lemma arguments_run h fuel rest texts : ∀ t0 w,
  Forall2 (λ a t, writes (output h fuel a None) t) rest texts →
  for_each rest (λ arg, write ", " ;;; output h fuel arg None)
    (CodeWriter_write t0 w)
  = (Ok tt,
     CodeWriter_write
       (t0 +:+ foldr (λ x acc, ", " +:+ x +:+ acc) "" texts) w).
Proof.
  intros t0 w H. revert t0.
  induction H as [|a t rest texts Ha Hrest IH]; intros t0.
  - cbn. by rewrite append_nil_r.
  - rewrite for_each_cons. eapply bind_run.
    { eapply bind_run; [reflexivity|]. apply Ha. }
    rewrite !write_write, IH. cbn. by rewrite !append_assoc.
Qed.

Lemma function_call_writes h r fn arguments fn_text texts fuel :
  h !! r = Some (FunctionCallObj fn arguments) →
  writes (output h fuel fn None) fn_text →
  Forall2 (λ a t, writes (output h fuel a None) t) arguments texts →
  writes (output h (S fuel) (Some r) None)
    (fn_text +:+ "(" +:+ PyStr.join ", " texts +:+ ")").
Proof.
  intros Hr Hfn Hargs w. cbn [output].
  eapply bind_run; [by apply obj_at_run|]. cbn beta iota zeta.
  eapply bind_run; [reflexivity|].
  eapply bind_run; [apply Hfn|].
  eapply bind_run; [reflexivity|].
  unfold write at 1, modify. rewrite write_write.
  destruct Hargs as [|a t rest texts' Ha Hrest].
  - eapply bind_run; [reflexivity|]. unfold write, modify.
    rewrite write_write. cbn. by rewrite !append_assoc.
  - eapply bind_run.
    { eapply bind_run; [apply Ha|]. rewrite write_write.
      by apply arguments_run. }
    unfold write, modify. rewrite write_write, join_cons.
    by rewrite !append_assoc.
Qed.

(** X28.  [FunctionCall.output]: when the callee writes [fn_text] and the
    arguments write [texts], the call writes the callee, an opening
    parenthesis, the arguments with a comma and a space between one and the
    next - none before the first, none after the last, nothing for a call
    without arguments - and a closing parenthesis. *)
Theorem function_call_output h r fn arguments fn_text texts fuel :
  h !! r = Some (FunctionCallObj fn arguments) →
  writes (output h fuel fn None) fn_text →
  Forall2 (λ a t, writes (output h fuel a None) t) arguments texts →
  writes (output h (S fuel) (Some r) None)
    (fn_text +:+ "(" +:+ PyStr.join ", " texts +:+ ")").
Proof. apply function_call_writes. Qed.

Lemma function_call_output_witness :
  output
    [ReferenceObj "f"; FunctionCallObj (Some 0) [Some 2; Some 3];
     ReferenceObj "a"; ReferenceObj "b"]
    2 (Some 1) None (CodeWriter_new "")
  = (Ok tt, CodeWriter_write "f(a, b)" (CodeWriter_new "")).
Proof.
  refine (function_call_output
            [ReferenceObj "f"; FunctionCallObj (Some 0) [Some 2; Some 3];
             ReferenceObj "a"; ReferenceObj "b"]
            1 (Some 0) [Some 2; Some 3] "f" ["a"; "b"] 1 eq_refl _ _
            (CodeWriter_new "")).
  - intros w. reflexivity.
  - repeat constructor.
Defined.

Section CallExpr.
Context (py : Builtins) (self : Generator) (file : string).
Context (Hfile : file ≠ "") (Hin : abspath py file ∈ filenames self).

Lemma name_ref_run name context s :
  handle py self (name_ref file name) context s
  = (Ok (Some (length (heap s))),
     set_heap (heap s ++ [ReferenceObj name]) s).
Proof.
  unfold name_ref. rewrite handle_known by by apply in_files_node.
  reflexivity.
Qed.

Lemma call_arguments_run fn callee context args : ∀ cur s,
  heap s !! fn = Some (FunctionCallObj callee cur) →
  for_each (map (name_ref file) args)
    (λ child,
       argument <- handle py self child context ;;
       FunctionCall_add_argument fn argument)%py s
  = (Ok tt,
     set_heap
       (<[fn := FunctionCallObj callee
                  (cur ++ map Some (seq (length (heap s)) (length args)))]>
          (heap s)
        ++ map ReferenceObj args) s).
Proof.
  induction args as [|a args IH]; intros cur s Hfn.
  - cbn. unfold ret. rewrite !app_nil_r, list_insert_id by done.
    by rewrite set_heap_id.
  - assert (fn < length (heap s)) as Hlt by by eapply lookup_lt_Some.
    cbn [map]. rewrite for_each_cons. eapply bind_run.
    { eapply bind_run; [apply name_ref_run|].
      unfold FunctionCall_add_argument.
      apply (update_run fn _ (FunctionCallObj callee cur)).
      by apply heap_alloc_old. }
    unfold with_obj. cbn [heap set_heap stderr stdout].
    rewrite insert_app_l by done.
    erewrite IH; cycle 1.
    { cbn. rewrite lookup_app_l by by rewrite length_insert.
      by apply list_lookup_insert_eq. }
    cbn [heap set_heap stderr stdout].
    rewrite length_app, length_insert, Nat.add_1_r.
    rewrite insert_insert_app by done.
    by rewrite <- !(assoc_L (++)).
Qed.

Lemma call_expr_run f args context s :
  let n := length (heap s) in
  handle py self (call_expr file f args) context s
  = (Ok (Some (S n)),
     set_heap
       (heap s
        ++ [ReferenceObj f;
            FunctionCallObj (Some n)
              (map Some (seq (S (S n)) (length args)))]
        ++ map ReferenceObj args) s).
Proof.
  intros n. unfold call_expr.
  rewrite handle_known by by apply in_files_node.
  cbn [call_handler kind located]. unfold handle_call_expr.
  cbn [get_children type_kind located].
  eapply bind_run; [apply name_ref_run|].
  eapply bind_run; [apply alloc_run|].
  cbn [heap set_heap stderr stdout]. rewrite length_app, Nat.add_1_r.
  eapply bind_run; [|reflexivity].
  erewrite call_arguments_run; cycle 1.
  { cbn. rewrite <- (assoc_L (++)). cbn [app]. apply lookup_app_at_1. }
  cbn [heap set_heap stderr stdout app].
  rewrite !length_app, !Nat.add_1_r. fold n.
  rewrite <- !(assoc_L (++)). cbn [app].
  rewrite (insert_app_at_1' (heap s) (S n)) by done.
  rewrite <- (assoc_L (++)). reflexivity.
Qed.
End CallExpr.

Lemma references_write (h0 : list Obj) args : ∀ h n fuel,
  length h = n → 
  Forall2 (λ a t, writes (output (h ++ map ReferenceObj args ++ h0) (S fuel)
                            a None) t)
    (map Some (seq n (length args))) args.
Proof.
  induction args as [|a args IH]; intros h n fuel Hn; [constructor|].
  cbn [map seq length]. constructor.
  - intros w. cbn [output]. eapply bind_run.
    { apply obj_at_run. cbn. by apply lookup_app_at'. }
    reflexivity.
  - specialize (IH (h ++ [ReferenceObj a]) (S n) fuel).
    rewrite <- (assoc_L (++)) in IH. apply IH.
    rewrite length_app. cbn. lia.
Qed.

(** X29.  The call of a name on names, from the node to the text.
    [handle_call_expr] makes the reference to the callee, the
    [FunctionCall], and one reference for every argument, added to the call
    in the order of the children; and [output] of the call writes
    [<f>(<a1>, ..., <an>)]. *)
Theorem call_of_names py self file f args context s :
  file ≠ "" → abspath py file ∈ filenames self →
  let n := length (heap s) in
  let s' :=
    set_heap
      (heap s
       ++ [ReferenceObj f;
           FunctionCallObj (Some n) (map Some (seq (S (S n)) (length args)))]
       ++ map ReferenceObj args) s in
  handle py self (call_expr file f args) context s = (Ok (Some (S n)), s') ∧
  ∀ fuel,
    writes (output (heap s') (S (S fuel)) (Some (S n)) None)
      (f +:+ "(" +:+ PyStr.join ", " args +:+ ")").
Proof.
  intros Hfile Hin n s'. split; [by apply call_expr_run|].
  intros fuel. eapply function_call_writes.
  - cbn. apply lookup_app_at_1.
  - intros w. cbn [output]. eapply bind_run.
    { apply obj_at_run. cbn. apply lookup_app_at. }
    reflexivity.
  - cbn [heap s' set_heap].
    pose proof (references_write [] args
                  (heap s ++ [ReferenceObj f;
                              FunctionCallObj (Some n)
                                (map Some (seq (S (S n)) (length args)))])
                  (S (S n)) fuel) as H.
    rewrite app_nil_r, <- (assoc_L (++)) in H. apply H.
    rewrite length_app. cbn. lia.
Qed.

Lemma call_of_names_witness :
  handle Sample.py Sample.self (call_expr Sample.file "max" ["a"; "b"]) None
    Sample.s0
  = (Ok (Some 2),
     set_heap
       (heap Sample.s0
        ++ [ReferenceObj "max"; FunctionCallObj (Some 1) [Some 3; Some 4];
            ReferenceObj "a"; ReferenceObj "b"]) Sample.s0).
Proof.
  refine (proj1 (call_of_names Sample.py Sample.self Sample.file "max"
                   ["a"; "b"] None Sample.s0 _ _)).
  - discriminate.
  - constructor.
Defined.

(** ** Methods *)

Section MethodDecl.
Context (py : Builtins) (self : Generator) (file : string).
Context (Hfile : file ≠ "") (Hin : abspath py file ∈ filenames self).

Lemma handle_method_parameter_run p m d ns ps ss pv s :
  heap s !! m = Some (MethodObj d ns ps ss pv) →
  handle py self (located file CursorKind.PARM_DECL p []) (Some m) s
  = (Ok (Some (length (heap s))),
     set_heap
       (<[m := MethodObj d (declare p (length (heap s)) ns) ps ss pv]> (heap s)
        ++ [ParameterObj (mkDecl (Some m) (Some p)) None None]) s).
Proof.
  intros Hm. assert (m < length (heap s)) as Hlt by by eapply lookup_lt_Some.
  rewrite handle_known by by apply in_files_node.
  cbn. unfold handle_parm_decl, Parameter_new. cbn.
  eapply bind_run.
  { eapply bind_run; [apply alloc_run|].
    eapply bind_run; [|reflexivity].
    eapply Declaration_init_context; [by apply heap_alloc_old|done]. }
  cbn. unfold ret, with_obj. cbn. by rewrite insert_app_l.
Qed.

Lemma method_parameters_run (context : Value) name m d ss pv params :
  ∀ ns ps s,
  heap s !! m = Some (MethodObj d ns ps ss pv) →
  for_each_with (parameters file params) (Some m)
    (λ method child,
       decl <- handle py self child method ;;
       match method with
       | None =>
           name0 <- getattr_ref decl ;;
           klass <- getitem context name0 ;;
           m0 <- getitem_methods klass name ;;
           ret (Some m0)
       | Some _ =>
           match decl with
           | Some d0 =>
               if true || negb (CursorKind.is_parm_decl (kind child))
               then add_to_context d0 method ;;; ret method
               else ret method
           | None => ret method
           end
       end)%py s
  = (Ok (Some m),
     set_heap
       (<[m := MethodObj d (declare_all params (length (heap s)) ns)
                 (ps ++ seq (length (heap s)) (length params)) ss pv]>
          (heap s)
        ++ Parameter_objects m params) s).
Proof.
  induction params as [|p params IH]; intros ns ps s Hm.
  - cbn. unfold ret. rewrite !app_nil_r, list_insert_id by done.
    by rewrite set_heap_id.
  - assert (m < length (heap s)) as Hlt by by eapply lookup_lt_Some.
    cbn [parameters map]. rewrite for_each_with_cons. eapply bind_run.
    { eapply bind_run; [by apply handle_method_parameter_run|].
      cbn [orb]. eapply bind_run; [|reflexivity].
      unfold add_to_context. eapply bind_run.
      { apply deref_run. cbn. apply lookup_app_at'.
        by rewrite length_insert. }
      cbn beta iota. unfold add_parameter. eapply bind_run.
      { apply receiver_run. cbn.
        rewrite lookup_app_l by by rewrite length_insert.
        by apply list_lookup_insert_eq. }
      reflexivity. }
    unfold store, modify. cbn [heap set_heap stderr stdout].
    rewrite insert_insert_app by done.
    erewrite IH; cycle 1.
    { cbn. rewrite lookup_app_l by by rewrite length_insert.
      by apply list_lookup_insert_eq. }
    cbn [heap set_heap stderr stdout].
    rewrite length_app, length_insert, Nat.add_1_r.
    rewrite insert_insert_app by done.
    by rewrite <- !(assoc_L (++)).
Qed.

(** The method in its class: a new method, declared in the class under
    its name, with one new object for every parameter. *)
Lemma method_decl_run name params pv k dk nsk sup ctor dtor at_ me s :
  heap s !! k = Some (ClassObj dk nsk sup ctor dtor at_ me) →
  let m := length (heap s) in
  handle py self (method_decl file name params pv) (Some k) s
  = (Ok (Some m),
     set_heap
       (<[k := ClassObj dk (declare name m nsk) sup ctor dtor at_ me]> (heap s)
        ++ [MethodObj (mkDecl (Some k) (Some name))
              (declare_all params (S m) []) (seq (S m) (length params))
              None pv]
        ++ Parameter_objects m params) s).
Proof.
  intros Hk m. assert (k < length (heap s)) as Hlt by by eapply lookup_lt_Some.
  unfold method_decl. rewrite handle_known by by eapply in_files_located.
  cbn [call_handler kind]. unfold handle_cxx_method.
  cbn [spelling get_children result_type_kind is_pure_virtual_method].
  eapply bind_run; [by apply isinstance_Class_run|]. cbn beta iota.
  eapply bind_run.
  { eapply bind_run; [|reflexivity].
    unfold Method_new. eapply bind_run; [apply alloc_run|].
    eapply bind_run; [|reflexivity].
    eapply Declaration_init_context; [by apply heap_alloc_old|done]. }
  unfold with_obj. cbn [set_names heap set_heap stderr stdout].
  rewrite insert_app_l by done.
  eapply bind_run.
  { eapply method_parameters_run. cbn. apply lookup_app_at'.
    by rewrite length_insert. }
  cbn [heap set_heap stderr stdout]. unfold ret.
  rewrite length_app, length_insert, Nat.add_1_r. fold m.
  rewrite (insert_app_at' _ m) by by rewrite length_insert.
  by rewrite <- (assoc_L (++)).
Qed.
End MethodDecl.

Lemma add_to_context_method_run m d ns ps ss pv k dk nsk sup ctor dtor at_
    me context s :
  heap s !! m = Some (MethodObj d ns ps ss pv) →
  parent d = Some k →
  heap s !! k = Some (ClassObj dk nsk sup ctor dtor at_ me) →
  add_to_context m context s
  = (Ok tt,
     with_obj k
       (ClassObj dk nsk sup ctor dtor at_
          (OrderedDict.setitem (name d) m me)) s).
Proof.
  intros Hm Hp Hk. unfold add_to_context.
  eapply bind_run; [by apply deref_run|]. cbn beta iota. rewrite Hp.
  unfold Class_add_method.
  eapply bind_run; [by apply receiver_run|]. cbn beta iota.
  eapply bind_run.
  { unfold getattr_name. eapply bind_run; [by apply deref_run|]. done. }
  reflexivity.
Qed.

Lemma method_output_empty h m d ns ps params pv fuel depth w :
  h !! m = Some (MethodObj d ns ps None pv) →
  parameter_names h ps (map Some params) →
  output h (S fuel) (Some m) (Some depth) w
  = (Ok tt,
     mkCodeWriter
       (out w +:+ indent depth +:+ "def " +:+ PyStr.fmt (name d)
        +:+ match params with
            | [] => "(self):"
            | _ => "(self, " +:+ PyStr.join ", " params +:+ "):"
            end +:+ nl
        +:+ indent (depth + 1)
        +:+ (if pv then "raise NotImplementedError()" else "pass")
        +:+ nl +:+ nl) true 1).
Proof.
  intros Hm Hn.
  set (header := indent depth +:+ "def " +:+ PyStr.fmt (name d)
                 +:+ match params with
                     | [] => "(self):"
                     | _ => "(self, " +:+ PyStr.join ", " params +:+ "):"
                     end +:+ nl).
  assert (match ps with
          | [] => write (indent depth +:+ "def " +:+ PyStr.fmt (name d)
                         +:+ "(self):" +:+ nl)
          | _ =>
              (parameters <- join_names h ps ;;
               write (indent depth +:+ "def " +:+ PyStr.fmt (name d)
                      +:+ "(self, " +:+ parameters +:+ "):" +:+ nl))%py
          end w = (Ok tt, CodeWriter_write header w)) as Hhead.
  { pose proof (Forall2_length _ _ _ Hn) as Hlen.
    destruct ps as [|p ps], params as [|p' params]; try done.
    eapply bind_run.
    { unfold join_names. eapply bind_run; [by apply map_m_name_at|].
      eapply bind_run; [apply map_m_names|]. reflexivity. }
    unfold write, modify, header. do 2 f_equal. by rewrite !append_assoc. }
  cbn [output].
  eapply bind_run; [by apply obj_at_run|]. cbn beta iota zeta.
  eapply bind_run; [exact Hhead|].
  assert ((if pv
           then write (indent (depth + 1) +:+ "raise NotImplementedError()")
           else write (indent (depth + 1) +:+ "pass"))
            (CodeWriter_write header w)
          = (Ok tt,
             CodeWriter_write
               (indent (depth + 1)
                +:+ (if pv then "raise NotImplementedError()" else "pass"))
               (CodeWriter_write header w))) as Hbody by by destruct pv.
  eapply bind_run; [exact Hbody|].
  unfold clear_block, modify. rewrite clear_block_spec. cbn.
  unfold header. by rewrite !append_assoc.
Qed.

(** X30.  A file with one class that declares one method without a body,
    from the syntax tree to the text: the class, one level deeper the
    method with [self] before the names of its parameters, two levels
    deeper [pass], or [raise NotImplementedError()] for a pure virtual
    method, and two blank lines. *)
Theorem translate_class_with_method py module_name filename cname mname
    params pure_virtual :
  filename ≠ "" →
  translate py module_name filename
    (translation_unit filename
       [class_with_method filename cname mname params pure_virtual])
  = (Ok tt, class_with_method_text cname mname params pure_virtual).
Proof.
  intros Hfile. unfold translate.
  set (self := mkGenerator 0 [abspath py filename]).
  set (s0 := mkState [ModuleObj (mkDecl None (Some module_name)) [] [] [] []]
               [] []).
  set (method := MethodObj (mkDecl (Some 1) (Some mname))
                   (declare_all params 3 []) (seq 3 (length params)) None
                   pure_virtual).
  set (h := [ModuleObj (mkDecl None (Some module_name)) (declare cname 1 [])
               [(Some cname, 1)] [] [];
             ClassObj (mkDecl (Some 0) (Some cname)) (declare mname 2 [])
               None None None [] [(Some mname, 2)];
             method]
            ++ Parameter_objects 2 params).
  assert (abspath py filename ∈ filenames self) as Hin by (cbn; constructor).
  assert ((self0 <- Generator_new module_name ;;
           Generator_parse py self0 filename
             (translation_unit filename
                [class_with_method filename cname mname params
                   pure_virtual]))%py
            (mkState [] [] [])
          = (Ok self, mkState h [] [])) as ->.
  { eapply bind_run; [apply Generator_new_run|].
    unfold Generator_parse. cbn [module filenames].
    rewrite bool_decide_false by (by inversion 1). cbn [app]. fold self s0.
    eapply bind_run; [|reflexivity].
    rewrite handle_known by by apply in_files_spelling.
    unfold translation_unit at 1. cbn [call_handler kind].
    unfold handle_translation_unit. cbn [get_children].
    eapply bind_run; [|reflexivity].
    rewrite for_each_cons. eapply bind_run; [|reflexivity].
    eapply bind_run.
    { unfold class_with_method.
      rewrite handle_known by by apply in_files_node.
      cbn [call_handler kind located]. unfold handle_class_decl.
      cbn [spelling get_children located].
      eapply bind_run.
      { unfold Class_new. eapply bind_run; [apply alloc_run|].
        eapply bind_run; [|reflexivity].
        by eapply Declaration_init_context. }
      eapply bind_run; [|reflexivity].
      rewrite for_each_cons. eapply bind_run; [|reflexivity].
      eapply bind_run.
      { by eapply (method_decl_run py self filename Hfile Hin mname params
                     pure_virtual 1). }
      cbn [heap s0 set_heap stderr stdout length set_names list_insert insert
           app with_obj].
      erewrite add_to_context_method_run; [|reflexivity..]. reflexivity. }
    cbn [heap s0 set_heap stderr stdout length set_names list_insert insert
         app with_obj].
    erewrite add_to_context_class_module; [|reflexivity|reflexivity].
    reflexivity. }
  cbn beta iota. unfold Generator_output. cbn [heap module].
  replace (module self) with 0 by done.
  assert (length h = S (S (S (length params)))) as ->.
  { unfold h, Parameter_objects. cbn. by rewrite length_map. }
  assert (output h (S (S (S (S (length params))))) (Some 0) None
            (CodeWriter_new "")
          = (Ok tt,
             mkCodeWriter
               (class_with_method_text cname mname params pure_virtual)
               true 2))
    as ->; [|reflexivity].
  remember (S (S (length params))) as fuel eqn:Hfuel.
  cbn [output]. eapply bind_run; [reflexivity|]. cbn beta iota zeta.
  eapply bind_run; [reflexivity|].
  eapply bind_run; [reflexivity|].
  eapply bind_run; [|reflexivity].
  rewrite for_each_cons. eapply bind_run; [|reflexivity].
  rewrite Hfuel. remember (S (length params)) as fuel1 eqn:Hfuel1.
  cbn [output]. eapply bind_run; [reflexivity|]. cbn beta iota zeta.
  eapply bind_run; [reflexivity|].
  eapply bind_run.
  { eapply bind_run; [reflexivity|]. eapply bind_run; [reflexivity|].
    rewrite for_each_cons. eapply bind_run; [|reflexivity].
    rewrite Hfuel1.
    eapply (method_output_empty h 2 _ _ _ params); [reflexivity|].
    unfold h. by apply (parameter_names_app 2 params [_; _; _] 3). }
  unfold clear_block, modify. rewrite clear_block_spec. cbn.
  unfold class_with_method_text. rewrite !append_assoc, !append_nil_l.
  reflexivity.
Qed.

Lemma translate_class_with_method_witness :
  translate Sample.py "foo" Sample.file
    (translation_unit Sample.file
       [class_with_method Sample.file "Shape" "scale" ["k"] true])
  = (Ok tt,
     "class Shape:" +:+ nl +:+ "    def scale(self, k):" +:+ nl
     +:+ "        raise NotImplementedError()" +:+ nl +:+ nl +:+ nl).
Proof.
  apply (translate_class_with_method Sample.py "foo" Sample.file "Shape"
           "scale" ["k"] true).
  discriminate.
Defined.
